(** * QR1: a shallow embedding of [QR.py] and its verified properties

    The development follows the layout of the Python module: the
    [DataEncoder], [ReedSolomon], [MatrixConstructor] and [QRCode] classes
    become modules; instance fields become record fields; the one mutable
    object shared between calls (the module grid [self.matrix]) lives in an
    explicit store, and the methods that mutate it thread the grid as state
    through an error monad. *)

From stdpp Require Import base numbers list list_numbers option gmap.

Local Open Scope Z_scope.

(** ** Outcomes of Python code *)

(** The exceptions the modelled code can raise. *)
Inductive exn : Set :=
  IndexError | ValueError | UnicodeEncodeError | AttributeError.

(** A computation returns a value, raises, or exhausts the fuel given to a
    [while] loop. *)
Inductive outcome (A : Type) : Type :=
| Ok (a : A)
| Raise (e : exn)
| OutOfFuel.
Arguments Ok {A} a.
Arguments Raise {A} e.
Arguments OutOfFuel {A}.

#[export] Instance outcome_ret : MRet outcome := fun A a => Ok a.
#[export] Instance outcome_bind : MBind outcome := fun A B f r =>
  match r with
  | Ok a => f a
  | Raise e => Raise e
  | OutOfFuel => OutOfFuel
  end.

(** [for a in l: body] over a state [S]. *)
Fixpoint for_ {S A : Type} (l : list A) (body : A → S → outcome S) (s : S)
  : outcome S :=
  match l with
  | [] => Ok s
  | a :: l' => s' ← body a s; for_ l' body s'
  end.

(** [while cond: body]; the fuel bounds the number of iterations. *)
Fixpoint while_ {S : Type} (fuel : nat) (cond : S → bool)
    (body : S → outcome S) (s : S) : outcome S :=
  if cond s then
    match fuel with
    | O => OutOfFuel
    | Datatypes.S fuel' => s' ← body s; while_ fuel' cond body s'
    end
  else Ok s.

(** ** Python lists *)

(** [range(lo, hi)]. *)
Definition range (lo hi : Z) : list Z := seqZ lo (hi - lo).

(** [len(l)] as a Python int. *)
Definition len {A : Type} (l : list A) : Z := Z.of_nat (length l).

(** Resolution of a subscript against a list of length [n]: negative
    subscripts count from the end, anything else is out of range. *)
Definition py_index (n : nat) (i : Z) : option nat :=
  if decide (0 ≤ i < Z.of_nat n) then Some (Z.to_nat i)
  else if decide (- Z.of_nat n ≤ i < 0) then Some (Z.to_nat (Z.of_nat n + i))
  else None.

(** [l[i]]. *)
Definition getitem {A : Type} (l : list A) (i : Z) : outcome A :=
  match py_index (length l) i ≫= (l !!.) with
  | Some a => Ok a
  | None => Raise IndexError
  end.

(** [l[i] = v]. *)
Definition setitem {A : Type} (l : list A) (i : Z) (v : A) : outcome (list A) :=
  match py_index (length l) i with
  | Some k => Ok (<[k:=v]> l)
  | None => Raise IndexError
  end.

(** Clamping of a slice bound. *)
Definition slice_bound (n : Z) (k : Z) : Z :=
  if k <? 0 then Z.max 0 (n + k) else Z.min k n.

(** [l[i:j]]. *)
Definition slice {A : Type} (l : list A) (i j : Z) : list A :=
  let a := slice_bound (len l) i in
  let b := slice_bound (len l) j in
  take (Z.to_nat (b - a)) (drop (Z.to_nat a) l).

(** ** Python strings *)

(** A [str] is a sequence of code points. *)
Abbreviation str := (list Z) (only parsing).

(** The value of a decimal digit. *)
Inductive decimal_digit : Set := D0 | D1 | D2 | D3 | D4 | D5 | D6 | D7 | D8 | D9.

Definition digit_value (d : decimal_digit) : Z :=
  match d with
  | D0 => 0 | D1 => 1 | D2 => 2 | D3 => 3 | D4 => 4
  | D5 => 5 | D6 => 6 | D7 => 7 | D8 => 8 | D9 => 9
  end.

(** The two properties of the Unicode character database that
    [str.isdigit] and [int] consult: the decimal value of a code point
    (general category Nd) and membership in the wider class of digits
    (Numeric_Type Digit or Decimal). The database itself is not part of
    the repository; it is a parameter of the development. *)
Class UnicodeData : Type := {
  to_decimal : Z → option decimal_digit;
  is_digit : Z → bool
}.

(** The database restricted to Basic Latin and Latin-1: the decimal digits
    are '0'..'9'; the superscripts U+00B2, U+00B3 and U+00B9 are digits
    without a decimal value. *)
Definition latin1_to_decimal (c : Z) : option decimal_digit :=
  match c with
  | 48 => Some D0 | 49 => Some D1 | 50 => Some D2 | 51 => Some D3
  | 52 => Some D4 | 53 => Some D5 | 54 => Some D6 | 55 => Some D7
  | 56 => Some D8 | 57 => Some D9
  | _ => None
  end.

Definition latin1_is_digit (c : Z) : bool :=
  (48 <=? c) && (c <=? 57) || (c =? 178) || (c =? 179) || (c =? 185).

#[export] Instance latin1 : UnicodeData := {|
  to_decimal := latin1_to_decimal;
  is_digit := latin1_is_digit
|}.

Section Str.
Context `{UnicodeData}.

(** [s.isdigit()]: non-empty and every character is a digit. *)
Definition isdigit (s : str) : bool :=
  match s with
  | [] => false
  | _ => forallb is_digit s
  end.

(** [int(s)] on the strings the encoder passes to it: non-empty runs of
    characters accepted by [isdigit]. Such a string converts exactly when
    every character has a decimal value. *)
Definition int (s : str) : outcome Z :=
  match s with
  | [] => Raise ValueError
  | _ =>
      match mapM to_decimal s with
      | Some ds => Ok (foldl (fun acc d => 10 * acc + digit_value d) 0 ds)
      | None => Raise ValueError
      end
  end.

End Str.

(** [s.encode('utf-8')] for one code point; surrogates cannot be encoded. *)
Definition utf8_encode_char (c : Z) : outcome (list Z) :=
  if c <? 128 then Ok [c]
  else if c <? 2048 then
    Ok [Z.lor 192 (Z.shiftr c 6); Z.lor 128 (Z.land c 63)]
  else if c <? 65536 then
    if (55296 <=? c) && (c <=? 57343) then Raise UnicodeEncodeError
    else Ok [Z.lor 224 (Z.shiftr c 12);
             Z.lor 128 (Z.land (Z.shiftr c 6) 63);
             Z.lor 128 (Z.land c 63)]
  else
    Ok [Z.lor 240 (Z.shiftr c 18);
        Z.lor 128 (Z.land (Z.shiftr c 12) 63);
        Z.lor 128 (Z.land (Z.shiftr c 6) 63);
        Z.lor 128 (Z.land c 63)].

(** [s.encode('utf-8')]. *)
Fixpoint utf8_encode (s : str) : outcome (list Z) :=
  match s with
  | [] => Ok []
  | c :: s' => bs ← utf8_encode_char c; rest ← utf8_encode s'; Ok (bs ++ rest)
  end.

(** Binary digits of a positive number, most significant first. *)
Fixpoint pos_bin (p : positive) : list Z :=
  match p with
  | xH => [1]
  | xO q => pos_bin q ++ [0]
  | xI q => pos_bin q ++ [1]
  end.

(** [format(n, 'b')] for [n >= 0], as a list of digits. *)
Definition bin (n : Z) : list Z :=
  match n with
  | Zpos p => pos_bin p
  | _ => [0]
  end.

(** ** class ErrorCorrectionLevel *)

Inductive ErrorCorrectionLevel : Set := L | M | Q | H.

#[export] Instance ErrorCorrectionLevel_eq_dec : EqDecision ErrorCorrectionLevel.
Proof. solve_decision. Defined.

(** ** class DataEncoder *)

Module DataEncoder.

Record t : Type := {
  version : Z;
  error_correction : ErrorCorrectionLevel;
  capacity : Z
}.

Definition _get_capacity (version : Z) (error_correction : ErrorCorrectionLevel)
  : Z :=
  match version, error_correction with
  | 1, L => 41
  | 1, M => 34
  | 1, Q => 27
  | 1, H => 17
  | _, _ => 100
  end.

Definition __init__ (version : Z) (error_correction : ErrorCorrectionLevel) : t :=
  {| version := version;
     error_correction := error_correction;
     capacity := _get_capacity version error_correction |}.

Definition _get_character_count_bits (self : t) : Z :=
  if (1 <=? version self) && (version self <=? 9) then
    if bool_decide (error_correction self ∈ [L; M]) then 10 else 8
  else 12.

(** [[int(bit) for bit in format(number, f'0{bit_length}b')]]: the binary
    digits padded with zeros on the left up to [bit_length] (never cut);
    for a negative number the sign character does not convert. *)
Definition _number_to_bits (number bit_length : Z) : outcome (list Z) :=
  if number <? 0 then Raise ValueError
  else
    let digits := bin number in
    Ok (replicate (Z.to_nat bit_length - length digits) 0 ++ digits).

(** The padding block appended by both encoders. *)
Definition pad_block : list Z := [1; 1; 1; 0; 1; 1; 0; 0].

(** [while len(result) < self.capacity: result.extend(pad_block)], followed
    by [result[:self.capacity]]. Every iteration adds eight bits, so
    [capacity] iterations are more than the loop can take. *)
Definition pad_and_cut (self : t) (result : list Z) : outcome (list Z) :=
  result ← while_ (Z.to_nat (capacity self))
              (fun result => len result <? capacity self)
              (fun result => Ok (result ++ pad_block)) result;
  Ok (slice result 0 (capacity self)).

Section WithUnicode.
Context `{UnicodeData}.

(** One iteration of the grouping loop of [_encode_numeric]; the state is
    the index [i] and the bits emitted so far. *)
Definition numeric_group (data : str) (st : Z * list Z) : outcome (Z * list Z) :=
  let '(i, result) := st in
  if i + 3 <=? len data then
    number ← int (slice data i (i + 3));
    bits ← _number_to_bits number 10;
    Ok (i + 3, result ++ bits)
  else if i + 2 <=? len data then
    number ← int (slice data i (i + 2));
    bits ← _number_to_bits number 7;
    Ok (i + 2, result ++ bits)
  else
    c ← getitem data i;
    number ← int [c];
    bits ← _number_to_bits number 4;
    Ok (i + 1, result ++ bits).

(** [_encode_numeric] up to and including the terminator: the contents of
    [result] when the padding loop is reached. *)
Definition numeric_stream (self : t) (data : str) : outcome (list Z) :=
  let result := [0; 0; 0; 1] in
  let count_bits := _get_character_count_bits self in
  let char_count := len data in
  count ← _number_to_bits char_count count_bits;
  let result := result ++ count in
  '(_, result) ← while_ (length data) (fun st => fst st <? len data)
                   (numeric_group data) (0, result);
  Ok (result ++ [0; 0; 0; 0]).

Definition _encode_numeric (self : t) (data : str) : outcome (list Z) :=
  result ← numeric_stream self data;
  pad_and_cut self result.

(** [_encode_byte] up to and including the terminator; the two calls of
    [data.encode('utf-8')] return the same bytes. *)
Definition byte_stream (self : t) (data : str) : outcome (list Z) :=
  let result := [0; 1; 0; 0] in
  let count_bits := _get_character_count_bits self in
  encoded ← utf8_encode data;
  let char_count := len encoded in
  count ← _number_to_bits char_count count_bits;
  let result := result ++ count in
  result ← for_ encoded (fun byte result =>
              bits ← _number_to_bits byte 8; Ok (result ++ bits)) result;
  Ok (result ++ [0; 0; 0; 0]).

Definition _encode_byte (self : t) (data : str) : outcome (list Z) :=
  result ← byte_stream self data;
  pad_and_cut self result.

Definition encode (self : t) (data : str) : outcome (list Z) :=
  if isdigit data then _encode_numeric self data
  else _encode_byte self data.

End WithUnicode.

End DataEncoder.

(** ** class ReedSolomon *)

Module ReedSolomon.

(** The class has no fields. *)
Inductive t : Set := new.

Definition encode (self : t) (data : list Z) (version : Z)
    (error_correction : ErrorCorrectionLevel) : list Z :=
  data ++ slice data 0 10.

End ReedSolomon.

(** ** The store of module grids *)

(** A grid is a list of rows, each a list of cells; [true] is dark. *)
Abbreviation grid := (list (list bool)) (only parsing).

(** References to grids, and the store they point into. *)
Abbreviation loc := positive (only parsing).
Abbreviation store := (gmap positive (list (list bool))) (only parsing).

(** [matrix[y][x]]. *)
Definition matrix_get (m : grid) (y x : Z) : outcome bool :=
  row ← getitem m y; getitem row x.

(** [matrix[y][x] = v]: the row object is fetched and updated in place. *)
Definition matrix_set (m : grid) (y x : Z) (v : bool) : outcome grid :=
  row ← getitem m y; row' ← setitem row x v; setitem m y row'.

(** [bool(n)] for an int. *)
Definition bool_of_int (n : Z) : bool := negb (n =? 0).

(** ** class MatrixConstructor *)

Module MatrixConstructor.

(** [matrix] refers to the grid allocated by the constructor. *)
Record t : Type := {
  version : Z;
  size : Z;
  matrix : loc
}.

(** [[[False] * self.size for _ in range(self.size)]]. *)
Definition blank (size : Z) : grid :=
  (fun _ => replicate (Z.to_nat size) false) <$> range 0 size.

Definition __init__ (version : Z) (σ : store) : t * store :=
  let size := (version - 1) * 4 + 21 in
  let l := fresh (dom σ) in
  ({| version := version; size := size; matrix := l |},
   <[l := blank size]> σ).

Definition _add_finder_patterns (self : t) (m : grid) : outcome grid :=
  let patterns_pos := [(0, 0); (size self - 7, 0); (0, size self - 7)] in
  for_ patterns_pos (fun '(x, y) =>
    for_ (range 0 7) (fun i =>
      for_ (range 0 7) (fun j m =>
        if (i =? 0) || (i =? 6) || (j =? 0) || (j =? 6) then
          matrix_set m (y + j) (x + i) true
        else if (2 <=? i) && (i <=? 4) && ((2 <=? j) && (j <=? 4)) then
          matrix_set m (y + j) (x + i) true
        else
          matrix_set m (y + j) (x + i) false))) m.

Definition _get_alignment_positions (self : t) : list (Z * Z) :=
  if (2 <=? version self) && (version self <=? 6) then
    [(size self - 7, size self - 7)]
  else
    [(size self - 9, size self - 9)].

Definition _add_alignment_patterns (self : t) (m : grid) : outcome grid :=
  if version self =? 1 then Ok m
  else
    let positions := _get_alignment_positions self in
    for_ positions (fun '(x, y) m =>
      if (x <? 9) && (y <? 9) || (x >? size self - 10) && (y <? 9)
         || (x <? 9) && (y >? size self - 10) then Ok m
      else
        for_ (range 0 5) (fun i =>
          for_ (range 0 5) (fun j m =>
            if (i =? 0) || (i =? 4) || (j =? 0) || (j =? 4) then
              matrix_set m (y + j - 2) (x + i - 2) true
            else if (i =? 2) && (j =? 2) then
              matrix_set m (y + j - 2) (x + i - 2) true
            else
              matrix_set m (y + j - 2) (x + i - 2) false)) m) m.

Definition _add_timing_patterns (self : t) (m : grid) : outcome grid :=
  m ← for_ (range 8 (size self - 8)) (fun i m =>
         matrix_set m 6 i (i `mod` 2 =? 0)) m;
  for_ (range 8 (size self - 8)) (fun i m =>
    matrix_set m i 6 (i `mod` 2 =? 0)) m.

Definition _add_dark_module (self : t) (m : grid) : outcome grid :=
  matrix_set m (4 * version self + 9) 8 true.

Definition _add_format_info (self : t) (m : grid) : outcome grid :=
  let format_info := replicate 15 false in
  for_ (range 0 15) (fun i m =>
    if i <? 8 then
      v ← getitem format_info i;
      matrix_set m 8 (if negb (i =? 6) then i else 7) v
    else
      v ← getitem format_info i;
      matrix_set m (14 - i) 8 v) m.

Definition _is_function_pattern (self : t) (x y : Z) : bool :=
  if (x <? 7) && (y <? 7) || (x >? size self - 8) && (y <? 7)
     || (x <? 7) && (y >? size self - 8) then true
  else if (x =? 6) || (y =? 6) then true
  else if (x <? 9) && (y <? 9) || (x >? size self - 9) && (y <? 9)
          || (x <? 9) && (y >? size self - 9) then true
  else false.

(** The state of the scan is the grid and [bit_index]. *)
Definition _add_data (self : t) (data : list Z) (m : grid) : outcome grid :=
  let bit_index := 0 in
  '(m, _) ← for_ (range 0 (size self)) (fun y =>
    for_ (range 0 (size self)) (fun x '(m, bit_index) =>
      if negb (_is_function_pattern self x y) && (bit_index <? len data) then
        bit ← getitem data bit_index;
        m ← matrix_set m y x (bool_of_int bit);
        Ok (m, bit_index + 1)
      else Ok (m, bit_index))) (m, bit_index);
  Ok m.

Definition _apply_mask (self : t) (m : grid) : outcome grid :=
  for_ (range 0 (size self)) (fun y =>
    for_ (range 0 (size self)) (fun x m =>
      if negb (_is_function_pattern self x y) then
        if (x + y) `mod` 3 =? 0 then
          v ← matrix_get m y x;
          matrix_set m y x (negb v)
        else Ok m
      else Ok m)) m.

(** The seven steps of [build_matrix], run on the contents of the grid. *)
Definition build_steps (self : t) (data : list Z) (m : grid) : outcome grid :=
  m ← _add_finder_patterns self m;
  m ← _add_alignment_patterns self m;
  m ← _add_timing_patterns self m;
  m ← _add_dark_module self m;
  m ← _add_format_info self m;
  m ← _add_data self data m;
  _apply_mask self m.

(** [build_matrix] mutates the grid [self.matrix] refers to and returns that
    same reference. *)
Definition build_matrix (self : t) (data : list Z) (σ : store)
  : outcome (loc * store) :=
  match σ !! matrix self with
  | None => Raise AttributeError
  | Some m =>
      m' ← build_steps self data m;
      Ok (matrix self, <[matrix self := m']> σ)
  end.

End MatrixConstructor.

(** ** PIL images *)

(** What [save_as_image] uses of the imaging library: an RGB image of a
    given width and height, created white, and its pixel access object. A
    pixel absent from [pixels] has the colour the image was created with. *)
Module Image.

Record t : Type := {
  width : Z;
  height : Z;
  pixels : gmap (Z * Z) (Z * Z * Z)
}.


(** [Image.new('RGB', (width, height), 'white')]: a negative dimension is
    rejected. *)
Definition new (width height : Z) : outcome t :=
  if (width <? 0) || (height <? 0) then Raise ValueError
  else Ok {| width := width; height := height; pixels := ∅ |}.



End Image.

(** ** class QRCode *)

Module QRCode.

Record t : Type := {
  version : Z;
  error_correction : ErrorCorrectionLevel;
  size : Z;
  encoder : DataEncoder.t;
  error_corrector : ReedSolomon.t;
  matrix_constructor : MatrixConstructor.t
}.

Definition _calculate_size (version : Z) : Z := (version - 1) * 4 + 21.

Definition __init__ (version : Z) (error_correction : ErrorCorrectionLevel)
    (σ : store) : t * store :=
  let '(mc, σ') := MatrixConstructor.__init__ version σ in
  ({| version := version;
      error_correction := error_correction;
      size := _calculate_size version;
      encoder := DataEncoder.__init__ version error_correction;
      error_corrector := ReedSolomon.new;
      matrix_constructor := mc |}, σ').

Section WithUnicode.
Context `{UnicodeData}.

(** [generate] returns the reference [build_matrix] returns. *)
Definition generate (self : t) (data : str) (σ : store)
  : outcome (loc * store) :=
  encoded_data ← DataEncoder.encode (encoder self) data;
  let error_corrected_data :=
    ReedSolomon.encode (error_corrector self) encoded_data
      (version self) (error_correction self) in
  MatrixConstructor.build_matrix (matrix_constructor self)
    error_corrected_data σ.

(** [print_ascii]: the lines handed to [print], one per row, in order.
    The block character is U+2588. *)
Definition print_ascii (self : t) (data : str) (σ : store)
  : outcome (list str * store) :=
  '(matrix, σ) ← generate self data σ;
  match σ !! matrix with
  | None => Raise AttributeError
  | Some m =>
      let size := len m in
      out ← for_ (range 0 size) (fun y out =>
               let line : str := [] in
               line ← for_ (range 0 size) (fun x line =>
                        v ← matrix_get m y x;
                        Ok (line ++ (if v : bool then [9608; 9608] else [32; 32])))
                      line;
               Ok (out ++ [line])) ([] : list str);
      Ok (out, σ)
  end.


End WithUnicode.

End QRCode.

(** ** Vocabulary of the statements *)

(** *** Grids *)

(** A grid of [size] rows of [size] cells. *)
Definition grid_wf (size : Z) (m : grid) : Prop :=
  length m = Z.to_nat size ∧ Forall (fun row => length row = Z.to_nat size) m.

(** The value read at column [x] of row [y]; meaningful inside the grid. *)
Definition cell (m : grid) (x y : Z) : bool :=
  match matrix_get m y x with
  | Ok b => b
  | _ => false
  end.

(** A step that terminates normally on every grid of the given size and
    changes each cell by a function of its position and previous value. *)
Definition acts (size : Z) (step : grid → outcome grid)
    (G : Z → Z → bool → bool) : Prop :=
  ∀ m, grid_wf size m →
    ∃ m', step m = Ok m' ∧ grid_wf size m' ∧
      ∀ x y, 0 ≤ x < size → 0 ≤ y < size → cell m' x y = G x y (cell m x y).

(** The pairs visited by two nested loops, in the order of the visit. *)
Fixpoint pairs {A B : Type} (l : list A) (k : list B) : list (A * B) :=
  match l with
  | [] => []
  | a :: l' => ((a,.) <$> k) ++ pairs l' k
  end.

(** *** What each step of [build_matrix] does to a cell *)

(** Overwriting the cells selected by [T] with the value [F] prescribes. *)
Definition stamp (T F : Z → Z → bool) (x y : Z) (b : bool) : bool :=
  if T x y then F x y else b.

(** The square of side [w] whose top-left corner is column [x0], row [y0]. *)
Definition in_block (x0 y0 w x y : Z) : bool :=
  bool_decide (x0 ≤ x < x0 + w ∧ y0 ≤ y < y0 + w).

(** The finder pattern at offset (i, j) of its block: dark on the outer
    ring and in the 3x3 core. *)
Definition finder_dark (i j : Z) : bool :=
  bool_decide (i = 0 ∨ i = 6 ∨ j = 0 ∨ j = 6 ∨ (2 ≤ i ≤ 4 ∧ 2 ≤ j ≤ 4)).

(** The alignment pattern at offset (i, j) of its block: dark on the outer
    ring and at the centre. *)
Definition align_dark (i j : Z) : bool :=
  bool_decide (i = 0 ∨ i = 4 ∨ j = 0 ∨ j = 4 ∨ (i = 2 ∧ j = 2)).

(** The three finder blocks, stamped in the order of [patterns_pos]. *)
Definition finder_step (size x y : Z) (b : bool) : bool :=
  stamp (in_block 0 (size - 7) 7) (fun x y => finder_dark x (y - (size - 7))) x y
    (stamp (in_block (size - 7) 0 7) (fun x y => finder_dark (x - (size - 7)) y) x y
       (stamp (in_block 0 0 7) finder_dark x y b)).

(** The top-left corner of the alignment block of a version above 1. *)
Definition alignment_origin (version size : Z) : Z :=
  if version <=? 6 then size - 9 else size - 11.

Definition alignment_step (version size x y : Z) (b : bool) : bool :=
  if version =? 1 then b
  else
    let o := alignment_origin version size in
    stamp (in_block o o 5) (fun x y => align_dark (x - o) (y - o)) x y b.

(** Row 6 first, then column 6. *)
Definition timing_step (size x y : Z) (b : bool) : bool :=
  stamp (fun x y => bool_decide (x = 6 ∧ 8 ≤ y < size - 8))
        (fun x y => y `mod` 2 =? 0) x y
    (stamp (fun x y => bool_decide (y = 6 ∧ 8 ≤ x < size - 8))
           (fun x y => x `mod` 2 =? 0) x y b).

Definition dark_module_step (version x y : Z) (b : bool) : bool :=
  stamp (fun x y => bool_decide (x = 8 ∧ y = 4 * version + 9))
        (fun _ _ => true) x y b.

(** The cells [_add_format_info] writes. *)
Definition format_cell (x y : Z) : bool :=
  bool_decide (y = 8 ∧ (0 ≤ x ≤ 5 ∨ x = 7) ∨ x = 8 ∧ 0 ≤ y ≤ 6).

Definition format_step (x y : Z) (b : bool) : bool :=
  stamp format_cell (fun _ _ => false) x y b.

(** The cells in the order [_add_data] and [_apply_mask] visit them, as
    (row, column) pairs: row 0 from column 0 to the last, then row 1, and
    so on. *)
Definition scan_order (size : Z) : list (Z * Z) :=
  pairs (range 0 size) (range 0 size).

(** The function-pattern predicate on a (row, column) pair. *)
Definition reserved (self : MatrixConstructor.t) (p : Z * Z) : bool :=
  MatrixConstructor._is_function_pattern self p.2 p.1.

(** The number of cells of [l] ahead of [c] that are not reserved. *)
Fixpoint bits_before (reserved : Z * Z → bool) (l : list (Z * Z)) (c : Z * Z)
  : Z :=
  match l with
  | [] => 0
  | c' :: l' =>
      if decide (c' = c) then 0
      else (if reserved c' then 0 else 1) + bits_before reserved l' c
  end.

(** The number of unreserved cells the row-major scan meets before the
    cell at column [x] of row [y]: the value of [bit_index] when the scan
    reaches that cell, as long as bits remain. *)
Definition bit_index_of (self : MatrixConstructor.t) (x y : Z) : Z :=
  bits_before (reserved self) (scan_order (MatrixConstructor.size self)) (y, x).

(** The body of the loops of [_add_data] on a (row, column) pair. *)
Definition place_bit (self : MatrixConstructor.t) (data : list Z)
    (p : Z * Z) (st : grid * Z) : outcome (grid * Z) :=
  let '(m, bit_index) := st in
  if negb (MatrixConstructor._is_function_pattern self p.2 p.1)
     && (bit_index <? len data) then
    bit ← getitem data bit_index;
    m ← matrix_set m p.1 p.2 (bool_of_int bit);
    Ok (m, bit_index + 1)
  else Ok (m, bit_index).

Definition data_step (self : MatrixConstructor.t) (data : list Z)
    (x y : Z) (b : bool) : bool :=
  if negb (MatrixConstructor._is_function_pattern self x y)
     && (bit_index_of self x y <? len data)
  then bool_of_int (default 0 (data !! Z.to_nat (bit_index_of self x y)))
  else b.

Definition mask_step (self : MatrixConstructor.t) (x y : Z) (b : bool) : bool :=
  if negb (MatrixConstructor._is_function_pattern self x y)
     && ((x + y) `mod` 3 =? 0)
  then negb b else b.

(** The seven steps in the order [build_matrix] runs them. *)
Definition build_step (self : MatrixConstructor.t) (data : list Z)
    (x y : Z) (b : bool) : bool :=
  let version := MatrixConstructor.version self in
  let size := MatrixConstructor.size self in
  mask_step self x y
    (data_step self data x y
       (format_step x y
          (dark_module_step version x y
             (timing_step size x y
                (alignment_step version size x y
                   (finder_step size x y b)))))).

(** The first five steps of [build_matrix]: the grid [_add_data] receives. *)
Definition patterns_only (self : MatrixConstructor.t) (m : grid) : outcome grid :=
  m ← MatrixConstructor._add_finder_patterns self m;
  m ← MatrixConstructor._add_alignment_patterns self m;
  m ← MatrixConstructor._add_timing_patterns self m;
  m ← MatrixConstructor._add_dark_module self m;
  MatrixConstructor._add_format_info self m.

(** *** Bit streams *)

(** The unsigned big-endian representation of [n] on [w] bits. *)
Fixpoint be_bits (w : nat) (n : Z) : list Z :=
  match w with
  | O => []
  | S w' => be_bits w' (n `div` 2) ++ [n `mod` 2]
  end.

(** The number a list of bits denotes, most significant bit first. *)
Definition bits_value (bits : list Z) : Z :=
  foldl (fun acc b => 2 * acc + b) 0 bits.

(** The number a run of decimal digits denotes. *)
Definition decimal_value (ds : list decimal_digit) : Z :=
  foldl (fun acc d => 10 * acc + digit_value d) 0 ds.

(** The payload of numeric mode as the specification words it: the digits
    are taken three at a time, a group of three on 10 bits, a final group
    of two on 7 bits, a final single digit on 4 bits. *)
Fixpoint spec_numeric_groups (ds : list decimal_digit) : list Z :=
  match ds with
  | a :: b :: c :: rest =>
      be_bits 10 (decimal_value [a; b; c]) ++ spec_numeric_groups rest
  | [a; b] => be_bits 7 (decimal_value [a; b])
  | [a] => be_bits 4 (decimal_value [a])
  | [] => []
  end.

(** The width of the character-count field as the specification gives it. *)
Definition spec_count_width (version : Z) (level : ErrorCorrectionLevel) : nat :=
  if bool_decide (1 ≤ version ≤ 9) then
    match level with
    | L | M => 10
    | Q | H => 8
    end
  else 12.

(** A code point that UTF-8 can represent: a Unicode scalar value. *)
Definition scalar_value (c : Z) : bool :=
  (0 <=? c) && (c <? 55296) || (57344 <=? c) && (c <=? 1114111).

Section Vocabulary.
Context `{UnicodeData}.

(** The digits of a string all of whose characters are decimal. *)
Definition digits_of (s : str) : option (list decimal_digit) :=
  mapM to_decimal s.

(** The texts the encoder accepts: a text that [isdigit] sends to numeric
    mode must consist of decimal digits, any other text of code points
    that UTF-8 represents. *)
Definition encodable (text : str) : bool :=
  if isdigit text then bool_decide (is_Some (digits_of text))
  else forallb scalar_value text.

(** What [encode] has in [result] when it reaches the padding loop. *)
Definition stream (self : DataEncoder.t) (text : str) : outcome (list Z) :=
  if isdigit text then DataEncoder.numeric_stream self text
  else DataEncoder.byte_stream self text.

End Vocabulary.

(** *** Instances in the store *)

(** A matrix constructor as [__init__] leaves it and [build_matrix]
    keeps it: a positive version, the size of that version, and a grid of
    that size in the store. *)
Definition constructor_ok (mc : MatrixConstructor.t) (σ : store) : Prop :=
  1 ≤ MatrixConstructor.version mc ∧
  MatrixConstructor.size mc = (MatrixConstructor.version mc - 1) * 4 + 21 ∧
  ∃ m, σ !! MatrixConstructor.matrix mc = Some m ∧
       grid_wf (MatrixConstructor.size mc) m.

(** A [QRCode] instance as [__init__] leaves it and [generate] keeps it. *)
Definition instance_ok (q : QRCode.t) (σ : store) : Prop :=
  QRCode.encoder q
  = DataEncoder.__init__ (QRCode.version q) (QRCode.error_correction q) ∧
  constructor_ok (QRCode.matrix_constructor q) σ.

(** *** Concrete inputs *)

(** Matrix constructors of versions 1 and 2. *)
Definition v1_constructor : MatrixConstructor.t :=
  {| MatrixConstructor.version := 1; MatrixConstructor.size := 21;
     MatrixConstructor.matrix := 1%positive |}.

Definition v2_constructor : MatrixConstructor.t :=
  {| MatrixConstructor.version := 2; MatrixConstructor.size := 25;
     MatrixConstructor.matrix := 1%positive |}.

(** A 21x21 grid, blank except for a dark cell at row 8, column 8. *)
Definition grid_dark_at_8_8 : grid :=
  <[8%nat := <[8%nat := true]> (replicate 21 false)]> (MatrixConstructor.blank 21).

(** A version-1, level-M instance and the store its constructor leaves. *)
Definition demo_instance : QRCode.t := (QRCode.__init__ 1 M ∅).1.
Definition demo_store : store := (QRCode.__init__ 1 M ∅).2.

(** The texts "1", "12345", "HELLO" and "²" as code points. *)
Definition text_1 : str := [49].
Definition text_12345 : str := [49; 50; 51; 52; 53].
Definition text_HELLO : str := [72; 69; 76; 76; 79].
Definition text_superscript_two : str := [178].

(** *** Vocabulary of the further properties *)

(** A bit. *)
Definition is_bit (b : Z) : Prop := b = 0 ∨ b = 1.

(** A code point of a [str]. *)
Definition code_point (c : Z) : Prop := 0 ≤ c ≤ 1114111.

(** The payload of byte mode written out: every byte on 8 bits, most
    significant bit first, in encoding order. *)
Definition spec_byte_payload (bytes : list Z) : list Z :=
  concat (be_bits 8 <$> bytes).


(** What the streams look like whenever they are built: bits only, after
    the mode indicator. *)
Definition stream_shape (header r : list Z) : Prop :=
  Forall is_bit r ∧ ∃ rest, r = header ++ rest.


(** A cell outside the function patterns that receives no bit and lies
    outside the alignment block is inverted by every run of the seven steps
    when the mask selects it. *)
Definition drifts (self : MatrixConstructor.t) (data : list Z) (x y : Z) : bool :=
  negb (MatrixConstructor._is_function_pattern self x y)
  && (len data <=? bit_index_of self x y)
  && negb ((2 <=? MatrixConstructor.version self)
           && in_block (alignment_origin (MatrixConstructor.version self)
                          (MatrixConstructor.size self))
                (alignment_origin (MatrixConstructor.version self)
                   (MatrixConstructor.size self)) 5 x y)
  && ((x + y) `mod` 3 =? 0).

(** The cells outside the function patterns, as (row, column) pairs in
    the order the scan of [_add_data] meets them. *)
Definition data_cells (self : MatrixConstructor.t) : list (Z * Z) :=
  filter (fun p => reserved self p = false)
         (scan_order (MatrixConstructor.size self)).


(** ** The outcome monad and loops *)

Lemma bind_Ok_inv {A B : Type} (r : outcome A) (f : A → outcome B) (b : B) :
  r ≫= f = Ok b → ∃ a, r = Ok a ∧ f a = Ok b.
Proof. destruct r as [a| |]; simpl; [eauto | discriminate..]. Qed.

Lemma for_app {S A : Type} (l k : list A) (body : A → S → outcome S) (s : S) :
  for_ (l ++ k) body s = for_ l body s ≫= for_ k body.
Proof.
  revert s. induction l as [|a l IH]; intros s; simpl; [done|].
  destruct (body a s) as [s'| |]; simpl; auto.
Qed.

(** A nested loop runs its body over the pairs of the two lists, the
    inner index varying fastest. *)
Lemma for_nested {S A B : Type} (l : list A) (k : list B)
    (body : A → B → S → outcome S) (s : S) :
  for_ l (fun a => for_ k (body a)) s
  = for_ (pairs l k) (fun p => body p.1 p.2) s.
Proof.
  revert s. induction l as [|a l IH]; intros s; [done|].
  simpl. rewrite for_app.
  assert (Hk : ∀ t, for_ ((a,.) <$> k) (fun p => body p.1 p.2) t
                    = for_ k (body a) t).
  { clear. induction k as [|b k IHk]; intros t; simpl; [done|].
    destruct (body a b t); simpl; auto. }
  rewrite Hk. destruct (for_ k (body a) s); simpl; auto.
Qed.

Lemma elem_of_pairs {A B : Type} (l : list A) (k : list B) (p : A * B) :
  p ∈ pairs l k ↔ p.1 ∈ l ∧ p.2 ∈ k.
Proof.
  destruct p as [a b]. simpl. induction l as [|a' l IH]; simpl.
  - split; [by intros ?%elem_of_nil|by intros [?%elem_of_nil _]].
  - rewrite elem_of_app, list_elem_of_fmap, IH, elem_of_cons. split.
    + intros [(b' & [= -> ->] & Hb)|[? ?]]; auto.
    + intros [[->|Ha] Hb]; eauto.
Qed.

Lemma NoDup_pairs {A B : Type} (l : list A) (k : list B) :
  NoDup l → NoDup k → NoDup (pairs l k).
Proof.
  intros Hl Hk. induction Hl as [|a l Ha Hl IH]; simpl; [constructor|].
  apply NoDup_app. split; [|split; [|done]].
  - apply (NoDup_fmap_2 _). done.
  - intros [a' b] (b' & [= -> ->] & Hb)%list_elem_of_fmap Hp%elem_of_pairs.
    by destruct Hp.
Qed.

Lemma elem_of_range (lo hi i : Z) : i ∈ range lo hi ↔ lo ≤ i < hi.
Proof. unfold range. rewrite elem_of_seqZ. lia. Qed.

Lemma NoDup_range (lo hi : Z) : NoDup (range lo hi).
Proof. apply NoDup_seqZ. Qed.

(** ** Subscripts inside a grid *)

Lemma py_index_in (n : nat) (i : Z) :
  0 ≤ i < Z.of_nat n → py_index n i = Some (Z.to_nat i).
Proof. intros Hi. unfold py_index. by rewrite decide_True. Qed.

Lemma getitem_in {A : Type} (l : list A) (i : Z) (a : A) :
  0 ≤ i → l !! Z.to_nat i = Some a → getitem l i = Ok a.
Proof.
  intros Hi Hl. unfold getitem.
  rewrite py_index_in; [simpl; by rewrite Hl|].
  apply lookup_lt_Some in Hl. lia.
Qed.

Lemma setitem_in {A : Type} (l : list A) (i : Z) (v : A) :
  0 ≤ i < len l → setitem l i v = Ok (<[Z.to_nat i := v]> l).
Proof. intros Hi. unfold setitem. by rewrite py_index_in. Qed.

Lemma grid_wf_row (size : Z) (m : grid) (y : Z) :
  grid_wf size m → 0 ≤ y < size →
  ∃ row, m !! Z.to_nat y = Some row ∧ length row = Z.to_nat size.
Proof.
  intros [Hlen Hrows] Hy.
  destruct (lookup_lt_is_Some_2 m (Z.to_nat y)) as [row Hrow]; [lia|].
  exists row. split; [done|].
  by apply (Forall_lookup_1 _ _ _ _ Hrows Hrow).
Qed.

Lemma matrix_get_in (size : Z) (m : grid) (x y : Z) :
  grid_wf size m → 0 ≤ x < size → 0 ≤ y < size →
  matrix_get m y x = Ok (cell m x y).
Proof.
  intros Hwf Hx Hy.
  destruct (grid_wf_row _ _ _ Hwf Hy) as (row & Hrow & Hlen).
  destruct (lookup_lt_is_Some_2 row (Z.to_nat x)) as [b Hb]; [lia|].
  unfold cell, matrix_get.
  rewrite (getitem_in m y row) by (done || lia). simpl.
  rewrite (getitem_in row x b) by (done || lia). done.
Qed.

Lemma matrix_set_in (size : Z) (m : grid) (x y : Z) (v : bool) :
  grid_wf size m → 0 ≤ x < size → 0 ≤ y < size →
  ∃ m', matrix_set m y x v = Ok m' ∧ grid_wf size m' ∧
    ∀ x' y', 0 ≤ x' < size → 0 ≤ y' < size →
      cell m' x' y' = if bool_decide (x' = x ∧ y' = y) then v else cell m x' y'.
Proof.
  intros Hwf Hx Hy.
  destruct (grid_wf_row _ _ _ Hwf Hy) as (row & Hrow & Hlen).
  pose proof Hwf as [Hm Hrows].
  exists (<[Z.to_nat y := <[Z.to_nat x := v]> row]> m).
  assert (Hwf' : grid_wf size (<[Z.to_nat y := <[Z.to_nat x := v]> row]> m)).
  { split; [by rewrite length_insert|].
    apply Forall_insert; [done|]. by rewrite length_insert. }
  split; [|split; [done|]].
  - unfold matrix_set. rewrite (getitem_in m y row) by (done || lia). simpl.
    rewrite setitem_in by (unfold len; lia). simpl.
    rewrite setitem_in by (unfold len; lia). done.
  - intros x' y' Hx' Hy'.
    pose proof (matrix_get_in _ _ _ _ Hwf' Hx' Hy') as Hnew.
    pose proof (matrix_get_in _ _ _ _ Hwf Hx' Hy') as Hold.
    unfold matrix_get in Hnew, Hold.
    destruct (decide (y' = y)) as [->|Hne].
    + rewrite (getitem_in _ y (<[Z.to_nat x := v]> row)) in Hnew;
        [|lia|by rewrite list_lookup_insert_eq by lia].
      rewrite (getitem_in _ y row) in Hold by (done || lia).
      simpl in Hnew, Hold.
      destruct (decide (x' = x)) as [->|Hnx].
      * rewrite bool_decide_eq_true_2 by done.
        rewrite (getitem_in _ x v) in Hnew;
          [congruence|lia|by rewrite list_lookup_insert_eq by lia].
      * rewrite bool_decide_eq_false_2 by tauto.
        destruct (lookup_lt_is_Some_2 row (Z.to_nat x')) as [b Hb]; [lia|].
        rewrite (getitem_in _ x' b) in Hnew;
          [|lia|by rewrite list_lookup_insert_ne by lia].
        rewrite (getitem_in _ x' b) in Hold by (done || lia). congruence.
    + rewrite bool_decide_eq_false_2 by tauto.
      destruct (grid_wf_row _ _ _ Hwf Hy') as (row' & Hrow' & Hlen').
      rewrite (getitem_in _ y' row') in Hnew;
        [|lia|by rewrite list_lookup_insert_ne by lia].
      rewrite (getitem_in _ y' row') in Hold by (done || lia).
      simpl in Hnew, Hold. congruence.
Qed.

(** ** Steps as cell-wise transformations *)

Lemma acts_ext (size : Z) (step : grid → outcome grid)
    (G G' : Z → Z → bool → bool) :
  (∀ x y b, 0 ≤ x < size → 0 ≤ y < size → G x y b = G' x y b) →
  acts size step G → acts size step G'.
Proof.
  unfold acts. intros HG Hstep m Hm. destruct (Hstep m Hm) as (m' & ? & ? & Hc).
  exists m'. split; [done|split; [done|]].
  intros x y Hx Hy. rewrite Hc by done. by apply HG.
Qed.

Lemma acts_ret (size : Z) : acts size Ok (fun _ _ b => b).
Proof. unfold acts. intros m Hm. exists m. by split; [|split]. Qed.

Lemma acts_seq (size : Z) (p q : grid → outcome grid)
    (G1 G2 : Z → Z → bool → bool) :
  acts size p G1 → acts size q G2 →
  acts size (fun m => p m ≫= q) (fun x y b => G2 x y (G1 x y b)).
Proof.
  unfold acts. intros Hp Hq m Hm.
  destruct (Hp m Hm) as (m1 & E1 & Hm1 & Hc1).
  destruct (Hq m1 Hm1) as (m2 & E2 & Hm2 & Hc2).
  exists m2. rewrite E1. split; [done|split; [done|]].
  intros x y Hx Hy. rewrite Hc2, Hc1 by done. done.
Qed.

Lemma acts_set (size x y : Z) (v : bool) :
  0 ≤ x < size → 0 ≤ y < size →
  acts size (fun m => matrix_set m y x v)
    (stamp (fun x' y' => bool_decide (x' = x ∧ y' = y)) (fun _ _ => v)).
Proof. unfold acts. intros Hx Hy m Hm. by apply matrix_set_in. Qed.

(** A loop of plain writes whose values depend on the target only: the
    cells hit end up with their prescribed value, whatever the order and
    the number of writes. *)
Lemma acts_writes {A : Type} (size : Z) (l : list A)
    (body : A → grid → outcome grid)
    (col row : A → Z) (val : A → bool) (T F : Z → Z → bool) :
  (∀ a m, a ∈ l → body a m = matrix_set m (row a) (col a) (val a)) →
  (∀ a, a ∈ l → 0 ≤ col a < size ∧ 0 ≤ row a < size ∧
                val a = F (col a) (row a)) →
  (∀ x y, T x y = true ↔ ∃ a, a ∈ l ∧ col a = x ∧ row a = y) →
  acts size (for_ l body) (stamp T F).
Proof.
  unfold acts. revert T. induction l as [|a l IH]; intros T Hbody Hin HT m Hm.
  - exists m. split; [done|split; [done|]]. intros x y _ _. unfold stamp.
    destruct (T x y) eqn:E; [|done].
    apply HT in E as (a & Ha & _). by apply elem_of_nil in Ha.
  - destruct (Hin a) as (Hx & Hy & Hv); [left|].
    destruct (matrix_set_in size m _ _ (val a) Hm Hx Hy) as (m1 & E1 & Hm1 & Hc1).
    set (T' := fun x y => bool_decide (Exists (fun b => col b = x ∧ row b = y) l)).
    destruct (IH T') with (m := m1) as (m' & E' & Hm' & Hc'); try done.
    { intros b m0 Hb. apply Hbody. by right. }
    { intros b Hb. apply Hin. by right. }
    { intros x y. unfold T'. by rewrite bool_decide_eq_true, Exists_exists. }
    exists m'. simpl. rewrite Hbody by left. rewrite E1. simpl.
    split; [done|split; [done|]].
    intros x y Hx' Hy'. rewrite Hc', Hc1 by done. unfold stamp, T'.
    destruct (T x y) eqn:E.
    + apply HT in E as (b & Hb & <- & <-). apply elem_of_cons in Hb as [->|Hb].
      * case_bool_decide as Hl; [done|].
        rewrite bool_decide_eq_true_2 by done. by apply Hin; left.
      * by rewrite bool_decide_eq_true_2 by (apply Exists_exists; eauto).
    + assert (Hno : ∀ b, b ∈ a :: l → ¬ (col b = x ∧ row b = y)).
      { intros b Hb [<- <-]. assert (T (col b) (row b) = true); [|congruence].
        apply HT. eauto. }
      rewrite bool_decide_eq_false_2.
      * rewrite bool_decide_eq_false_2; [done|].
        intros [-> ->]. by apply (Hno a); [left|].
      * intros (b & Hb & Hb')%Exists_exists. apply (Hno b); [by right|done].
Qed.

(** A loop that visits distinct cells and inverts those selected by [P]. *)
Lemma acts_flips (size : Z) (l : list (Z * Z)) (P : Z → Z → bool)
    (body : Z * Z → grid → outcome grid) :
  (∀ p m, p ∈ l →
     body p m = if P p.2 p.1
                then v ← matrix_get m p.1 p.2; matrix_set m p.1 p.2 (negb v)
                else Ok m) →
  NoDup l →
  (∀ p, p ∈ l → 0 ≤ p.2 < size ∧ 0 ≤ p.1 < size) →
  acts size (for_ l body)
    (fun x y b => if bool_decide ((y, x) ∈ l) && P x y then negb b else b).
Proof.
  unfold acts. induction l as [|[y0 x0] l IH]; intros Hbody Hnd Hin m Hm.
  - exists m. split; [done|split; [done|]]. intros x y _ _.
    rewrite bool_decide_eq_false_2; [done|]. apply not_elem_of_nil.
  - apply NoDup_cons in Hnd as [Hnotin Hnd].
    destruct (Hin (y0, x0)) as [Hx Hy]; [left|]. simpl in Hx, Hy.
    assert (∃ m1, body (y0, x0) m = Ok m1 ∧ grid_wf size m1 ∧
              ∀ x y, 0 ≤ x < size → 0 ≤ y < size →
                cell m1 x y = if bool_decide (x = x0 ∧ y = y0) && P x y
                              then negb (cell m x y) else cell m x y)
      as (m1 & E1 & Hm1 & Hc1).
    { rewrite Hbody by left. simpl. destruct (P x0 y0) eqn:EP.
      - rewrite (matrix_get_in size) by done. simpl.
        destruct (matrix_set_in size m x0 y0 (negb (cell m x0 y0)) Hm Hx Hy)
          as (m1 & E1 & Hm1 & Hc1).
        exists m1. split; [done|split; [done|]]. intros x y Hx' Hy'.
        rewrite Hc1 by done. case_bool_decide as Hxy; simpl; [|done].
        destruct Hxy as [-> ->]. by rewrite EP.
      - exists m. split; [done|split; [done|]]. intros x y Hx' Hy'.
        case_bool_decide as Hxy; simpl; [|done].
        destruct Hxy as [-> ->]. by rewrite EP. }
    destruct IH with (m := m1) as (m' & E' & Hm' & Hc'); try done.
    { intros p m0 Hp. apply Hbody. by right. }
    { intros p Hp. apply Hin. by right. }
    exists m'. simpl. rewrite E1. simpl. split; [done|split; [done|]].
    intros x y Hx' Hy'. rewrite Hc', Hc1 by done.
    destruct (decide (x = x0 ∧ y = y0)) as [[-> ->]|Hne].
    + rewrite (bool_decide_eq_false_2 ((y0, x0) ∈ l)) by done. simpl.
      rewrite (bool_decide_eq_true_2 (x0 = x0 ∧ y0 = y0)) by done.
      rewrite (bool_decide_eq_true_2 ((y0, x0) ∈ (y0, x0) :: l)) by left.
      done.
    + rewrite (bool_decide_eq_false_2 (x = x0 ∧ y = y0)) by done. simpl.
      assert (Hiff : (y, x) ∈ (y0, x0) :: l ↔ (y, x) ∈ l).
      { rewrite elem_of_cons. split; [|tauto].
        intros [[= -> ->]|?]; [tauto|done]. }
      by rewrite (bool_decide_ext _ _ Hiff).
Qed.

(** ** The pattern steps *)

(** Case analysis on the integer comparisons of the goal. *)
Ltac zbool :=
  repeat (match goal with
          | |- context [Z.ltb ?a ?b] => destruct (Z.ltb_spec a b)
          | |- context [Z.leb ?a ?b] => destruct (Z.leb_spec a b)
          | |- context [Z.eqb ?a ?b] => destruct (Z.eqb_spec a b)
          | |- context [Z.gtb ?a ?b] => rewrite (Z.gtb_ltb a b)
          | |- context [bool_decide ?P] => destruct (bool_decide_reflect P)
          end; simpl; try done; try lia).

Lemma elem_of_pairs_range (l1 h1 l2 h2 : Z) (p : Z * Z) :
  p ∈ pairs (range l1 h1) (range l2 h2) ↔ l1 ≤ p.1 < h1 ∧ l2 ≤ p.2 < h2.
Proof. destruct p. rewrite elem_of_pairs, !elem_of_range. done. Qed.

Lemma finder_block_acts (size x0 y0 : Z) :
  0 ≤ x0 → x0 + 7 ≤ size → 0 ≤ y0 → y0 + 7 ≤ size →
  acts size
    (for_ (range 0 7) (fun i =>
      for_ (range 0 7) (fun j m =>
        if (i =? 0) || (i =? 6) || (j =? 0) || (j =? 6) then
          matrix_set m (y0 + j) (x0 + i) true
        else if (2 <=? i) && (i <=? 4) && ((2 <=? j) && (j <=? 4)) then
          matrix_set m (y0 + j) (x0 + i) true
        else
          matrix_set m (y0 + j) (x0 + i) false)))
    (stamp (in_block x0 y0 7) (fun x y => finder_dark (x - x0) (y - y0))).
Proof.
  intros Hx0 Hx1 Hy0 Hy1 m Hm. rewrite for_nested. revert m Hm.
  apply (acts_writes size _ _ (fun p => x0 + p.1) (fun p => y0 + p.2)
           (fun p => finder_dark p.1 p.2)).
  - intros [i j] m _. simpl. unfold finder_dark. zbool.
  - intros p Hp%elem_of_pairs_range. repeat split; try lia.
    f_equal; lia.
  - intros x y. unfold in_block. rewrite bool_decide_eq_true. split.
    + intros H. exists (x - x0, y - y0). rewrite elem_of_pairs_range. simpl. lia.
    + intros (p & Hp%elem_of_pairs_range & <- & <-). lia.
Qed.

Lemma alignment_block_acts (size x0 y0 : Z) :
  2 ≤ x0 → x0 + 3 ≤ size → 2 ≤ y0 → y0 + 3 ≤ size →
  acts size
    (for_ (range 0 5) (fun i =>
      for_ (range 0 5) (fun j m =>
        if (i =? 0) || (i =? 4) || (j =? 0) || (j =? 4) then
          matrix_set m (y0 + j - 2) (x0 + i - 2) true
        else if (i =? 2) && (j =? 2) then
          matrix_set m (y0 + j - 2) (x0 + i - 2) true
        else
          matrix_set m (y0 + j - 2) (x0 + i - 2) false)))
    (stamp (in_block (x0 - 2) (y0 - 2) 5)
       (fun x y => align_dark (x - (x0 - 2)) (y - (y0 - 2)))).
Proof.
  intros Hx0 Hx1 Hy0 Hy1 m Hm. rewrite for_nested. revert m Hm.
  apply (acts_writes size _ _ (fun p => x0 + p.1 - 2) (fun p => y0 + p.2 - 2)
           (fun p => align_dark p.1 p.2)).
  - intros [i j] m _. simpl. unfold align_dark. zbool.
  - intros p Hp%elem_of_pairs_range. repeat split; try lia.
    f_equal; lia.
  - intros x y. unfold in_block. rewrite bool_decide_eq_true. split.
    + intros H. exists (x - (x0 - 2), y - (y0 - 2)).
      rewrite elem_of_pairs_range. simpl. lia.
    + intros (p & Hp%elem_of_pairs_range & <- & <-). lia.
Qed.

Section Patterns.
Import MatrixConstructor.
Variable self : MatrixConstructor.t.
Hypothesis version_pos : 1 ≤ version self.
Hypothesis size_eq : size self = (version self - 1) * 4 + 21.

Lemma add_finder_patterns_acts :
  acts (size self) (_add_finder_patterns self) (finder_step (size self)).
Proof.
  unfold _add_finder_patterns. simpl.
  eapply acts_ext; [|eapply acts_seq; [apply (finder_block_acts _ 0 0); lia|
    eapply acts_seq; [apply (finder_block_acts _ (size self - 7) 0); lia|
    eapply acts_seq; [apply (finder_block_acts _ 0 (size self - 7)); lia|
    apply acts_ret]]]].
  intros x y b _ _. unfold finder_step, stamp. simpl.
  by rewrite !Z.sub_0_r.
Qed.

Lemma add_alignment_patterns_acts :
  acts (size self) (_add_alignment_patterns self)
    (alignment_step (version self) (size self)).
Proof.
  unfold _add_alignment_patterns, alignment_step, _get_alignment_positions,
    alignment_origin.
  destruct (Z.eqb_spec (version self) 1) as [E|E]; [apply acts_ret|].
  destruct (Z.leb_spec (version self) 6) as [H6|H6].
  - rewrite (proj2 (Z.leb_le 2 (version self))) by lia. cbn [andb for_].
    match goal with
    | |- context [if ?c then Ok _ else _] =>
        replace c with false by (symmetry; zbool)
    end.
    eapply acts_ext; [|eapply acts_seq;
      [apply (alignment_block_acts _ (size self - 7) (size self - 7)); lia
      |apply acts_ret]].
    intros x y b _ _. cbn beta.
    by replace (size self - 7 - 2) with (size self - 9) by lia.
  - rewrite (proj2 (Z.leb_le 2 (version self))) by lia. cbn [andb for_].
    match goal with
    | |- context [if ?c then Ok _ else _] =>
        replace c with false by (symmetry; zbool)
    end.
    eapply acts_ext; [|eapply acts_seq;
      [apply (alignment_block_acts _ (size self - 9) (size self - 9)); lia
      |apply acts_ret]].
    intros x y b _ _. cbn beta.
    by replace (size self - 9 - 2) with (size self - 11) by lia.
Qed.

Lemma add_timing_patterns_acts :
  acts (size self) (_add_timing_patterns self) (timing_step (size self)).
Proof.
  unfold _add_timing_patterns, timing_step.
  apply (acts_seq _ _ _ (stamp _ _) (stamp _ _)).
  - apply (acts_writes _ _ _ (fun i => i) (fun _ => 6) (fun i => i `mod` 2 =? 0)).
    + done.
    + intros i Hi%elem_of_range. repeat split; lia.
    + intros x y. rewrite bool_decide_eq_true. split.
      * intros [-> Hx]. exists x. by rewrite elem_of_range.
      * intros (i & Hi%elem_of_range & <- & <-). lia.
  - apply (acts_writes _ _ _ (fun _ => 6) (fun i => i) (fun i => i `mod` 2 =? 0)).
    + done.
    + intros i Hi%elem_of_range. repeat split; lia.
    + intros x y. rewrite bool_decide_eq_true. split.
      * intros [-> Hx]. exists y. by rewrite elem_of_range.
      * intros (i & Hi%elem_of_range & <- & <-). lia.
Qed.

Lemma add_dark_module_acts :
  acts (size self) (_add_dark_module self) (dark_module_step (version self)).
Proof. apply acts_set; lia. Qed.

Lemma add_format_info_acts :
  acts (size self) (_add_format_info self) format_step.
Proof.
  unfold _add_format_info, format_step.
  apply (acts_writes _ _ _
           (fun i => if i <? 8 then (if negb (i =? 6) then i else 7) else 8)
           (fun i => if i <? 8 then 8 else 14 - i) (fun _ => false)).
  - intros i m Hi%elem_of_range.
    rewrite (getitem_in (replicate 15 false) i false);
      [|lia|apply lookup_replicate_2; lia].
    simpl. by destruct (i <? 8).
  - intros i Hi%elem_of_range. zbool.
  - intros x y. unfold format_cell. rewrite bool_decide_eq_true. split.
    + intros [[-> Hx]|[-> Hy]].
      * exists x. rewrite elem_of_range. zbool.
      * exists (14 - y). rewrite elem_of_range. zbool.
    + intros (i & Hi%elem_of_range & <- & <-). zbool.
Qed.

End Patterns.

(** ** The row-major scan *)

Lemma bits_before_nonneg reserved l c : 0 ≤ bits_before reserved l c.
Proof.
  induction l as [|c' l IH]; simpl; [done|].
  destruct (decide (c' = c)); [done|]. destruct (reserved c'); lia.
Qed.

Lemma elem_of_scan_order (size : Z) (p : Z * Z) :
  p ∈ scan_order size ↔ 0 ≤ p.1 < size ∧ 0 ≤ p.2 < size.
Proof. apply elem_of_pairs_range. Qed.

Lemma NoDup_scan_order (size : Z) : NoDup (scan_order size).
Proof. apply NoDup_pairs; apply NoDup_range. Qed.

Section Scan.
Import MatrixConstructor.
Variable self : MatrixConstructor.t.
Variable data : list Z.

Lemma add_data_scan (l : list (Z * Z)) :
  NoDup l →
  (∀ p, p ∈ l → 0 ≤ p.2 < size self ∧ 0 ≤ p.1 < size self) →
  ∀ m k, grid_wf (size self) m → 0 ≤ k →
  ∃ m' k', for_ l (place_bit self data) (m, k) = Ok (m', k') ∧ grid_wf (size self) m' ∧
    ∀ x y, 0 ≤ x < size self → 0 ≤ y < size self →
      cell m' x y =
        if bool_decide ((y, x) ∈ l) && negb (_is_function_pattern self x y)
           && (k + bits_before (reserved self) l (y, x) <? len data)
        then bool_of_int
               (default 0 (data !! Z.to_nat (k + bits_before (reserved self) l (y, x))))
        else cell m x y.
Proof.
  induction l as [|[y0 x0] l IH]; intros Hnd Hin m k Hm Hk.
  - exists m, k. split; [done|split; [done|]]. intros x y _ _.
    rewrite bool_decide_eq_false_2; [done|]. apply not_elem_of_nil.
  - apply NoDup_cons in Hnd as [Hnotin Hnd].
    destruct (Hin (y0, x0)) as [Hx Hy]; [left|]. simpl in Hx, Hy.
    assert (Hin' : ∀ p, p ∈ l → 0 ≤ p.2 < size self ∧ 0 ≤ p.1 < size self).
    { intros p Hp. apply Hin. by right. }
    assert (Hmem : ∀ x y, (x, y) ≠ (x0, y0) →
              bool_decide ((y, x) ∈ (y0, x0) :: l) = bool_decide ((y, x) ∈ l)).
    { intros x y Hne. apply bool_decide_ext. rewrite elem_of_cons.
      split; [|tauto]. intros [[= -> ->]|?]; [done|done]. }
    cbn [for_]. set (rest := for_ l (place_bit self data)). unfold place_bit.
    cbn [fst snd].
    destruct (negb (_is_function_pattern self x0 y0) && (k <? len data)) eqn:Ec.
    + apply andb_true_iff in Ec as [Efp Ek]. apply Z.ltb_lt in Ek.
      destruct (lookup_lt_is_Some_2 data (Z.to_nat k)) as [bit Hbit];
        [unfold len in Ek; lia|].
      rewrite (getitem_in data k bit) by done. cbn [mbind outcome_bind].
      destruct (matrix_set_in (size self) m x0 y0 (bool_of_int bit) Hm Hx Hy)
        as (m1 & E1 & Hm1 & Hc1).
      rewrite E1. cbn [mbind outcome_bind].
      destruct (IH Hnd Hin' m1 (k + 1) Hm1) as (m' & k' & E' & Hm' & Hc');
        [lia|].
      exists m', k'. split; [exact E'|split; [done|]].
      intros x y Hx' Hy'. rewrite Hc', Hc1 by done. cbn [bits_before].
      destruct (decide ((x, y) = (x0, y0))) as [[= -> ->]|Hne].
      * rewrite (bool_decide_eq_false_2 ((y0, x0) ∈ l)) by done.
        rewrite (bool_decide_eq_true_2 ((y0, x0) ∈ (y0, x0) :: l)) by left.
        rewrite decide_True by done. rewrite Efp, Z.add_0_r.
        rewrite (proj2 (Z.ltb_lt k (len data))) by done.
        rewrite bool_decide_eq_true_2 by done. cbn. by rewrite Hbit.
      * rewrite Hmem by done.
        rewrite decide_False by (intros [= -> ->]; done).
        rewrite (bool_decide_eq_false_2 (x = x0 ∧ y = y0))
          by (intros [-> ->]; done).
        change (reserved self (y0, x0)) with (_is_function_pattern self x0 y0).
        apply negb_true_iff in Efp. rewrite Efp.
        by rewrite (Z.add_assoc k 1).
    + cbn [mbind outcome_bind].
      destruct (IH Hnd Hin' m k Hm Hk) as (m' & k' & E' & Hm' & Hc').
      exists m', k'. split; [exact E'|split; [done|]].
      intros x y Hx' Hy'. rewrite Hc' by done. cbn [bits_before].
      destruct (decide ((x, y) = (x0, y0))) as [[= -> ->]|Hne].
      * rewrite (bool_decide_eq_false_2 ((y0, x0) ∈ l)) by done.
        rewrite (bool_decide_eq_true_2 ((y0, x0) ∈ (y0, x0) :: l)) by left.
        rewrite decide_True by done. rewrite Z.add_0_r.
        cbn [andb]. by rewrite Ec.
      * rewrite Hmem by done.
        rewrite decide_False by (intros [= -> ->]; done).
        change (reserved self (y0, x0)) with (_is_function_pattern self x0 y0).
        destruct (_is_function_pattern self x0 y0) eqn:Efp.
        -- by rewrite Z.add_0_l.
        -- simpl in Ec. apply Z.ltb_ge in Ec.
           pose proof (bits_before_nonneg (reserved self) l (y, x)).
           rewrite !(proj2 (Z.ltb_ge _ (len data))) by lia.
           by rewrite !andb_false_r.
Qed.

End Scan.

Section Pipeline.
Import MatrixConstructor.
Variable self : MatrixConstructor.t.

Lemma add_data_acts (data : list Z) :
  acts (size self) (_add_data self data) (data_step self data).
Proof.
  intros m Hm. unfold _add_data. rewrite for_nested.
  destruct (add_data_scan self data (scan_order (size self))
              (NoDup_scan_order _)) with (m := m) (k := 0)
    as (m' & k' & E & Hm' & Hc); [|done|done|].
  { intros p Hp%elem_of_scan_order. lia. }
  exists m'. unfold scan_order, place_bit in E. rewrite E.
  split; [done|split; [done|]].
  intros x y Hx Hy. rewrite Hc by done.
  rewrite bool_decide_eq_true_2 by (apply elem_of_scan_order; simpl; lia).
  unfold data_step, bit_index_of. by rewrite Z.add_0_l.
Qed.

Lemma apply_mask_acts :
  acts (size self) (_apply_mask self) (mask_step self).
Proof.
  intros m Hm. unfold _apply_mask. rewrite for_nested. revert m Hm.
  eapply acts_ext;
    [|apply (acts_flips _ _
               (fun x y => negb (_is_function_pattern self x y)
                           && ((x + y) `mod` 3 =? 0)))].
  - intros x y b Hx Hy. cbn beta.
    rewrite bool_decide_eq_true_2 by (apply elem_of_scan_order; simpl; lia).
    done.
  - intros p m _. cbn beta.
    destruct (_is_function_pattern self p.2 p.1); [done|].
    by destruct ((p.2 + p.1) `mod` 3 =? 0).
  - apply NoDup_scan_order.
  - intros p Hp%elem_of_scan_order. lia.
Qed.

Hypothesis version_pos : 1 ≤ version self.
Hypothesis size_eq : size self = (version self - 1) * 4 + 21.

Lemma build_steps_acts (data : list Z) :
  acts (size self) (build_steps self data) (build_step self data).
Proof.
  unfold build_steps, build_step.
  eapply acts_ext; [|
    eapply acts_seq; [by apply add_finder_patterns_acts|
    eapply acts_seq; [by apply add_alignment_patterns_acts|
    eapply acts_seq; [by apply add_timing_patterns_acts|
    eapply acts_seq; [by apply add_dark_module_acts|
    eapply acts_seq; [by apply add_format_info_acts|
    eapply acts_seq; [apply add_data_acts|apply apply_mask_acts]]]]]]].
  done.
Qed.

End Pipeline.

(** ** Bits and digits *)

Lemma length_be_bits (w : nat) (n : Z) : length (be_bits w n) = w.
Proof.
  revert n. induction w as [|w IH]; intros n; simpl; [done|].
  rewrite length_app, IH. simpl. lia.
Qed.

Lemma be_bits_zero (w : nat) : be_bits w 0 = replicate w 0.
Proof.
  induction w as [|w IH]; simpl; [done|].
  change (0 `div` 2) with 0. change (0 `mod` 2) with 0. rewrite IH.
  clear. induction w; simpl; [done|]. by f_equal.
Qed.

Lemma bits_value_app (bits : list Z) (b : Z) :
  bits_value (bits ++ [b]) = 2 * bits_value bits + b.
Proof. unfold bits_value. by rewrite foldl_app. Qed.

Lemma bits_value_be_bits (w : nat) (n : Z) :
  0 ≤ n < 2 ^ Z.of_nat w → bits_value (be_bits w n) = n.
Proof.
  revert n. induction w as [|w IH]; intros n Hn.
  - simpl in *. unfold bits_value. simpl. lia.
  - simpl. rewrite bits_value_app, IH.
    + pose proof (Z.div_mod n 2). lia.
    + rewrite Nat2Z.inj_succ, Z.pow_succ_r in Hn by lia.
      split; [apply Z.div_pos; lia|apply Z.div_lt_upper_bound; lia].
Qed.

Lemma pos_bin_be_bits (p : positive) (w : nat) :
  Z.pos p < 2 ^ Z.of_nat w →
  replicate (w - length (pos_bin p)) 0 ++ pos_bin p = be_bits w (Z.pos p).
Proof.
  revert w. induction p as [p IH|p IH|]; intros [|w] Hw;
    try (simpl in Hw; lia);
    rewrite Nat2Z.inj_succ, Z.pow_succ_r in Hw by lia.
  - cbn [pos_bin be_bits]. rewrite length_app. cbn [length].
    replace (S w - (length (pos_bin p) + 1))%nat
      with (w - length (pos_bin p))%nat by lia.
    rewrite app_assoc, IH by lia.
    replace (Z.pos p~1 `div` 2) with (Z.pos p) by (rewrite Pos2Z.inj_xI; Z.div_mod_to_equations; lia).
    by replace (Z.pos p~1 `mod` 2) with 1 by (rewrite Pos2Z.inj_xI; Z.div_mod_to_equations; lia).
  - cbn [pos_bin be_bits]. rewrite length_app. cbn [length].
    replace (S w - (length (pos_bin p) + 1))%nat
      with (w - length (pos_bin p))%nat by lia.
    rewrite app_assoc, IH by lia.
    replace (Z.pos p~0 `div` 2) with (Z.pos p) by (rewrite Pos2Z.inj_xO; Z.div_mod_to_equations; lia).
    by replace (Z.pos p~0 `mod` 2) with 0 by (rewrite Pos2Z.inj_xO; Z.div_mod_to_equations; lia).
  - cbn [pos_bin be_bits length]. change (1 `div` 2) with 0.
    change (1 `mod` 2) with 1. rewrite be_bits_zero.
    by replace (S w - 1)%nat with w by lia.
Qed.

Lemma number_to_bits_ok (number bit_length : Z) :
  0 ≤ number →
  ∃ bits, DataEncoder._number_to_bits number bit_length = Ok bits.
Proof.
  intros Hn. unfold DataEncoder._number_to_bits.
  rewrite (proj2 (Z.ltb_ge number 0)) by done. eauto.
Qed.

Lemma number_to_bits_be (number bit_length : Z) :
  1 ≤ bit_length → 0 ≤ number < 2 ^ bit_length →
  DataEncoder._number_to_bits number bit_length
  = Ok (be_bits (Z.to_nat bit_length) number).
Proof.
  intros Hw Hn. unfold DataEncoder._number_to_bits.
  rewrite (proj2 (Z.ltb_ge number 0)) by lia. f_equal.
  destruct number as [|p|p]; [|apply pos_bin_be_bits; rewrite Z2Nat.id; lia|lia].
  rewrite be_bits_zero. simpl.
  destruct (Z.to_nat bit_length) as [|w] eqn:E; [lia|].
  simpl. rewrite Nat.sub_0_r. clear. induction w; simpl; [done|]. by f_equal.
Qed.

(** ** Slices and padding *)

Lemma slice_in {A : Type} (l : list A) (i j : Z) :
  0 ≤ i ≤ j → j ≤ len l →
  slice l i j = take (Z.to_nat (j - i)) (drop (Z.to_nat i) l).
Proof.
  intros Hij Hj. unfold slice, slice_bound.
  rewrite !(proj2 (Z.ltb_ge _ 0)) by lia.
  by rewrite !Z.min_l by lia.
Qed.

Lemma slice_prefix {A : Type} (l : list A) (j : Z) :
  0 ≤ j → slice l 0 j = take (Z.to_nat j) l.
Proof.
  intros Hj. unfold slice, slice_bound. rewrite !(proj2 (Z.ltb_ge _ 0)) by lia.
  rewrite (Z.min_l 0) by (unfold len; lia). rewrite Z.sub_0_r.
  change (Z.to_nat 0) with 0%nat. rewrite drop_0.
  destruct (Z.le_ge_cases j (len l)).
  - by rewrite Z.min_l by done.
  - rewrite Z.min_r by done. unfold len in *.
    rewrite !take_ge by lia. done.
Qed.

Lemma pad_loop (cap : Z) (fuel : nat) (r : list Z) :
  cap ≤ len r + Z.of_nat fuel →
  ∃ k : nat,
    while_ fuel (fun r => len r <? cap)
      (fun r => Ok (r ++ DataEncoder.pad_block)) r
    = Ok (r ++ concat (replicate k DataEncoder.pad_block)) ∧
    cap ≤ len r + 8 * Z.of_nat k ∧
    (k = O ∨ len r + 8 * (Z.of_nat k - 1) < cap).
Proof.
  revert r. induction fuel as [|fuel IH]; intros r Hr; cbn [while_].
  - rewrite (proj2 (Z.ltb_ge _ _)) by lia. exists O. simpl.
    rewrite app_nil_r. split; [done|]. split; [lia|by left].
  - destruct (Z.ltb_spec (len r) cap) as [Hlt|Hge].
    + cbn [mbind outcome_bind].
      assert (Hlen : len (r ++ DataEncoder.pad_block) = len r + 8).
      { unfold len. rewrite length_app. simpl. lia. }
      destruct (IH (r ++ DataEncoder.pad_block)) as (k & E & Hk & Hmin); [lia|].
      exists (S k). simpl. rewrite E, <- !app_assoc.
      split; [done|]. split; [lia|]. right. lia.
    + exists O. simpl. rewrite app_nil_r. split; [done|]. split; [lia|by left].
Qed.

Lemma length_pads (k : nat) :
  length (concat (replicate k DataEncoder.pad_block)) = (8 * k)%nat.
Proof. induction k as [|k IH]; simpl; [done|]. rewrite IH. lia. Qed.

(** Padding and cutting: the result is the stream followed by the least
    number of padding blocks that reaches the capacity, cut at the
    capacity. *)
Lemma pad_and_cut_spec (self : DataEncoder.t) (r : list Z) :
  0 ≤ DataEncoder.capacity self →
  ∃ k : nat,
    DataEncoder.pad_and_cut self r
    = Ok (take (Z.to_nat (DataEncoder.capacity self))
            (r ++ concat (replicate k DataEncoder.pad_block))) ∧
    DataEncoder.capacity self ≤ len r + 8 * Z.of_nat k ∧
    (k = O ∨ len r + 8 * (Z.of_nat k - 1) < DataEncoder.capacity self).
Proof.
  intros Hcap. unfold DataEncoder.pad_and_cut.
  destruct (pad_loop (DataEncoder.capacity self)
              (Z.to_nat (DataEncoder.capacity self)) r) as (k & E & Hk & Hmin).
  { unfold len. lia. }
  exists k. rewrite E. cbn [mbind outcome_bind].
  by rewrite slice_prefix.
Qed.

Lemma capacity_range (v : Z) (l : ErrorCorrectionLevel) :
  17 ≤ DataEncoder._get_capacity v l ≤ 100.
Proof.
  unfold DataEncoder._get_capacity.
  destruct v as [|[| |]|]; destruct l; lia.
Qed.

Lemma digit_value_range (d : decimal_digit) : 0 ≤ digit_value d ≤ 9.
Proof. destruct d; simpl; lia. Qed.

Lemma decimal_value_snoc (ds : list decimal_digit) (d : decimal_digit) :
  decimal_value (ds ++ [d]) = 10 * decimal_value ds + digit_value d.
Proof. unfold decimal_value. by rewrite foldl_app. Qed.

Lemma decimal_value_range (ds : list decimal_digit) :
  0 ≤ decimal_value ds < 10 ^ Z.of_nat (length ds).
Proof.
  induction ds as [|d ds IH] using rev_ind.
  - unfold decimal_value. simpl. lia.
  - rewrite decimal_value_snoc, length_app. simpl.
    rewrite Nat2Z.inj_add, Z.pow_add_r by lia.
    pose proof (digit_value_range d). change (10 ^ Z.of_nat 1) with 10. lia.
Qed.

(** ** The grouping loop of numeric mode *)

Lemma spec_numeric_groups_3 (l : list decimal_digit) :
  (3 ≤ length l)%nat →
  spec_numeric_groups l
  = be_bits 10 (decimal_value (take 3 l)) ++ spec_numeric_groups (drop 3 l).
Proof. destruct l as [|a [|b [|c rest]]]; simpl; intros; (done || lia). Qed.

Lemma spec_numeric_groups_2 (l : list decimal_digit) :
  length l = 2%nat → spec_numeric_groups l = be_bits 7 (decimal_value l).
Proof. destruct l as [|a [|b [|c rest]]]; simpl; intros; (done || lia). Qed.

Lemma spec_numeric_groups_1 (l : list decimal_digit) :
  length l = 1%nat → spec_numeric_groups l = be_bits 4 (decimal_value l).
Proof. destruct l as [|a [|b rest]]; simpl; intros; (done || lia). Qed.

Section Numeric.
Context `{UnicodeData}.

Lemma int_digits (s : str) (ds : list decimal_digit) :
  digits_of s = Some ds → s ≠ [] → int s = Ok (decimal_value ds).
Proof.
  unfold digits_of, int. intros E Hs. destruct s; [done|]. by rewrite E.
Qed.

Lemma digits_of_length (s : str) (ds : list decimal_digit) :
  digits_of s = Some ds → length ds = length s.
Proof. intros E%mapM_Some. symmetry. by eapply Forall2_length. Qed.

Lemma digits_of_sub (s : str) (ds : list decimal_digit) (i n : nat) :
  digits_of s = Some ds →
  digits_of (take n (drop i s)) = Some (take n (drop i ds)).
Proof.
  unfold digits_of. rewrite !mapM_Some. intros E.
  by apply Forall2_take, Forall2_drop.
Qed.

Lemma numeric_loop (data : str) (ds : list decimal_digit) :
  digits_of data = Some ds →
  ∀ (fuel : nat) (i : Z) (r : list Z),
    0 ≤ i ≤ len data → len data - i ≤ Z.of_nat fuel →
    while_ fuel (fun st => st.1 <? len data)
      (DataEncoder.numeric_group data) (i, r)
    = Ok (len data, r ++ spec_numeric_groups (drop (Z.to_nat i) ds)).
Proof.
  intros Hds. pose proof (digits_of_length _ _ Hds) as Hlen.
  induction fuel as [|fuel IH]; intros i r Hi Hfuel; cbn [while_ fst].
  - rewrite (proj2 (Z.ltb_ge _ _)) by lia. assert (i = len data) as -> by lia.
    unfold len. rewrite Nat2Z.id, drop_ge by lia. by rewrite app_nil_r.
  - destruct (Z.ltb_spec i (len data)) as [Hlt|Hge].
    2:{ assert (i = len data) as -> by lia.
        unfold len. rewrite Nat2Z.id, drop_ge by lia. by rewrite app_nil_r. }
    set (rest := while_ fuel _ (DataEncoder.numeric_group data)).
    unfold DataEncoder.numeric_group. cbv beta iota.
    assert (Hgroup : ∀ n : nat, (1 ≤ n ≤ 3)%nat → i + Z.of_nat n ≤ len data →
              int (slice data i (i + Z.of_nat n))
              = Ok (decimal_value (take n (drop (Z.to_nat i) ds))) ∧
              length (take n (drop (Z.to_nat i) ds)) = n).
    { intros n Hn Hin. rewrite slice_in by lia.
      replace (Z.to_nat (i + Z.of_nat n - i)) with n by lia.
      assert (length (take n (drop (Z.to_nat i) data)) = n) as Hl.
      { rewrite length_take, length_drop. unfold len in *. lia. }
      split.
      - apply int_digits; [by apply digits_of_sub|].
        intros E. rewrite E in Hl. simpl in Hl. lia.
      - rewrite length_take, length_drop. unfold len in *. lia. }
    destruct (Z.leb_spec (i + 3) (len data)) as [H3|H3]; cbv beta iota.
    + destruct (Hgroup 3%nat) as [E El]; [lia|lia|].
      change (i + Z.of_nat 3) with (i + 3) in E. rewrite E.
      cbn [mbind outcome_bind].
      pose proof (decimal_value_range (take 3 (drop (Z.to_nat i) ds))) as Hr.
      rewrite El in Hr. change (10 ^ Z.of_nat 3) with 1000 in Hr.
        rewrite number_to_bits_be by (try change (2 ^ 10) with 1024; lia).
      cbn [mbind outcome_bind]. subst rest. cbv beta. rewrite IH by lia.
      rewrite (spec_numeric_groups_3 (drop (Z.to_nat i) ds))
        by (rewrite length_drop; unfold len in *; lia).
      rewrite drop_drop, <- app_assoc.
      by replace (Z.to_nat (i + 3)) with (Z.to_nat i + 3)%nat by lia.
    + destruct (Z.leb_spec (i + 2) (len data)) as [H2|H2]; cbv beta iota.
      * destruct (Hgroup 2%nat) as [E El]; [lia|lia|].
        change (i + Z.of_nat 2) with (i + 2) in E. rewrite E.
        cbn [mbind outcome_bind].
        pose proof (decimal_value_range (take 2 (drop (Z.to_nat i) ds))) as Hr.
        rewrite El in Hr. change (10 ^ Z.of_nat 2) with 100 in Hr.
        rewrite number_to_bits_be by (try change (2 ^ 7) with 128; lia).
        cbn [mbind outcome_bind]. subst rest. cbv beta. rewrite IH by lia.
        rewrite (spec_numeric_groups_2 (drop (Z.to_nat i) ds))
          by (rewrite length_drop; unfold len in *; lia).
        rewrite (drop_ge ds (Z.to_nat (i + 2))) by (unfold len in *; lia).
        rewrite take_ge by (rewrite length_drop; unfold len in *; lia).
        by rewrite app_nil_r.
      * destruct (Hgroup 1%nat) as [E El]; [lia|lia|].
        change (i + Z.of_nat 1) with (i + 1) in E.
        rewrite slice_in in E by lia.
        replace (Z.to_nat (i + 1 - i)) with 1%nat in E by lia.
        destruct (lookup_lt_is_Some_2 data (Z.to_nat i)) as [c Hc];
          [unfold len in *; lia|].
        rewrite (getitem_in data i c) by (done || lia).
        cbn [mbind outcome_bind].
        rewrite (drop_S data c (Z.to_nat i) Hc) in E. simpl take in E. rewrite take_0 in E.
        rewrite E.
        cbn [mbind outcome_bind].
        pose proof (decimal_value_range (take 1 (drop (Z.to_nat i) ds))) as Hr.
        rewrite El in Hr. change (10 ^ Z.of_nat 1) with 10 in Hr.
        rewrite number_to_bits_be by (try change (2 ^ 4) with 16; lia).
        cbn [mbind outcome_bind]. subst rest. cbv beta. rewrite IH by lia.
        rewrite (spec_numeric_groups_1 (drop (Z.to_nat i) ds))
          by (rewrite length_drop; unfold len in *; lia).
        rewrite (drop_ge ds (Z.to_nat (i + 1))) by (unfold len in *; lia).
        rewrite take_ge by (rewrite length_drop; unfold len in *; lia).
        by rewrite app_nil_r.
Qed.

End Numeric.

(** ** The encoder *)

Lemma count_bits_spec (v : Z) (l : ErrorCorrectionLevel) :
  DataEncoder._get_character_count_bits (DataEncoder.__init__ v l)
  = Z.of_nat (spec_count_width v l).
Proof.
  unfold DataEncoder._get_character_count_bits, spec_count_width. simpl.
  destruct (bool_decide_reflect (1 ≤ v ≤ 9)) as [Hv|Hv].
  - rewrite (proj2 (Z.leb_le 1 v)), (proj2 (Z.leb_le v 9)) by lia.
    by destruct l.
  - destruct (Z.leb_spec 1 v), (Z.leb_spec v 9); try done. lia.
Qed.

Lemma length_spec_numeric_groups (ds : list decimal_digit) :
  (length ds ≤ length (spec_numeric_groups ds))%nat.
Proof.
  assert (∀ n ds, (length ds ≤ n)%nat →
            (length ds ≤ length (spec_numeric_groups ds))%nat) as Hn.
  { clear. induction n as [|n IH]; intros ds Hds.
    - destruct ds; simpl in *; lia.
    - destruct ds as [|a [|b [|c rest]]]; cbn [spec_numeric_groups];
        rewrite ?length_app, ?length_be_bits; cbn [length] in *; try lia.
      specialize (IH rest). lia. }
  by apply (Hn (length ds)).
Qed.

Lemma utf8_encode_char_ok (c : Z) :
  scalar_value c = true →
  ∃ bs, utf8_encode_char c = Ok bs ∧ Forall (fun b => 0 ≤ b) bs.
Proof.
  unfold scalar_value, utf8_encode_char. intros Hc.
  assert (0 ≤ c ∧ ¬ (55296 ≤ c ≤ 57343)) as [Hc0 Hsur].
  { revert Hc. zbool. }
  assert (Hlor : ∀ a b, 0 ≤ a → 0 ≤ b → 0 ≤ Z.lor a b).
  { intros. by apply Z.lor_nonneg. }
  assert (Hland : ∀ a, 0 ≤ Z.land a 63).
  { intros. apply Z.land_nonneg. right. lia. }
  assert (Hshift : ∀ n, 0 ≤ Z.shiftr c n).
  { intros. by apply Z.shiftr_nonneg. }
  destruct (c <? 128); [eexists; split; [done|]; repeat constructor; done|].
  destruct (c <? 2048);
    [eexists; split; [done|]; repeat constructor; apply Hlor; auto; lia|].
  destruct (c <? 65536).
  - replace ((55296 <=? c) && (c <=? 57343)) with false by (symmetry; zbool).
    eexists; split; [done|]; repeat constructor; apply Hlor; auto; lia.
  - eexists; split; [done|]; repeat constructor; apply Hlor; auto; lia.
Qed.

Lemma utf8_encode_ok (s : str) :
  forallb scalar_value s = true →
  ∃ bs, utf8_encode s = Ok bs ∧ Forall (fun b => 0 ≤ b) bs.
Proof.
  induction s as [|c s IH]; simpl; intros Hs.
  - exists []. by split.
  - apply andb_true_iff in Hs as [Hc Hs].
    destruct (utf8_encode_char_ok c Hc) as (bs & -> & Hbs).
    destruct (IH Hs) as (rest & -> & Hrest).
    exists (bs ++ rest). split; [done|]. by apply Forall_app.
Qed.

Lemma byte_loop (bytes : list Z) (r : list Z) :
  Forall (fun b => 0 ≤ b) bytes →
  ∃ payload,
    for_ bytes (fun byte result =>
      bits ← DataEncoder._number_to_bits byte 8; Ok (result ++ bits)) r
    = Ok (r ++ payload).
Proof.
  intros Hb. revert r. induction Hb as [|b bytes Hb _ IH]; intros r; simpl.
  - exists []. by rewrite app_nil_r.
  - destruct (number_to_bits_ok b 8 Hb) as (bits & ->). simpl.
    destruct (IH (r ++ bits)) as (payload & ->).
    exists (bits ++ payload). by rewrite app_assoc.
Qed.

Section Encoder.
Context `{UnicodeData}.

Lemma numeric_stream_spec (self : DataEncoder.t) (data : str)
    (ds : list decimal_digit) :
  digits_of data = Some ds →
  DataEncoder.numeric_stream self data
  = (count ← DataEncoder._number_to_bits (len data)
               (DataEncoder._get_character_count_bits self);
     Ok (([0; 0; 0; 1] ++ count) ++ spec_numeric_groups ds ++ [0; 0; 0; 0])).
Proof.
  intros Hds. unfold DataEncoder.numeric_stream.
  destruct (DataEncoder._number_to_bits _ _) as [count| |]; [|done..].
  cbn [mbind outcome_bind].
  rewrite (numeric_loop data ds Hds) by (unfold len; lia).
  cbn [mbind outcome_bind]. change (Z.to_nat 0) with O. rewrite drop_0.
  by rewrite <- app_assoc.
Qed.

Lemma stream_returns (self : DataEncoder.t) (text : str) :
  encodable text = true → ∃ r, stream self text = Ok r.
Proof.
  unfold encodable, stream. destruct (isdigit text).
  - intros [ds Hds]%bool_decide_eq_true.
    rewrite (numeric_stream_spec _ _ _ Hds).
    destruct (number_to_bits_ok (len text)
                (DataEncoder._get_character_count_bits self)) as (count & ->);
      [unfold len; lia|].
    simpl. eauto.
  - intros Hs. unfold DataEncoder.byte_stream.
    destruct (utf8_encode_ok text Hs) as (bs & -> & Hbs).
    cbn [mbind outcome_bind].
    destruct (number_to_bits_ok (len bs)
                (DataEncoder._get_character_count_bits self)) as (count & ->);
      [unfold len; lia|].
    cbn [mbind outcome_bind].
    destruct (byte_loop bs ([0; 1; 0; 0] ++ count) Hbs) as (payload & ->).
    cbn [mbind outcome_bind]. eauto.
Qed.

Lemma encode_stream (self : DataEncoder.t) (text : str) :
  DataEncoder.encode self text = stream self text ≫= DataEncoder.pad_and_cut self.
Proof. unfold DataEncoder.encode, stream. by destruct (isdigit text). Qed.

(** The encoder returns on every encodable text, and what it returns has
    the length of the capacity. *)
Lemma encode_returns (v : Z) (l : ErrorCorrectionLevel) (text : str) :
  encodable text = true →
  ∃ bits, DataEncoder.encode (DataEncoder.__init__ v l) text = Ok bits ∧
    len bits = DataEncoder._get_capacity v l.
Proof.
  intros Htext. rewrite encode_stream.
  destruct (stream_returns (DataEncoder.__init__ v l) text Htext) as (r & ->).
  cbn [mbind outcome_bind].
  pose proof (capacity_range v l) as Hcap.
  destruct (pad_and_cut_spec (DataEncoder.__init__ v l) r) as (k & -> & Hk & _);
    [simpl; lia|].
  eexists. split; [done|]. simpl in *.
  unfold len. rewrite length_take, length_app, length_pads.
  unfold len in Hk. lia.
Qed.

End Encoder.

(** ** Grids and the store *)

Lemma cell_lookup (size : Z) (m : grid) (x y : Z) (row : list bool) :
  grid_wf size m → 0 ≤ x < size → 0 ≤ y < size →
  m !! Z.to_nat y = Some row → row !! Z.to_nat x = Some (cell m x y).
Proof.
  intros Hwf Hx Hy Hrow.
  destruct (grid_wf_row _ _ _ Hwf Hy) as (row' & Hrow' & Hlen).
  assert (row' = row) as -> by congruence.
  destruct (lookup_lt_is_Some_2 row (Z.to_nat x)) as [b Hb]; [lia|].
  rewrite Hb. f_equal. unfold cell, matrix_get.
  rewrite (getitem_in m y row) by (done || lia). simpl.
  by rewrite (getitem_in row x b) by (done || lia).
Qed.

(** Two grids of the same size with the same cells are equal. *)
Lemma grid_ext (size : Z) (m m' : grid) :
  grid_wf size m → grid_wf size m' →
  (∀ x y, 0 ≤ x < size → 0 ≤ y < size → cell m x y = cell m' x y) →
  m = m'.
Proof.
  intros Hm Hm' Hcells. apply list_eq_same_length with (Z.to_nat size);
    [apply Hm'|apply Hm|].
  intros i row row' Hi Hrow Hrow'.
  assert (Hy : 0 ≤ Z.of_nat i < size) by lia.
  destruct (grid_wf_row _ _ _ Hm Hy) as (r & Hr & Hlen).
  destruct (grid_wf_row _ _ _ Hm' Hy) as (r' & Hr' & Hlen').
  rewrite Nat2Z.id in Hr, Hr'.
  assert (r = row) as -> by congruence.
  assert (r' = row') as -> by congruence.
  apply list_eq_same_length with (Z.to_nat size); [done|done|].
  intros j b b' Hj Hb Hb'.
  assert (Hx : 0 ≤ Z.of_nat j < size) by lia.
  pose proof (cell_lookup size m (Z.of_nat j) (Z.of_nat i) row Hm Hx Hy) as E.
  pose proof (cell_lookup size m' (Z.of_nat j) (Z.of_nat i) row' Hm' Hx Hy) as E'.
  rewrite !Nat2Z.id in E, E'. specialize (E Hrow). specialize (E' Hrow').
  rewrite (Hcells _ _ Hx Hy) in E. congruence.
Qed.

Lemma blank_wf (size : Z) : grid_wf size (MatrixConstructor.blank size).
Proof.
  unfold MatrixConstructor.blank, range. split.
  - rewrite length_fmap, length_seqZ. lia.
  - apply Forall_fmap, Forall_forall. intros i _. simpl.
    by rewrite length_replicate.
Qed.

Lemma constructor_init_ok (v : Z) (σ : store) :
  1 ≤ v →
  constructor_ok (MatrixConstructor.__init__ v σ).1
                 (MatrixConstructor.__init__ v σ).2.
Proof.
  intros Hv. unfold MatrixConstructor.__init__, constructor_ok. simpl.
  split; [done|]. split; [done|]. eexists. split; [apply lookup_insert_eq|].
  apply blank_wf.
Qed.

Lemma instance_init_ok (v : Z) (l : ErrorCorrectionLevel) (σ : store) :
  1 ≤ v → instance_ok (QRCode.__init__ v l σ).1 (QRCode.__init__ v l σ).2.
Proof.
  intros Hv. unfold QRCode.__init__.
  pose proof (constructor_init_ok v σ Hv) as Hmc.
  destruct (MatrixConstructor.__init__ v σ) as [mc σ']. by split.
Qed.

(** What [build_matrix] does to the store: the grid of the constructor is
    replaced by the grid the seven steps produce, and the reference to it
    is returned. *)
Lemma build_matrix_spec (mc : MatrixConstructor.t) (data : list Z) (σ : store) :
  constructor_ok mc σ →
  ∃ m m',
    σ !! MatrixConstructor.matrix mc = Some m ∧
    MatrixConstructor.build_steps mc data m = Ok m' ∧
    MatrixConstructor.build_matrix mc data σ
    = Ok (MatrixConstructor.matrix mc, <[MatrixConstructor.matrix mc := m']> σ) ∧
    grid_wf (MatrixConstructor.size mc) m ∧
    grid_wf (MatrixConstructor.size mc) m' ∧
    ∀ x y, 0 ≤ x < MatrixConstructor.size mc →
           0 ≤ y < MatrixConstructor.size mc →
           cell m' x y = build_step mc data x y (cell m x y).
Proof.
  intros (Hv & Hsize & m & Hm & Hwf).
  destruct (build_steps_acts mc Hv Hsize data m Hwf) as (m' & E & Hwf' & Hc).
  exists m, m'. unfold MatrixConstructor.build_matrix. rewrite Hm, E.
  repeat (split; [done|]). done.
Qed.

Section Generate.
Context `{UnicodeData}.

Lemma generate_spec (q : QRCode.t) (text : str) (σ : store) :
  instance_ok q σ → encodable text = true →
  let mc := QRCode.matrix_constructor q in
  ∃ bits m m',
    DataEncoder.encode (QRCode.encoder q) text = Ok bits ∧
    σ !! MatrixConstructor.matrix mc = Some m ∧
    QRCode.generate q text σ
    = Ok (MatrixConstructor.matrix mc, <[MatrixConstructor.matrix mc := m']> σ) ∧
    grid_wf (MatrixConstructor.size mc) m' ∧
    (let data := ReedSolomon.encode (QRCode.error_corrector q) bits
                   (QRCode.version q) (QRCode.error_correction q) in
     MatrixConstructor.build_steps mc data m = Ok m' ∧
     ∀ x y, 0 ≤ x < MatrixConstructor.size mc →
            0 ≤ y < MatrixConstructor.size mc →
            cell m' x y = build_step mc data x y (cell m x y)).
Proof.
  intros [Henc Hmc] Htext mc.
  destruct (encode_returns (QRCode.version q) (QRCode.error_correction q)
              text Htext) as (bits & Ebits & _).
  rewrite <- Henc in Ebits.
  destruct (build_matrix_spec mc
              (ReedSolomon.encode (QRCode.error_corrector q) bits
                 (QRCode.version q) (QRCode.error_correction q)) σ Hmc)
    as (m & m' & Hm & Esteps & Ebuild & Hwf & Hwf' & Hc).
  exists bits, m, m'. unfold QRCode.generate. rewrite Ebits.
  cbn [mbind outcome_bind]. repeat (split; [done|]). done.
Qed.

Lemma generate_keeps_ok (q : QRCode.t) (text : str) (σ σ' : store) (r : loc) :
  instance_ok q σ → encodable text = true →
  QRCode.generate q text σ = Ok (r, σ') → instance_ok q σ'.
Proof.
  intros Hq Htext E.
  destruct (generate_spec q text σ Hq Htext)
    as (bits & m & m' & _ & _ & E' & Hwf' & _).
  rewrite E' in E. injection E as <- <-.
  destruct Hq as [Henc (Hv & Hsize & _)]. split; [done|].
  split; [done|]. split; [done|]. exists m'. split; [|done].
  apply lookup_insert_eq.
Qed.

End Generate.

(** ** Cells of the final grid *)

Section Cells.
Import MatrixConstructor.
Variable mc : MatrixConstructor.t.
Variable data : list Z.
Hypothesis version_pos : 1 ≤ version mc.
Hypothesis size_eq : size mc = (version mc - 1) * 4 + 21.

Lemma function_pattern_finder (x y : Z) :
  x < 7 ∧ y < 7 ∨ x > size mc - 8 ∧ y < 7 ∨ x < 7 ∧ y > size mc - 8 →
  _is_function_pattern mc x y = true.
Proof. unfold _is_function_pattern. intros Hxy. zbool. Qed.

Lemma function_pattern_dark_module :
  _is_function_pattern mc 8 (4 * version mc + 9) = true.
Proof. unfold _is_function_pattern. rewrite size_eq. zbool. Qed.

Ltac unfold_steps :=
  unfold build_step, mask_step, data_step, format_step, dark_module_step,
    timing_step, alignment_step, alignment_origin, finder_step, stamp,
    in_block, format_cell.

Lemma build_step_finder_top_left (i j : Z) (b : bool) :
  0 ≤ i < 7 → 0 ≤ j < 7 → build_step mc data i j b = finder_dark i j.
Proof.
  intros Hi Hj. unfold_steps.
  rewrite function_pattern_finder by lia. cbn [negb andb].
  destruct (version mc =? 1), (version mc <=? 6);
    repeat (case_bool_decide; try lia); done.
Qed.

Lemma build_step_finder_top_right (i j : Z) (b : bool) :
  0 ≤ i < 7 → 0 ≤ j < 7 →
  build_step mc data (size mc - 7 + i) j b = finder_dark i j.
Proof.
  intros Hi Hj. unfold_steps.
  rewrite function_pattern_finder by lia. cbn [negb andb].
  destruct (version mc =? 1), (version mc <=? 6);
    repeat (case_bool_decide; try lia); f_equal; lia.
Qed.

Lemma build_step_finder_bottom_left (i j : Z) (b : bool) :
  0 ≤ i < 7 → 0 ≤ j < 7 →
  build_step mc data i (size mc - 7 + j) b = finder_dark i j.
Proof.
  intros Hi Hj. unfold_steps.
  rewrite function_pattern_finder by lia. cbn [negb andb].
  destruct (version mc =? 1), (version mc <=? 6);
    repeat (case_bool_decide; try lia); f_equal; lia.
Qed.

Lemma build_step_dark_module (b : bool) :
  build_step mc data 8 (4 * version mc + 9) b = true.
Proof.
  unfold_steps. rewrite function_pattern_dark_module. cbn [negb andb].
  destruct (version mc =? 1), (version mc <=? 6);
    repeat (case_bool_decide; try lia); done.
Qed.

End Cells.

Lemma getitem_nonneg_inv {A : Type} (l : list A) (i : Z) (a : A) :
  0 ≤ i → getitem l i = Ok a → i < len l ∧ l !! Z.to_nat i = Some a.
Proof.
  intros Hi. unfold getitem, py_index, len.
  destruct (decide (0 ≤ i < Z.of_nat (length l))) as [Hin|Hout].
  - simpl. destruct (l !! Z.to_nat i) eqn:E; [|done]. intros [= ->].
    split; [lia|done].
  - rewrite decide_False by lia. done.
Qed.

Lemma build_steps_same_geometry (v s : Z) (l1 l2 : loc) (data : list Z)
    (m : grid) :
  MatrixConstructor.build_steps
    {| MatrixConstructor.version := v; MatrixConstructor.size := s;
       MatrixConstructor.matrix := l1 |} data m
  = MatrixConstructor.build_steps
      {| MatrixConstructor.version := v; MatrixConstructor.size := s;
         MatrixConstructor.matrix := l2 |} data m.
Proof. reflexivity. Qed.

(** ** Where generate returns and where it raises *)

Section Totality.
Context `{UnicodeData}.

(** On a fresh instance of a positive version, [generate] returns on
    every encodable text. *)
Lemma generate_returns (v : Z) (l : ErrorCorrectionLevel) (text : str)
    (σ : store) :
  1 ≤ v → encodable text = true →
  ∃ r σ', QRCode.generate (QRCode.__init__ v l σ).1 text
            (QRCode.__init__ v l σ).2 = Ok (r, σ').
Proof.
  intros Hv Htext.
  destruct (generate_spec _ text _ (instance_init_ok v l σ Hv) Htext)
    as (_ & _ & m' & _ & _ & E & _).
  eauto.
Qed.

(** A one-character text whose character is a digit without a decimal
    value is sent to numeric mode, where its conversion raises. *)
Lemma encode_raises_on_non_decimal_digit (self : DataEncoder.t) (c : Z) :
  is_digit c = true → to_decimal c = None →
  DataEncoder.encode self [c] = Raise ValueError.
Proof.
  intros Hdigit Hdec. unfold DataEncoder.encode, isdigit. cbn [forallb].
  rewrite Hdigit. cbn [andb].
  unfold DataEncoder._encode_numeric, DataEncoder.numeric_stream.
  destruct (number_to_bits_ok (len [c])
              (DataEncoder._get_character_count_bits self)) as (count & ->);
    [done|].
  cbn [mbind outcome_bind length while_ fst]. change (len [c]) with 1.
  change (0 <? 1) with true. cbv beta iota.
  unfold DataEncoder.numeric_group. change (len [c]) with 1.
  change (0 + 3 <=? 1) with false. change (0 + 2 <=? 1) with false.
  cbv beta iota. change (getitem [c] 0) with (Ok c).
  cbn [mbind outcome_bind]. unfold int. cbn [mapM]. by rewrite Hdec.
Qed.

End Totality.

(** ** Two calls on one instance *)

(** Running the seven steps a second time changes nothing at a cell that
    is reserved or that receives a bit. *)
Lemma build_step_idempotent (mc : MatrixConstructor.t) (data : list Z)
    (x y : Z) (b : bool) :
  MatrixConstructor._is_function_pattern mc x y = true
  ∨ bit_index_of mc x y < len data →
  build_step mc data x y (build_step mc data x y b) = build_step mc data x y b.
Proof.
  intros Hxy. unfold build_step, mask_step, data_step.
  destruct (MatrixConstructor._is_function_pattern mc x y) eqn:Efp.
  - cbn [negb andb].
    unfold format_step, dark_module_step, timing_step, alignment_step,
      finder_step, stamp.
    destruct (format_cell x y); [done|].
    destruct (bool_decide _); [done|].
    destruct (bool_decide _); [done|].
    destruct (bool_decide _); [done|].
    destruct (_ =? 1).
    + destruct (in_block _ _ _ _ _); [done|].
      destruct (in_block _ _ _ _ _); [done|].
      by destruct (in_block _ _ _ _ _).
    + destruct (in_block _ _ _ _ _); [done|].
      destruct (in_block _ _ _ _ _); [done|].
      destruct (in_block _ _ _ _ _); [done|].
      by destruct (in_block _ _ _ _ _).
  - destruct Hxy as [|Hlt]; [done|].
    by rewrite (proj2 (Z.ltb_lt _ _) Hlt).
Qed.

(** On one instance, the grid after a second call for the same text
    agrees with the grid after the first on every reserved cell and on
    every cell that receives a bit; the two calls return one reference. *)
Lemma generate_twice_agrees `{UnicodeData} (q : QRCode.t) (text : str)
    (σ : store) :
  instance_ok q σ → encodable text = true →
  let mc := QRCode.matrix_constructor q in
  ∃ r σ1 σ2 g1 g2 bits,
    QRCode.generate q text σ = Ok (r, σ1) ∧
    QRCode.generate q text σ1 = Ok (r, σ2) ∧
    σ1 !! r = Some g1 ∧ σ2 !! r = Some g2 ∧
    DataEncoder.encode (QRCode.encoder q) text = Ok bits ∧
    ∀ x y, 0 ≤ x < MatrixConstructor.size mc →
           0 ≤ y < MatrixConstructor.size mc →
      MatrixConstructor._is_function_pattern mc x y = true
      ∨ bit_index_of mc x y
        < len (ReedSolomon.encode (QRCode.error_corrector q) bits
                 (QRCode.version q) (QRCode.error_correction q)) →
      matrix_get g2 y x = matrix_get g1 y x.
Proof.
  intros Hq Htext mc.
  destruct (generate_spec q text σ Hq Htext)
    as (bits & m & g1 & Ebits & Hm & E1 & Hwf1 & _ & Hc1).
  pose proof (generate_keeps_ok q text σ _ _ Hq Htext E1) as Hq1.
  destruct (generate_spec q text _ Hq1 Htext)
    as (bits' & m1 & g2 & Ebits' & Hm1 & E2 & Hwf2 & _ & Hc2).
  fold mc in Hm, E1, Hwf1, Hc1, Hm1, E2, Hwf2, Hc2.
  rewrite lookup_insert_eq in Hm1. injection Hm1 as <-.
  assert (bits' = bits) as -> by congruence.
  eexists _, _, _, g1, g2, bits. split; [exact E1|]. split; [exact E2|].
  split; [apply lookup_insert_eq|]. split; [apply lookup_insert_eq|].
  split; [done|]. intros x y Hx Hy Hxy.
  rewrite !(matrix_get_in (MatrixConstructor.size mc)) by done.
  rewrite Hc2, Hc1 by done. by rewrite build_step_idempotent.
Qed.

(** * The claims *)

(** ** C1: successive calls of generate *)

(** C1 as stated fails: two successive calls [generate("1")] on one
    version-1 instance return the same reference, and the grid it denotes
    after the second call differs from the grid it denoted after the
    first, for instance at row 9, column 15. *)
Lemma second_generate_differs :
  ∃ r1 σ1 r2 σ2 g1 g2,
    QRCode.generate demo_instance text_1 demo_store = Ok (r1, σ1) ∧
    QRCode.generate demo_instance text_1 σ1 = Ok (r2, σ2) ∧
    r1 = r2 ∧
    σ1 !! r1 = Some g1 ∧ σ2 !! r2 = Some g2 ∧
    matrix_get g1 9 15 = Ok true ∧ matrix_get g2 9 15 = Ok false ∧
    g1 ≠ g2.
Proof.
  eexists _, _, _, _, _, _.
  split; [vm_compute; reflexivity|]. split; [vm_compute; reflexivity|].
  split; [reflexivity|]. split; [vm_compute; reflexivity|].
  split; [vm_compute; reflexivity|].
  split; [vm_compute; reflexivity|]. split; [vm_compute; reflexivity|].
  intros Heq. apply (f_equal (fun g => matrix_get g 9 15)) in Heq.
  vm_compute in Heq. discriminate.
Qed.

(** C1, as the code has it: the grid is allocated by the constructor, not
    by [generate], and every call on an instance mutates and returns that
    one grid. Two instances constructed one after the other with the same
    positive version and level own distinct grids; [generate] on each, for
    the same text, returns distinct references to grids with equal
    contents, the call on the second instance leaving the grid of the
    first untouched. A later call on the first instance returns the
    reference its first call returned, and the contents then agree with
    the earlier ones on every reserved cell and on every cell that
    receives a bit. *)
Theorem generate_shares_grid_per_instance `{UnicodeData} (v : Z)
    (l : ErrorCorrectionLevel) (text : str) (σ : store) :
  1 ≤ v → encodable text = true →
  let q1 := (QRCode.__init__ v l σ).1 in
  let q2 := (QRCode.__init__ v l (QRCode.__init__ v l σ).2).1 in
  let σ2 := (QRCode.__init__ v l (QRCode.__init__ v l σ).2).2 in
  let mc := QRCode.matrix_constructor q1 in
  ∃ r1 r2 σ3 σ4 σ5 g g' bits,
    QRCode.generate q1 text σ2 = Ok (r1, σ3) ∧
    QRCode.generate q2 text σ3 = Ok (r2, σ4) ∧
    r1 ≠ r2 ∧
    σ3 !! r1 = Some g ∧ σ4 !! r2 = Some g ∧ σ4 !! r1 = Some g ∧
    QRCode.generate q1 text σ4 = Ok (r1, σ5) ∧ σ5 !! r1 = Some g' ∧
    DataEncoder.encode (QRCode.encoder q1) text = Ok bits ∧
    ∀ x y, 0 ≤ x < MatrixConstructor.size mc →
           0 ≤ y < MatrixConstructor.size mc →
      MatrixConstructor._is_function_pattern mc x y = true
      ∨ bit_index_of mc x y < len (ReedSolomon.encode ReedSolomon.new bits v l) →
      matrix_get g' y x = matrix_get g y x.
Proof.
  intros Hv Htext. cbv zeta.
  unfold QRCode.__init__, MatrixConstructor.__init__. cbn [fst snd].
  set (s := (v - 1) * 4 + 21).
  set (l1 := fresh (dom σ)).
  set (σ1 := <[l1 := MatrixConstructor.blank s]> σ).
  set (l2 := fresh (dom σ1)).
  set (σ2 := <[l2 := MatrixConstructor.blank s]> σ1).
  set (mc1 := {| MatrixConstructor.version := v; MatrixConstructor.size := s;
                 MatrixConstructor.matrix := l1 |}).
  set (mc2 := {| MatrixConstructor.version := v; MatrixConstructor.size := s;
                 MatrixConstructor.matrix := l2 |}).
  set (q1 := {| QRCode.version := v; QRCode.matrix_constructor := mc1 |}).
  set (q2 := {| QRCode.version := v; QRCode.matrix_constructor := mc2 |}).
  assert (Hl : l1 ≠ l2).
  { intros Heq. apply (is_fresh (dom σ1)). fold l2. rewrite <- Heq.
    unfold σ1. rewrite dom_insert_L. set_solver. }
  assert (H1 : σ2 !! l1 = Some (MatrixConstructor.blank s)).
  { unfold σ2. rewrite lookup_insert_ne by done. apply lookup_insert_eq. }
  assert (Hq1 : instance_ok q1 σ2).
  { split; [done|]. split; [done|]. split; [done|].
    exists (MatrixConstructor.blank s). split; [done|apply blank_wf]. }
  destruct (generate_spec q1 text σ2 Hq1 Htext)
    as (bits & m1 & g1 & Ebits & Hm1 & E1 & Hwf1 & Esteps1 & Hc1).
  cbn [QRCode.matrix_constructor q1 MatrixConstructor.matrix mc1] in Hm1, E1.
  assert (m1 = MatrixConstructor.blank s) as -> by congruence.
  set (σ3 := <[l1 := g1]> σ2) in *.
  assert (Hq2 : instance_ok q2 σ3).
  { split; [done|]. split; [done|]. split; [done|].
    exists (MatrixConstructor.blank s). split; [|apply blank_wf].
    unfold σ3, σ2. rewrite lookup_insert_ne by done. apply lookup_insert_eq. }
  destruct (generate_spec q2 text σ3 Hq2 Htext)
    as (bits' & m2 & g2 & Ebits' & Hm2 & E2 & Hwf2 & Esteps2 & _).
  cbn [QRCode.matrix_constructor q2 MatrixConstructor.matrix mc2] in Hm2, E2.
  assert (m2 = MatrixConstructor.blank s) as ->.
  { unfold σ3, σ2 in Hm2. rewrite lookup_insert_ne in Hm2 by done.
    rewrite lookup_insert_eq in Hm2. congruence. }
  assert (bits' = bits) as -> by (cbn in Ebits, Ebits'; congruence).
  assert (Ok g2 = Ok g1 :> outcome grid) as [= ->].
  { rewrite <- Esteps1, <- Esteps2.
    apply (build_steps_same_geometry v s l2 l1). }
  set (σ4 := <[l2 := g1]> σ3) in *.
  assert (H4 : σ4 !! l1 = Some g1).
  { unfold σ4, σ3. rewrite lookup_insert_ne by done. apply lookup_insert_eq. }
  assert (Hq1' : instance_ok q1 σ4).
  { split; [done|]. split; [done|]. split; [done|]. by exists g1. }
  destruct (generate_spec q1 text σ4 Hq1' Htext)
    as (bits3 & m3 & g3 & Ebits3 & Hm3 & E3 & Hwf3 & _ & Hc3).
  cbn [QRCode.matrix_constructor q1 MatrixConstructor.matrix mc1] in Hm3, E3.
  assert (m3 = g1) as -> by congruence.
  assert (bits3 = bits) as -> by congruence.
  exists l1, l2, σ3, σ4, (<[l1 := g3]> σ4), g1, g3, bits.
  split; [exact E1|]. split; [exact E2|]. split; [done|].
  split; [apply lookup_insert_eq|]. split; [apply lookup_insert_eq|].
  split; [done|]. split; [exact E3|]. split; [apply lookup_insert_eq|].
  split; [exact Ebits|]. intros x y Hx Hy Hxy.
  rewrite !(matrix_get_in s) by done.
  rewrite Hc3, Hc1 by done. f_equal. by apply build_step_idempotent.
Qed.

Lemma generate_shares_grid_per_instance_witness :
  1 ≤ 1 ∧ encodable text_1 = true ∧
  ∃ r1 r2 σ3 σ4 σ5 g g' bits,
    QRCode.generate (QRCode.__init__ 1 M ∅).1 text_1
      (QRCode.__init__ 1 M (QRCode.__init__ 1 M ∅).2).2 = Ok (r1, σ3) ∧
    QRCode.generate (QRCode.__init__ 1 M (QRCode.__init__ 1 M ∅).2).1 text_1 σ3
      = Ok (r2, σ4) ∧
    r1 ≠ r2 ∧
    σ3 !! r1 = Some g ∧ σ4 !! r2 = Some g ∧ σ4 !! r1 = Some g ∧
    QRCode.generate (QRCode.__init__ 1 M ∅).1 text_1 σ4 = Ok (r1, σ5) ∧
    σ5 !! r1 = Some g' ∧
    DataEncoder.encode (QRCode.encoder (QRCode.__init__ 1 M ∅).1) text_1
    = Ok bits ∧
    ∀ x y, 0 ≤ x < 21 → 0 ≤ y < 21 →
      MatrixConstructor._is_function_pattern
        (QRCode.matrix_constructor (QRCode.__init__ 1 M ∅).1) x y = true
      ∨ bit_index_of (QRCode.matrix_constructor (QRCode.__init__ 1 M ∅).1) x y
        < len (ReedSolomon.encode ReedSolomon.new bits 1 M) →
      matrix_get g' y x = matrix_get g y x.
Proof.
  split; [lia|]. split; [reflexivity|].
  apply (generate_shares_grid_per_instance 1 M text_1 ∅); [lia|reflexivity].
Defined.

(** ** C2: the format-information step *)

(** C2: the step writes row 8 at columns 0 to 5 and, twice, at column 7,
    and column 8 at rows 6 to 0: fourteen cells, all set to light. The
    fifteenth cell of the claim, row 8, column 8, is never written: on a
    grid where it is dark it is still dark after the step. *)
Theorem format_info_skips_row8_col8 :
  matrix_get grid_dark_at_8_8 8 8 = Ok true ∧
  ∃ m', MatrixConstructor._add_format_info v1_constructor grid_dark_at_8_8
        = Ok m' ∧
        matrix_get m' 8 8 = Ok true ∧
        (∀ x, x ∈ [0; 1; 2; 3; 4; 5; 7] → matrix_get m' 8 x = Ok false) ∧
        (∀ y, y ∈ [0; 1; 2; 3; 4; 5; 6] → matrix_get m' y 8 = Ok false).
Proof.
  split; [reflexivity|]. eexists. split; [vm_compute; reflexivity|].
  split; [reflexivity|]. split.
  - intros x Hx. repeat (apply elem_of_cons in Hx as [->|Hx]; [reflexivity|]).
    by apply elem_of_nil in Hx.
  - intros y Hy. repeat (apply elem_of_cons in Hy as [->|Hy]; [reflexivity|]).
    by apply elem_of_nil in Hy.
Qed.

(** ** C3: exceptions *)

(** C3: with the Latin-1 part of the character database, the text "²"
    (U+00B2) passes [isdigit], so the encoder takes numeric mode, where
    [int] rejects the character: [generate] raises ValueError. *)
Theorem generate_raises_on_superscript_two :
  isdigit text_superscript_two = true ∧
  QRCode.generate demo_instance text_superscript_two demo_store
  = Raise ValueError.
Proof. split; reflexivity. Qed.

(** ** C4: data placement *)

(** C4 as stated fails: at version 2, level M and the text "1", the cell
    (16, 16) on the ring of the alignment pattern is outside the function
    patterns and receives no bit, and it is dark when the step finishes. *)
Lemma add_data_leaves_alignment_ring_dark :
  ∃ bits m5 m6,
    DataEncoder.encode (DataEncoder.__init__ 2 M) text_1 = Ok bits ∧
    patterns_only v2_constructor (MatrixConstructor.blank 25) = Ok m5 ∧
    MatrixConstructor._add_data v2_constructor
      (ReedSolomon.encode ReedSolomon.new bits 2 M) m5 = Ok m6 ∧
    MatrixConstructor._is_function_pattern v2_constructor 16 16 = false ∧
    len (ReedSolomon.encode ReedSolomon.new bits 2 M)
      ≤ bit_index_of v2_constructor 16 16 ∧
    matrix_get m6 16 16 = Ok true.
Proof.
  eexists _, _, _.
  split; [vm_compute; reflexivity|]. split; [vm_compute; reflexivity|].
  split; [vm_compute; reflexivity|]. split; [reflexivity|].
  split; [vm_compute; discriminate|]. vm_compute. reflexivity.
Qed.

(** C4, as the code has it: on every grid the data-placement step scans
    row-major and assigns bits only to cells outside the function patterns,
    the cell with [bit_index_of] k receiving bit k as long as bits remain;
    every other cell, reserved or not, keeps the value it had before the
    step. *)
Theorem add_data_places_bits (self : MatrixConstructor.t) (data : list Z)
    (m : grid) :
  grid_wf (MatrixConstructor.size self) m →
  ∃ m', MatrixConstructor._add_data self data m = Ok m' ∧
    ∀ x y, 0 ≤ x < MatrixConstructor.size self →
           0 ≤ y < MatrixConstructor.size self →
      (MatrixConstructor._is_function_pattern self x y = true →
       matrix_get m' y x = matrix_get m y x) ∧
      (MatrixConstructor._is_function_pattern self x y = false →
       ∀ bit, getitem data (bit_index_of self x y) = Ok bit →
         matrix_get m' y x = Ok (bool_of_int bit)) ∧
      (MatrixConstructor._is_function_pattern self x y = false →
       len data ≤ bit_index_of self x y →
       matrix_get m' y x = matrix_get m y x).
Proof.
  intros Hm. destruct (add_data_acts self data m Hm) as (m' & E & Hm' & Hc).
  exists m'. split; [done|]. intros x y Hx Hy.
  rewrite !(matrix_get_in (MatrixConstructor.size self)) by done.
  rewrite Hc by done. unfold data_step.
  pose proof (bits_before_nonneg (reserved self)
    (scan_order (MatrixConstructor.size self)) (y, x)) as Hidx.
  fold (bit_index_of self x y) in Hidx.
  split; [by intros ->|]. split.
  - intros -> bit [Hlt Hbit]%getitem_nonneg_inv; [|done].
    rewrite (proj2 (Z.ltb_lt _ _)) by done. simpl. by rewrite Hbit.
  - intros -> Hge. by rewrite (proj2 (Z.ltb_ge _ _)) by done.
Qed.

Lemma add_data_places_bits_witness :
  grid_wf (MatrixConstructor.size v1_constructor) (MatrixConstructor.blank 21) ∧
  ∃ m', MatrixConstructor._add_data v1_constructor [1; 0; 1]
          (MatrixConstructor.blank 21) = Ok m' ∧
    ∀ x y, 0 ≤ x < MatrixConstructor.size v1_constructor →
           0 ≤ y < MatrixConstructor.size v1_constructor →
      (MatrixConstructor._is_function_pattern v1_constructor x y = true →
       matrix_get m' y x = matrix_get (MatrixConstructor.blank 21) y x) ∧
      (MatrixConstructor._is_function_pattern v1_constructor x y = false →
       ∀ bit, getitem [1; 0; 1] (bit_index_of v1_constructor x y) = Ok bit →
         matrix_get m' y x = Ok (bool_of_int bit)) ∧
      (MatrixConstructor._is_function_pattern v1_constructor x y = false →
       len [1; 0; 1] ≤ bit_index_of v1_constructor x y →
       matrix_get m' y x = matrix_get (MatrixConstructor.blank 21) y x).
Proof.
  split; [split; [reflexivity|vm_compute; repeat constructor]|].
  apply (add_data_places_bits v1_constructor [1; 0; 1]).
  split; [reflexivity|vm_compute; repeat constructor].
Defined.

(** ** C5 and C6: the encoder *)

(** C5: for every text, version and level, whatever the encoder returns is
    the stream built so far followed by the least number of [11101100]
    blocks that reaches the capacity, cut to the capacity, and its length
    is exactly the capacity, in numeric and in byte mode; and the encoder
    does return on every text it accepts. *)
Theorem encode_length_is_capacity `{UnicodeData} (v : Z)
    (l : ErrorCorrectionLevel) (text : str) :
  let self := DataEncoder.__init__ v l in
  let capacity := DataEncoder._get_capacity v l in
  (∀ bits, DataEncoder.encode self text = Ok bits →
     len bits = capacity ∧
     ∃ (r : list Z) (k : nat),
       stream self text = Ok r ∧
       bits = take (Z.to_nat capacity)
                (r ++ concat (replicate k DataEncoder.pad_block)) ∧
       (k = O ∨ len r + 8 * (Z.of_nat k - 1) < capacity)) ∧
  (encodable text = true → ∃ bits, DataEncoder.encode self text = Ok bits).
Proof.
  intros self capacity. pose proof (capacity_range v l) as Hcap. split.
  - intros bits. rewrite encode_stream.
    intros (r & Er & Ebits)%bind_Ok_inv.
    destruct (pad_and_cut_spec self r) as (k & E & Hk & Hmin); [simpl; lia|].
    change (DataEncoder.capacity self) with capacity in *.
    rewrite E in Ebits. injection Ebits as <-. split.
    + unfold len. rewrite length_take, length_app, length_pads.
      unfold len in Hk. lia.
    + by exists r, k.
  - intros Htext.
    destruct (encode_returns v l text Htext) as (bits & E & _). by exists bits.
Qed.

Lemma encode_length_is_capacity_witness :
  encodable text_HELLO = true ∧
  ∃ bits,
    DataEncoder.encode (DataEncoder.__init__ 1 M) text_HELLO = Ok bits ∧
    len bits = DataEncoder._get_capacity 1 M.
Proof.
  split; [reflexivity|].
  destruct (encode_length_is_capacity 1 M text_HELLO) as [Hlen Hret].
  destruct (Hret eq_refl) as [bits E].
  exists bits. split; [exact E|]. exact (proj1 (Hlen bits E)).
Defined.

(** C6: for a string of decimal digits whose header and payload fit in the
    capacity, the encoder output begins with the mode indicator 0001, then
    the character count on 10 bits (versions 1 to 9, levels L and M), 8 bits
    (versions 1 to 9, levels Q and H) or 12 bits (other versions), then the
    digits in groups of three on 10 bits, a final pair on 7 bits or a final
    single digit on 4 bits. *)
Theorem numeric_mode_layout `{UnicodeData} (v : Z) (l : ErrorCorrectionLevel)
    (s : str) (ds : list decimal_digit) :
  isdigit s = true →
  digits_of s = Some ds →
  4 + Z.of_nat (spec_count_width v l) + len (spec_numeric_groups ds)
    ≤ DataEncoder._get_capacity v l →
  ∃ rest,
    DataEncoder.encode (DataEncoder.__init__ v l) s
    = Ok ([0; 0; 0; 1] ++ be_bits (spec_count_width v l) (len s)
            ++ spec_numeric_groups ds ++ rest) ∧
    bits_value (be_bits (spec_count_width v l) (len s)) = len s.
Proof.
  intros Hdigit Hds Hfit.
  pose proof (capacity_range v l) as Hcap.
  pose proof (length_spec_numeric_groups ds) as Hgroups.
  pose proof (digits_of_length _ _ Hds) as Hlen.
  assert (Hw : 8 ≤ Z.of_nat (spec_count_width v l)).
  { unfold spec_count_width. case_bool_decide; [destruct l|]; simpl; lia. }
  assert (Hcount : 0 ≤ len s < 2 ^ Z.of_nat (spec_count_width v l)).
  { unfold len in *. split; [lia|].
    apply Z.lt_le_trans with (2 ^ 8); [change (2 ^ 8) with 256; lia|].
    apply Z.pow_le_mono_r; lia. }
  unfold DataEncoder.encode. rewrite Hdigit.
  unfold DataEncoder._encode_numeric.
  rewrite (numeric_stream_spec _ _ _ Hds), count_bits_spec.
  rewrite number_to_bits_be by lia. rewrite Nat2Z.id.
  cbn [mbind outcome_bind].
  destruct (pad_and_cut_spec (DataEncoder.__init__ v l)
              (([0; 0; 0; 1] ++ be_bits (spec_count_width v l) (len s))
               ++ spec_numeric_groups ds ++ [0; 0; 0; 0]))
    as (k & -> & _ & _); [simpl; lia|].
  cbn [DataEncoder.capacity DataEncoder.__init__].
  set (head := [0; 0; 0; 1] ++ be_bits (spec_count_width v l) (len s)
                 ++ spec_numeric_groups ds).
  exists (take (Z.to_nat (DataEncoder._get_capacity v l) - length head)
            ([0; 0; 0; 0] ++ concat (replicate k DataEncoder.pad_block))).
  split; [|by apply bits_value_be_bits].
  f_equal.
  replace ((([0; 0; 0; 1] ++ be_bits (spec_count_width v l) (len s))
            ++ spec_numeric_groups ds ++ [0; 0; 0; 0])
           ++ concat (replicate k DataEncoder.pad_block))
    with (head ++ [0; 0; 0; 0] ++ concat (replicate k DataEncoder.pad_block))
    by (unfold head; by rewrite <- !app_assoc).
  rewrite take_app_ge by
    (unfold head; rewrite !length_app, length_be_bits;
     unfold len in Hfit; simpl; lia).
  unfold head. by rewrite <- !app_assoc.
Qed.

Lemma numeric_mode_layout_witness :
  isdigit text_12345 = true ∧
  digits_of text_12345 = Some [D1; D2; D3; D4; D5] ∧
  4 + Z.of_nat (spec_count_width 1 M)
    + len (spec_numeric_groups [D1; D2; D3; D4; D5])
    ≤ DataEncoder._get_capacity 1 M ∧
  ∃ rest,
    DataEncoder.encode (DataEncoder.__init__ 1 M) text_12345
    = Ok ([0; 0; 0; 1] ++ be_bits (spec_count_width 1 M) (len text_12345)
            ++ spec_numeric_groups [D1; D2; D3; D4; D5] ++ rest) ∧
    bits_value (be_bits (spec_count_width 1 M) (len text_12345))
    = len text_12345.
Proof.
  split; [reflexivity|]. split; [reflexivity|].
  split; [vm_compute; discriminate|].
  apply (numeric_mode_layout 1 M text_12345 [D1; D2; D3; D4; D5]).
  - reflexivity.
  - reflexivity.
  - vm_compute. discriminate.
Defined.

(** ** C7: the redundancy stage *)

(** C7: the redundancy stage returns its input followed by the first
    min(10, len) elements of the input; the result has len + min(10, len)
    elements and its last min(10, len) elements are the first
    min(10, len) elements of the input. *)
Theorem reed_solomon_repeats_prefix (self : ReedSolomon.t) (bits : list Z)
    (version : Z) (level : ErrorCorrectionLevel) :
  let k := Nat.min 10 (length bits) in
  let out := ReedSolomon.encode self bits version level in
  out = bits ++ take k bits ∧
  length out = (length bits + k)%nat ∧
  drop (length out - k) out = take k bits.
Proof.
  intros k out.
  assert (Hout : out = bits ++ take k bits).
  { unfold out, ReedSolomon.encode. rewrite slice_prefix by lia.
    change (Z.to_nat 10) with 10%nat. f_equal. unfold k.
    destruct (Nat.le_ge_cases 10 (length bits)).
    - by rewrite Nat.min_l.
    - rewrite Nat.min_r by done. by rewrite !take_ge by lia. }
  assert (Hk : length (take k bits) = k).
  { rewrite length_take. unfold k. lia. }
  split; [done|]. rewrite Hout, length_app, Hk. split; [done|].
  replace (length bits + k - k)%nat with (length bits) by lia.
  by rewrite drop_app_length.
Qed.

(** ** C8: the finder patterns of the final grid *)

(** C8: in the grid [generate] returns, each of the three 7x7 finder
    blocks, anchored at (0,0), (size-7,0) and (0,size-7), has a cell dark
    exactly when its row or column index within the block is 0 or 6, or
    both indices lie in 2..4. *)
Theorem generate_finder_patterns `{UnicodeData} (q : QRCode.t) (text : str)
    (σ : store) :
  instance_ok q σ → encodable text = true →
  let size := MatrixConstructor.size (QRCode.matrix_constructor q) in
  ∃ r σ' g,
    QRCode.generate q text σ = Ok (r, σ') ∧ σ' !! r = Some g ∧
    ∀ i j, 0 ≤ i < 7 → 0 ≤ j < 7 →
      matrix_get g j i = Ok (finder_dark i j) ∧
      matrix_get g j (size - 7 + i) = Ok (finder_dark i j) ∧
      matrix_get g (size - 7 + j) i = Ok (finder_dark i j).
Proof.
  intros Hq Htext size.
  destruct (generate_spec q text σ Hq Htext)
    as (bits & m & g & _ & _ & E & Hwf & _ & Hc).
  destruct Hq as [_ (Hv & Hsize & _)]. fold size in Hwf, Hc, Hsize.
  eexists _, _, g. split; [exact E|]. split; [apply lookup_insert_eq|].
  intros i j Hi Hj.
  rewrite !(matrix_get_in size) by (done || lia).
  rewrite !Hc by lia. unfold size.
  rewrite build_step_finder_top_left, build_step_finder_top_right,
    build_step_finder_bottom_left by done.
  done.
Qed.

Lemma generate_finder_patterns_witness :
  instance_ok demo_instance demo_store ∧ encodable text_HELLO = true ∧
  ∃ r σ' g,
    QRCode.generate demo_instance text_HELLO demo_store = Ok (r, σ') ∧
    σ' !! r = Some g ∧
    ∀ i j, 0 ≤ i < 7 → 0 ≤ j < 7 →
      matrix_get g j i = Ok (finder_dark i j) ∧
      matrix_get g j (21 - 7 + i) = Ok (finder_dark i j) ∧
      matrix_get g (21 - 7 + j) i = Ok (finder_dark i j).
Proof.
  assert (Hq : instance_ok demo_instance demo_store).
  { split; [reflexivity|]. split; [simpl; lia|]. split; [reflexivity|].
    eexists. split; [reflexivity|].
    split; [reflexivity|vm_compute; repeat constructor]. }
  split; [exact Hq|]. split; [reflexivity|].
  apply (generate_finder_patterns demo_instance text_HELLO demo_store Hq).
  reflexivity.
Defined.

(** ** C9: masking twice *)

(** C9: the masking step is its own inverse: on every grid, running the
    step twice gives back the grid it started from. *)
Theorem apply_mask_twice (self : MatrixConstructor.t) (m : grid) :
  grid_wf (MatrixConstructor.size self) m →
  ∃ m1, MatrixConstructor._apply_mask self m = Ok m1 ∧
        MatrixConstructor._apply_mask self m1 = Ok m.
Proof.
  intros Hm.
  destruct (apply_mask_acts self m Hm) as (m1 & E1 & Hm1 & Hc1).
  destruct (apply_mask_acts self m1 Hm1) as (m2 & E2 & Hm2 & Hc2).
  exists m1. split; [done|]. rewrite E2. f_equal.
  apply (grid_ext (MatrixConstructor.size self)); [done|done|].
  intros x y Hx Hy. rewrite Hc2, Hc1 by done. unfold mask_step.
  destruct (_ && _); [apply negb_involutive|done].
Qed.

Lemma apply_mask_twice_witness :
  grid_wf (MatrixConstructor.size v1_constructor) grid_dark_at_8_8 ∧
  ∃ m1,
    MatrixConstructor._apply_mask v1_constructor grid_dark_at_8_8 = Ok m1 ∧
    MatrixConstructor._apply_mask v1_constructor m1 = Ok grid_dark_at_8_8.
Proof.
  split; [split; [reflexivity|vm_compute; repeat constructor]|].
  apply (apply_mask_twice v1_constructor grid_dark_at_8_8).
  split; [reflexivity|vm_compute; repeat constructor].
Defined.

(** ** C10: the dark module *)

(** C10 as stated fails: at version 1 the predicate is true, not false, at
    the dark-module cell (8, 13), and the cell is dark, not light, in the
    grid generated for the text "1". *)
Lemma dark_module_not_in_data_domain :
  MatrixConstructor._is_function_pattern
    (QRCode.matrix_constructor demo_instance) 8 (4 * 1 + 9) ≠ false ∧
  ∃ r σ' g,
    QRCode.generate demo_instance text_1 demo_store = Ok (r, σ') ∧
    σ' !! r = Some g ∧
    matrix_get g (4 * 1 + 9) 8 = Ok true.
Proof.
  split; [vm_compute; discriminate|].
  eexists _, _, _. split; [vm_compute; reflexivity|].
  split; [vm_compute; reflexivity|]. vm_compute. reflexivity.
Qed.

(** C10, as the code has it: for every positive version the
    function-pattern predicate holds at the dark-module cell
    (x = 8, y = 4 * version + 9), which lies in the margin below the
    bottom-left finder; data placement and masking therefore leave the cell
    alone, and it is dark in the grid [generate] returns. *)
Theorem dark_module_is_reserved `{UnicodeData} (q : QRCode.t) (text : str)
    (σ : store) :
  instance_ok q σ → encodable text = true →
  let mc := QRCode.matrix_constructor q in
  let y := 4 * MatrixConstructor.version mc + 9 in
  MatrixConstructor._is_function_pattern mc 8 y = true ∧
  ∃ r σ' g,
    QRCode.generate q text σ = Ok (r, σ') ∧ σ' !! r = Some g ∧
    matrix_get g y 8 = Ok true.
Proof.
  intros Hq Htext mc y.
  destruct (generate_spec q text σ Hq Htext)
    as (bits & m & g & _ & _ & E & Hwf & _ & Hc).
  destruct Hq as [_ (Hv & Hsize & _)]. fold mc in Hwf, Hc, Hsize, Hv, E.
  split; [by apply function_pattern_dark_module|].
  eexists _, _, g. split; [exact E|]. split; [apply lookup_insert_eq|].
  rewrite (matrix_get_in (MatrixConstructor.size mc)) by (done || unfold y; lia).
  rewrite Hc by (unfold y; lia). unfold y.
  by rewrite build_step_dark_module.
Qed.

Lemma dark_module_is_reserved_witness :
  instance_ok demo_instance demo_store ∧ encodable text_1 = true ∧
  MatrixConstructor._is_function_pattern
    (QRCode.matrix_constructor demo_instance) 8 13 = true ∧
  ∃ r σ' g,
    QRCode.generate demo_instance text_1 demo_store = Ok (r, σ') ∧
    σ' !! r = Some g ∧
    matrix_get g 13 8 = Ok true.
Proof.
  assert (Hq : instance_ok demo_instance demo_store).
  { split; [reflexivity|]. split; [simpl; lia|]. split; [reflexivity|].
    eexists. split; [reflexivity|].
    split; [reflexivity|vm_compute; repeat constructor]. }
  split; [exact Hq|]. split; [reflexivity|].
  apply (dark_module_is_reserved demo_instance text_1 demo_store Hq).
  reflexivity.
Defined.

(** * Further properties *)

(** ** Invariants of loops *)

Lemma for_inv {S A : Type} (P : S → Prop) (l : list A)
    (body : A → S → outcome S) (s s' : S) :
  P s → (∀ a t t', a ∈ l → P t → body a t = Ok t' → P t') →
  for_ l body s = Ok s' → P s'.
Proof.
  revert s. induction l as [|a l IH]; intros s Hs Hbody; simpl.
  - by intros [= <-].
  - intros (t & Et & E)%bind_Ok_inv. apply (IH t); [|intros b t1 t2 Hb; apply Hbody; by right|done].
    apply (Hbody a s t); [left|done|done].
Qed.

Lemma while_inv {S : Type} (P : S → Prop) (fuel : nat) (cond : S → bool)
    (body : S → outcome S) (s s' : S) :
  P s → (∀ t t', P t → body t = Ok t' → P t') →
  while_ fuel cond body s = Ok s' → P s'.
Proof.
  revert s. induction fuel as [|fuel IH]; intros s Hs Hbody; cbn [while_].
  - destruct (cond s); [done|]. by intros [= <-].
  - destruct (cond s); [|by intros [= <-]].
    intros (t & Et & E)%bind_Ok_inv. apply (IH t); eauto.
Qed.

(** ** DataEncoder._number_to_bits *)


Lemma bits_value_pos_bin (p : positive) : bits_value (pos_bin p) = Z.pos p.
Proof.
  induction p as [p IH|p IH|]; cbn [pos_bin]; [| |done];
    rewrite bits_value_app, IH; lia.
Qed.

Lemma pos_bin_bits (p : positive) : Forall is_bit (pos_bin p).
Proof.
  induction p as [p IH|p IH|]; cbn [pos_bin].
  - apply Forall_app. split; [done|]. apply Forall_singleton. by right.
  - apply Forall_app. split; [done|]. apply Forall_singleton. by left.
  - apply Forall_singleton. by right.
Qed.

Lemma length_pos_bin (p : positive) :
  Z.of_nat (length (pos_bin p)) = Z.log2 (Z.pos p) + 1.
Proof.
  induction p as [p IH|p IH|]; cbn [pos_bin]; [| |done];
    rewrite length_app, Nat2Z.inj_add, IH; cbn [length].
  - rewrite Pos2Z.inj_xI, Z.log2_succ_double by lia. lia.
  - rewrite Pos2Z.inj_xO, Z.log2_double by lia. lia.
Qed.

Lemma bin_spec (n : Z) :
  0 ≤ n →
  Forall is_bit (bin n) ∧ bits_value (bin n) = n ∧
  len (bin n) = Z.log2 n + 1.
Proof.
  intros Hn. destruct n as [|p|p]; [|
    by repeat split; [apply pos_bin_bits|apply bits_value_pos_bin|
                      apply length_pos_bin]|lia].
  split; [apply Forall_singleton; by left|]. done.
Qed.

Lemma replicate_zero_bits (k : nat) : Forall is_bit (replicate k 0).
Proof. apply Forall_replicate. by left. Qed.



(** ** The bit stream of DataEncoder.encode *)

Lemma number_to_bits_bits (number bit_length : Z) (bits : list Z) :
  DataEncoder._number_to_bits number bit_length = Ok bits → Forall is_bit bits.
Proof.
  unfold DataEncoder._number_to_bits.
  destruct (Z.ltb_spec number 0) as [|Hn]; [done|]. intros [= <-].
  apply Forall_app. split; [apply replicate_zero_bits|by apply bin_spec].
Qed.

Lemma stream_shape_app (header r bits : list Z) :
  stream_shape header r → Forall is_bit bits → stream_shape header (r ++ bits).
Proof.
  intros [Hr (rest & ->)] Hbits. split; [by apply Forall_app|].
  exists (rest ++ bits). by rewrite app_assoc.
Qed.

Section StreamShape.
Context `{UnicodeData}.

Lemma numeric_stream_shape (self : DataEncoder.t) (data : str) (r : list Z) :
  DataEncoder.numeric_stream self data = Ok r → stream_shape [0; 0; 0; 1] r.
Proof.
  unfold DataEncoder.numeric_stream.
  intros (count & Ecount & E)%bind_Ok_inv.
  apply bind_Ok_inv in E as ([i r'] & Eloop & [= <-]).
  apply stream_shape_app; [|repeat constructor; by left].
  apply (while_inv (fun st => stream_shape [0; 0; 0; 1] st.2)) in Eloop;
    [done| |].
  - apply stream_shape_app; [|by eapply number_to_bits_bits].
    split; [|by exists []].
    repeat constructor; (by left) || (by right).
  - clear. intros [i r] [i' r'] Hr. unfold DataEncoder.numeric_group.
    destruct (_ <=? _); [|destruct (_ <=? _)].
    + intros (n & _ & (bits & Hbits%number_to_bits_bits & [= <- <-])%bind_Ok_inv)%bind_Ok_inv.
      by apply stream_shape_app.
    + intros (n & _ & (bits & Hbits%number_to_bits_bits & [= <- <-])%bind_Ok_inv)%bind_Ok_inv.
      by apply stream_shape_app.
    + intros (c & _ & (n & _ & (bits & Hbits%number_to_bits_bits & [= <- <-])%bind_Ok_inv)%bind_Ok_inv)%bind_Ok_inv.
      by apply stream_shape_app.
Qed.

Lemma byte_stream_shape (self : DataEncoder.t) (data : str) (r : list Z) :
  DataEncoder.byte_stream self data = Ok r → stream_shape [0; 1; 0; 0] r.
Proof.
  unfold DataEncoder.byte_stream.
  intros (bytes & _ & (count & Ecount & E)%bind_Ok_inv)%bind_Ok_inv.
  apply bind_Ok_inv in E as (r' & Eloop & [= <-]).
  apply stream_shape_app; [|repeat constructor; by left].
  apply (for_inv (stream_shape [0; 1; 0; 0])) in Eloop; [done| |].
  - apply stream_shape_app; [|by eapply number_to_bits_bits].
    split; [|by exists []].
    repeat constructor; (by left) || (by right).
  - intros b t t' _ Ht (bits & Hbits%number_to_bits_bits & [= <-])%bind_Ok_inv.
    by apply stream_shape_app.
Qed.

Lemma stream_has_shape (self : DataEncoder.t) (text : str) (r : list Z) :
  stream self text = Ok r →
  stream_shape (if isdigit text then [0; 0; 0; 1] else [0; 1; 0; 0]) r.
Proof.
  unfold stream. destruct (isdigit text);
    [apply numeric_stream_shape|apply byte_stream_shape].
Qed.

(** Whatever [encode] returns: its length, and how it comes from the
    stream. *)
Lemma encode_inv (v : Z) (l : ErrorCorrectionLevel) (text : str)
    (bits : list Z) :
  DataEncoder.encode (DataEncoder.__init__ v l) text = Ok bits →
  ∃ (r : list Z) (k : nat),
    stream (DataEncoder.__init__ v l) text = Ok r ∧
    bits = take (Z.to_nat (DataEncoder._get_capacity v l))
             (r ++ concat (replicate k DataEncoder.pad_block)) ∧
    DataEncoder._get_capacity v l ≤ len r + 8 * Z.of_nat k ∧
    (k = O ∨ len r + 8 * (Z.of_nat k - 1) < DataEncoder._get_capacity v l) ∧
    len bits = DataEncoder._get_capacity v l.
Proof.
  rewrite encode_stream. intros (r & Er & Ebits)%bind_Ok_inv.
  pose proof (capacity_range v l) as Hcap.
  destruct (pad_and_cut_spec (DataEncoder.__init__ v l) r)
    as (k & E & Hk & Hmin); [simpl; lia|].
  cbn [DataEncoder.capacity DataEncoder.__init__] in *.
  rewrite E in Ebits. injection Ebits as <-.
  exists r, k. repeat (split; [done|]).
  unfold len in *. rewrite length_take, length_app, length_pads. lia.
Qed.

End StreamShape.

Lemma pads_bits (k : nat) :
  Forall is_bit (concat (replicate k DataEncoder.pad_block)).
Proof.
  induction k as [|k IH]; simpl; [constructor|].
  repeat (constructor; [(by left) || (by right)|]). exact IH.
Qed.

(** X2: whatever the encoder returns consists of the bits 0 and 1 only,
    for every version, level and text. *)
Theorem encode_emits_bits `{UnicodeData} (v : Z) (l : ErrorCorrectionLevel)
    (text : str) (bits : list Z) :
  DataEncoder.encode (DataEncoder.__init__ v l) text = Ok bits →
  Forall is_bit bits.
Proof.
  intros (r & k & Er & -> & _)%encode_inv.
  apply Forall_take, Forall_app. split; [|apply pads_bits].
  by apply stream_has_shape in Er as [Hr _].
Qed.

Lemma encode_emits_bits_witness :
  DataEncoder.encode (DataEncoder.__init__ 1 M) text_HELLO
  = Ok [0; 1; 0; 0; 0; 0; 0; 0; 0; 0; 0; 1; 0; 1; 0; 1; 0; 0; 1; 0; 0; 0;
        0; 1; 0; 0; 0; 1; 0; 1; 0; 1; 0; 0] ∧
  Forall is_bit [0; 1; 0; 0; 0; 0; 0; 0; 0; 0; 0; 1; 0; 1; 0; 1; 0; 0; 1; 0;
                 0; 0; 0; 1; 0; 0; 0; 1; 0; 1; 0; 1; 0; 0].
Proof.
  split; [reflexivity|].
  apply (encode_emits_bits 1 M text_HELLO). reflexivity.
Defined.

(** X3: the first four bits of whatever the encoder returns are the mode
    indicator: 0001 when [isdigit] holds of the text, 0100 otherwise (in
    particular for the empty text); no capacity cuts into them. *)
Theorem encode_mode_indicator `{UnicodeData} (v : Z) (l : ErrorCorrectionLevel)
    (text : str) (bits : list Z) :
  DataEncoder.encode (DataEncoder.__init__ v l) text = Ok bits →
  take 4 bits = if isdigit text then [0; 0; 0; 1] else [0; 1; 0; 0].
Proof.
  intros (r & k & Er & -> & _)%encode_inv.
  pose proof (capacity_range v l) as Hcap.
  apply stream_has_shape in Er as [_ (rest & ->)].
  rewrite take_take. replace (4 `min` Z.to_nat (DataEncoder._get_capacity v l))%nat
    with 4%nat by lia.
  by destruct (isdigit text).
Qed.

Lemma encode_mode_indicator_witness :
  DataEncoder.encode (DataEncoder.__init__ 1 M) text_12345
  = Ok [0; 0; 0; 1; 0; 0; 0; 0; 0; 0; 0; 1; 0; 1; 0; 0; 0; 1; 1; 1; 1; 0;
        1; 1; 0; 1; 0; 1; 1; 0; 1; 0; 0; 0] ∧
  take 4 [0; 0; 0; 1; 0; 0; 0; 0; 0; 0; 0; 1; 0; 1; 0; 0; 0; 1; 1; 1; 1; 0;
          1; 1; 0; 1; 0; 1; 1; 0; 1; 0; 0; 0]
  = if isdigit text_12345 then [0; 0; 0; 1] else [0; 1; 0; 0].
Proof.
  split; [reflexivity|].
  apply (encode_mode_indicator 1 M text_12345). reflexivity.
Defined.

(** X4: capacity overflow is silent: when the stream built from the text
    (mode indicator, count, payload, terminator) is at least as long as
    the capacity, the encoder returns its first [capacity] bits, without
    any padding. *)
Theorem encode_truncates `{UnicodeData} (v : Z) (l : ErrorCorrectionLevel)
    (text : str) (r : list Z) :
  stream (DataEncoder.__init__ v l) text = Ok r →
  DataEncoder._get_capacity v l ≤ len r →
  DataEncoder.encode (DataEncoder.__init__ v l) text
  = Ok (take (Z.to_nat (DataEncoder._get_capacity v l)) r).
Proof.
  intros Er Hlen. rewrite encode_stream, Er. cbn [mbind outcome_bind].
  pose proof (capacity_range v l) as Hcap.
  destruct (pad_and_cut_spec (DataEncoder.__init__ v l) r)
    as (k & -> & _ & Hmin); [simpl; lia|].
  cbn [DataEncoder.capacity DataEncoder.__init__] in *.
  destruct Hmin as [->|Hk]; [simpl; by rewrite app_nil_r|].
  destruct k as [|k]; [simpl; by rewrite app_nil_r|lia].
Qed.

Lemma encode_truncates_witness :
  stream (DataEncoder.__init__ 1 H) text_12345
  = Ok [0; 0; 0; 1; 0; 0; 0; 0; 0; 1; 0; 1; 0; 0; 0; 1; 1; 1; 1; 0; 1; 1;
        0; 1; 0; 1; 1; 0; 1; 0; 0; 0; 0] ∧
  DataEncoder._get_capacity 1 H
  ≤ len [0; 0; 0; 1; 0; 0; 0; 0; 0; 1; 0; 1; 0; 0; 0; 1; 1; 1; 1; 0; 1; 1;
         0; 1; 0; 1; 1; 0; 1; 0; 0; 0; 0] ∧
  DataEncoder.encode (DataEncoder.__init__ 1 H) text_12345
  = Ok (take (Z.to_nat (DataEncoder._get_capacity 1 H))
          [0; 0; 0; 1; 0; 0; 0; 0; 0; 1; 0; 1; 0; 0; 0; 1; 1; 1; 1; 0; 1; 1;
           0; 1; 0; 1; 1; 0; 1; 0; 0; 0; 0]).
Proof.
  split; [reflexivity|]. split; [vm_compute; discriminate|].
  apply (encode_truncates 1 H text_12345); [reflexivity|vm_compute; discriminate].
Defined.

(** X5: the redundancy stage applied to whatever the encoder returns gives
    exactly [capacity + 10] bits, the last ten repeating the first ten:
    the capacity is never below ten. *)
Theorem encode_then_reed_solomon `{UnicodeData} (v : Z)
    (l : ErrorCorrectionLevel) (text : str) (bits : list Z) :
  DataEncoder.encode (DataEncoder.__init__ v l) text = Ok bits →
  let out := ReedSolomon.encode ReedSolomon.new bits v l in
  out = bits ++ take 10 bits ∧
  len out = DataEncoder._get_capacity v l + 10 ∧
  Forall is_bit out.
Proof.
  intros Ebits out.
  pose proof (capacity_range v l) as Hcap.
  pose proof Ebits as (r & k & Er & Hbits & _ & _ & Hlen)%encode_inv.
  assert (Hout : out = bits ++ take 10 bits).
  { unfold out, ReedSolomon.encode. by rewrite slice_prefix by lia. }
  split; [done|]. rewrite Hout. split.
  - unfold len in *. rewrite length_app, length_take. lia.
  - assert (Forall is_bit bits).
    { rewrite Hbits. apply Forall_take, Forall_app. split; [|apply pads_bits].
      by apply stream_has_shape in Er as [Hr _]. }
    apply Forall_app. split; [done|by apply Forall_take].
Qed.

Lemma encode_then_reed_solomon_witness :
  DataEncoder.encode (DataEncoder.__init__ 1 H) text_1
  = Ok [0; 0; 0; 1; 0; 0; 0; 0; 0; 0; 0; 1; 0; 0; 0; 1; 0] ∧
  ReedSolomon.encode ReedSolomon.new
    [0; 0; 0; 1; 0; 0; 0; 0; 0; 0; 0; 1; 0; 0; 0; 1; 0] 1 H
  = [0; 0; 0; 1; 0; 0; 0; 0; 0; 0; 0; 1; 0; 0; 0; 1; 0]
    ++ take 10 [0; 0; 0; 1; 0; 0; 0; 0; 0; 0; 0; 1; 0; 0; 0; 1; 0] ∧
  len (ReedSolomon.encode ReedSolomon.new
         [0; 0; 0; 1; 0; 0; 0; 0; 0; 0; 0; 1; 0; 0; 0; 1; 0] 1 H)
  = DataEncoder._get_capacity 1 H + 10 ∧
  Forall is_bit (ReedSolomon.encode ReedSolomon.new
                   [0; 0; 0; 1; 0; 0; 0; 0; 0; 0; 0; 1; 0; 0; 0; 1; 0] 1 H).
Proof.
  split; [reflexivity|].
  apply (encode_then_reed_solomon 1 H text_1). reflexivity.
Defined.

(** ** Byte mode *)

Lemma lor_lt_pow2 (a b n : Z) :
  0 ≤ a < 2 ^ n → 0 ≤ b < 2 ^ n → 0 ≤ Z.lor a b < 2 ^ n.
Proof.
  intros Ha Hb. assert (0 ≤ Z.lor a b) as Hnn by (apply Z.lor_nonneg; lia).
  split; [done|].
  destruct (Z.eq_dec (Z.lor a b) 0) as [->|Hne]; [lia|].
  assert (0 ≤ n) as Hn.
  { destruct (Z.le_gt_cases 0 n); [done|]. rewrite Z.pow_neg_r in Ha; lia. }
  apply Z.log2_lt_pow2; [lia|]. rewrite Z.log2_lor by lia.
  assert (Hlog : ∀ x, 0 ≤ x < 2 ^ n → x ≠ 0 → Z.log2 x < n).
  { intros x Hx Hx0. apply Z.log2_lt_pow2; lia. }
  destruct (Z.eq_dec a 0) as [->|Ha0].
  - rewrite Z.lor_0_l in Hne. change (Z.log2 0) with 0.
    pose proof (Hlog b Hb Hne). pose proof (Z.log2_nonneg b). lia.
  - destruct (Z.eq_dec b 0) as [->|Hb0].
    + change (Z.log2 0) with 0.
      pose proof (Hlog a Ha Ha0). pose proof (Z.log2_nonneg a). lia.
    + pose proof (Hlog a Ha Ha0). pose proof (Hlog b Hb Hb0). lia.
Qed.

Lemma continuation_byte (x : Z) : 0 ≤ Z.lor 128 (Z.land x 63) < 256.
Proof.
  apply (lor_lt_pow2 128 _ 8); [done|].
  change 63 with (Z.ones 6). rewrite Z.land_ones by lia.
  pose proof (Z.mod_pos_bound x (2 ^ 6)). change (2 ^ 6) with 64 in *.
  change (2 ^ 8) with 256. lia.
Qed.

Lemma leading_byte (tag c n bound : Z) :
  0 ≤ tag < 256 → 0 ≤ n → 0 ≤ c < bound → bound ≤ 256 * 2 ^ n →
  0 ≤ Z.lor tag (Z.shiftr c n) < 256.
Proof.
  intros Htag Hn Hc Hbound. apply (lor_lt_pow2 tag _ 8); [done|].
  rewrite Z.shiftr_div_pow2 by done.
  assert (0 < 2 ^ n) by (apply Z.pow_pos_nonneg; lia).
  split; [apply Z.div_pos; lia|].
  apply Z.div_lt_upper_bound; [done|]. change (2 ^ 8) with 256. lia.
Qed.

Lemma utf8_encode_char_bytes (c : Z) :
  scalar_value c = true →
  ∃ bs, utf8_encode_char c = Ok bs ∧ Forall (fun b => 0 ≤ b < 256) bs ∧
        (1 ≤ length bs ≤ 4)%nat.
Proof.
  unfold scalar_value, utf8_encode_char. intros Hc.
  assert (0 ≤ c ≤ 1114111 ∧ ¬ (55296 ≤ c ≤ 57343)) as [Hc0 Hsur].
  { revert Hc. zbool. }
  destruct (Z.ltb_spec c 128);
    [eexists; split; [done|]; split; [|simpl; lia];
     repeat constructor; lia|].
  destruct (Z.ltb_spec c 2048).
  { eexists; split; [done|]; split; [|simpl; lia].
    repeat (constructor; [first [apply continuation_byte
      |apply (leading_byte _ c _ 2048); [lia|lia|lia|by vm_compute]]|]).
    constructor. }
  destruct (Z.ltb_spec c 65536).
  - replace ((55296 <=? c) && (c <=? 57343)) with false by (symmetry; zbool).
    eexists; split; [done|]; split; [|simpl; lia].
    repeat (constructor; [first [apply continuation_byte
      |apply (leading_byte _ c _ 65536); [lia|lia|lia|by vm_compute]]|]).
    constructor.
  - eexists; split; [done|]; split; [|simpl; lia].
    repeat (constructor; [first [apply continuation_byte
      |apply (leading_byte _ c _ 1114112); [lia|lia|lia|by vm_compute]]|]).
    constructor.
Qed.

Lemma utf8_encode_bytes (s : str) :
  forallb scalar_value s = true →
  ∃ bs, utf8_encode s = Ok bs ∧ Forall (fun b => 0 ≤ b < 256) bs ∧
        (length s ≤ length bs ≤ 4 * length s)%nat.
Proof.
  induction s as [|c s IH]; simpl; intros Hs.
  - exists []. split; [done|]. split; [constructor|simpl; lia].
  - apply andb_true_iff in Hs as [Hc Hs].
    destruct (utf8_encode_char_bytes c Hc) as (bs & -> & Hbs & Hl).
    destruct (IH Hs) as (rest & -> & Hrest & Hlr).
    exists (bs ++ rest). split; [done|]. split; [by apply Forall_app|].
    rewrite length_app. lia.
Qed.

Lemma byte_loop_payload (bytes : list Z) (r : list Z) :
  Forall (fun b => 0 ≤ b < 256) bytes →
  for_ bytes (fun byte result =>
    bits ← DataEncoder._number_to_bits byte 8; Ok (result ++ bits)) r
  = Ok (r ++ spec_byte_payload bytes).
Proof.
  intros Hb. revert r. induction Hb as [|b bytes Hb _ IH]; intros r; simpl.
  - unfold spec_byte_payload. simpl. by rewrite app_nil_r.
  - rewrite number_to_bits_be by (try change (2 ^ 8) with 256; lia).
    cbn [mbind outcome_bind]. rewrite IH. unfold spec_byte_payload.
    cbn [fmap list_fmap concat]. by rewrite <- app_assoc.
Qed.

Lemma length_spec_byte_payload (bytes : list Z) :
  len (spec_byte_payload bytes) = 8 * len bytes.
Proof.
  unfold spec_byte_payload, len. induction bytes as [|b bytes IH]; [done|].
  cbn [fmap list_fmap concat length]. rewrite length_app, length_be_bits. lia.
Qed.

Lemma count_width_range (v : Z) (l : ErrorCorrectionLevel) :
  (8 ≤ spec_count_width v l ≤ 12)%nat.
Proof. unfold spec_count_width. case_bool_decide; [destruct l|]; lia. Qed.


Section ByteMode.
Context `{UnicodeData}.

Lemma byte_stream_spec (v : Z) (l : ErrorCorrectionLevel) (data : str)
    (bytes : list Z) :
  utf8_encode data = Ok bytes →
  Forall (fun b => 0 ≤ b < 256) bytes →
  len bytes < 2 ^ Z.of_nat (spec_count_width v l) →
  DataEncoder.byte_stream (DataEncoder.__init__ v l) data
  = Ok ([0; 1; 0; 0] ++ be_bits (spec_count_width v l) (len bytes)
          ++ spec_byte_payload bytes ++ [0; 0; 0; 0]).
Proof.
  intros Eb Hb Hcount. unfold DataEncoder.byte_stream. rewrite Eb.
  cbn [mbind outcome_bind]. rewrite count_bits_spec.
  pose proof (count_width_range v l).
  rewrite number_to_bits_be by (unfold len in *; lia). rewrite Nat2Z.id.
  cbn [mbind outcome_bind]. rewrite byte_loop_payload by done.
  cbn [mbind outcome_bind]. by rewrite <- !app_assoc.
Qed.

End ByteMode.

(** X6: for a text that [isdigit] rejects and that consists of Unicode
    scalar values, when mode indicator, count and payload fit in the
    capacity the encoder output begins with 0100, then the number of
    UTF-8 bytes of the text on the width of the count field, then every
    byte on 8 bits in encoding order. *)
Theorem byte_mode_layout `{UnicodeData} (v : Z) (l : ErrorCorrectionLevel)
    (text : str) :
  isdigit text = false →
  forallb scalar_value text = true →
  ∃ bytes,
    utf8_encode text = Ok bytes ∧
    Forall (fun b => 0 ≤ b < 256) bytes ∧
    (4 + Z.of_nat (spec_count_width v l) + 8 * len bytes
       ≤ DataEncoder._get_capacity v l →
     ∃ rest,
       DataEncoder.encode (DataEncoder.__init__ v l) text
       = Ok ([0; 1; 0; 0] ++ be_bits (spec_count_width v l) (len bytes)
               ++ spec_byte_payload bytes ++ rest) ∧
       bits_value (be_bits (spec_count_width v l) (len bytes)) = len bytes).
Proof.
  intros Hdigit Htext.
  destruct (utf8_encode_bytes text Htext) as (bytes & Eb & Hb & _).
  exists bytes. split; [done|]. split; [done|]. intros Hfit.
  pose proof (capacity_range v l) as Hcap.
  pose proof (count_width_range v l) as Hw.
  assert (Hcount : 0 ≤ len bytes < 2 ^ Z.of_nat (spec_count_width v l)).
  { unfold len in *. split; [lia|].
    apply Z.lt_le_trans with (2 ^ 8); [change (2 ^ 8) with 256; lia|].
    apply Z.pow_le_mono_r; lia. }
  unfold DataEncoder.encode. rewrite Hdigit.
  unfold DataEncoder._encode_byte.
  rewrite (byte_stream_spec v l text bytes) by (done || lia).
  cbn [mbind outcome_bind].
  set (head := [0; 1; 0; 0] ++ be_bits (spec_count_width v l) (len bytes)
                 ++ spec_byte_payload bytes).
  destruct (pad_and_cut_spec (DataEncoder.__init__ v l) (head ++ [0; 0; 0; 0]))
    as (k & E & _ & _); [simpl; lia|].
  cbn [DataEncoder.capacity DataEncoder.__init__] in E.
  exists (take (Z.to_nat (DataEncoder._get_capacity v l) - length head)
            ([0; 0; 0; 0] ++ concat (replicate k DataEncoder.pad_block))).
  split; [|by apply bits_value_be_bits].
  replace ([0; 1; 0; 0] ++ be_bits (spec_count_width v l) (len bytes)
           ++ spec_byte_payload bytes ++ [0; 0; 0; 0])
    with (head ++ [0; 0; 0; 0]) by (unfold head; by rewrite <- !app_assoc).
  rewrite E. f_equal. rewrite <- app_assoc.
  rewrite take_app_ge.
  - unfold head. by rewrite <- !app_assoc.
  - unfold head. rewrite !length_app, length_be_bits.
    pose proof (length_spec_byte_payload bytes). unfold len in *.
    simpl. lia.
Qed.

Lemma byte_mode_layout_witness :
  isdigit text_HELLO = false ∧
  forallb scalar_value text_HELLO = true ∧
  ∃ bytes,
    utf8_encode text_HELLO = Ok bytes ∧
    Forall (fun b => 0 ≤ b < 256) bytes ∧
    (4 + Z.of_nat (spec_count_width 3 L) + 8 * len bytes
       ≤ DataEncoder._get_capacity 3 L →
     ∃ rest,
       DataEncoder.encode (DataEncoder.__init__ 3 L) text_HELLO
       = Ok ([0; 1; 0; 0] ++ be_bits (spec_count_width 3 L) (len bytes)
               ++ spec_byte_payload bytes ++ rest) ∧
       bits_value (be_bits (spec_count_width 3 L) (len bytes)) = len bytes).
Proof.
  split; [reflexivity|]. split; [reflexivity|].
  apply (byte_mode_layout 3 L text_HELLO); reflexivity.
Defined.


(** ** Numeric mode: size and failure *)





Section Failure.
Context `{UnicodeData}.

Lemma digits_of_app (s t : str) :
  digits_of (s ++ t) = None → is_Some (digits_of s) → digits_of t = None.
Proof.
  unfold digits_of. intros Hst [ds Hs].
  destruct (mapM to_decimal t) as [dt|] eqn:Ht; [|done].
  assert (mapM to_decimal (s ++ t) = Some (ds ++ dt)); [|congruence].
  apply mapM_Some. apply Forall2_app; by apply mapM_Some.
Qed.

Lemma int_not_decimal (s : str) : digits_of s = None → int s = Raise ValueError.
Proof. unfold digits_of, int. intros E. destruct s; [done|]. by rewrite E. Qed.

(** The grouping loop raises ValueError as soon as it reaches a group with
    a character that has no decimal value. *)
Lemma numeric_loop_raises (data : str) :
  ∀ (fuel : nat) (i : Z) (r : list Z),
    0 ≤ i ≤ len data → len data - i ≤ Z.of_nat fuel →
    digits_of (drop (Z.to_nat i) data) = None →
    while_ fuel (fun st => st.1 <? len data)
      (DataEncoder.numeric_group data) (i, r) = Raise ValueError.
Proof.
  induction fuel as [|fuel IH]; intros i r Hi Hfuel Hbad.
  - assert (i = len data) as -> by lia. unfold len in Hbad.
    rewrite Nat2Z.id, drop_ge in Hbad by lia. done.
  - destruct (Z.eq_dec i (len data)) as [->|Hne].
    { unfold len in Hbad. rewrite Nat2Z.id, drop_ge in Hbad by lia. done. }
    cbn [while_ fst]. rewrite (proj2 (Z.ltb_lt _ _)) by lia.
    set (rest := while_ fuel _ (DataEncoder.numeric_group data)).
    unfold DataEncoder.numeric_group. cbv beta iota.
    assert (Hstep : ∀ n : nat, (1 ≤ n)%nat → i + Z.of_nat n ≤ len data →
      (int (take n (drop (Z.to_nat i) data)) ≫= (fun number =>
         DataEncoder._number_to_bits number
           (if (n =? 3)%nat then 10 else if (n =? 2)%nat then 7 else 4)
         ≫= fun bits => Ok (i + Z.of_nat n, r ++ bits))) ≫= rest
      = Raise ValueError).
    { intros n Hn Hin.
      destruct (digits_of (take n (drop (Z.to_nat i) data))) as [ds|] eqn:Eg.
      - rewrite (int_digits _ ds Eg).
        2:{ intros E. apply (f_equal length) in E.
            rewrite length_take, length_drop in E. unfold len in *.
            simpl in E. lia. }
        cbn [mbind outcome_bind].
        destruct (number_to_bits_ok (decimal_value ds)
          (if (n =? 3)%nat then 10 else if (n =? 2)%nat then 7 else 4))
          as (bits & ->); [apply decimal_value_range|].
        cbn [mbind outcome_bind]. unfold rest. apply IH; [lia|lia|].
        apply (digits_of_app (take n (drop (Z.to_nat i) data))); [|by eauto].
        replace (Z.to_nat (i + Z.of_nat n)) with (Z.to_nat i + n)%nat by lia.
        rewrite <- drop_drop, take_drop. done.
      - by rewrite (int_not_decimal _ Eg). }
    destruct (Z.leb_spec (i + 3) (len data)) as [H3|H3]; cbv beta iota.
    + rewrite slice_in by lia.
      replace (Z.to_nat (i + 3 - i)) with 3%nat by lia.
      apply (Hstep 3%nat); lia.
    + destruct (Z.leb_spec (i + 2) (len data)) as [H2|H2]; cbv beta iota.
      * rewrite slice_in by lia.
        replace (Z.to_nat (i + 2 - i)) with 2%nat by lia.
        apply (Hstep 2%nat); lia.
      * destruct (lookup_lt_is_Some_2 data (Z.to_nat i)) as [c Hc];
          [unfold len in *; lia|].
        rewrite (getitem_in data i c) by (done || lia).
        cbn [mbind outcome_bind].
        pose proof (Hstep 1%nat) as H1.
        rewrite (drop_S data c (Z.to_nat i) Hc) in H1.
        simpl take in H1. rewrite take_0 in H1. apply H1; lia.
Qed.

Lemma utf8_encode_raises (s : str) :
  Forall code_point s → forallb scalar_value s = false →
  utf8_encode s = Raise UnicodeEncodeError.
Proof.
  induction 1 as [|c s Hc _ IH]; [done|]. cbn [forallb utf8_encode].
  intros Hs. apply andb_false_iff in Hs as [Hbad|Hs].
  - unfold utf8_encode_char. unfold code_point in Hc.
    assert (55296 ≤ c ≤ 57343) by (revert Hbad; unfold scalar_value; zbool).
    rewrite (proj2 (Z.ltb_ge c 128)), (proj2 (Z.ltb_ge c 2048)),
      (proj2 (Z.ltb_lt c 65536)) by lia.
    by rewrite (proj2 (Z.leb_le 55296 c)), (proj2 (Z.leb_le c 57343)) by lia.
  - rewrite (IH Hs). unfold utf8_encode_char.
    destruct (c <? 128); [done|]. destruct (c <? 2048); [done|].
    destruct (c <? 65536); [|done]. by destruct (_ && _).
Qed.

End Failure.

Lemma encode_raises `{UnicodeData} (v : Z) (l : ErrorCorrectionLevel)
    (text : str) :
  Forall code_point text → encodable text = false →
  DataEncoder.encode (DataEncoder.__init__ v l) text
  = Raise (if isdigit text then ValueError else UnicodeEncodeError).
Proof.
  intros Htext Eenc. unfold encodable in Eenc. unfold DataEncoder.encode.
  destruct (isdigit text).
  - apply bool_decide_eq_false in Eenc.
    assert (digits_of text = None) as Hbad.
    { destruct (digits_of text); [|done]. by destruct Eenc. }
    unfold DataEncoder._encode_numeric, DataEncoder.numeric_stream.
    destruct (number_to_bits_ok (len text)
      (DataEncoder._get_character_count_bits (DataEncoder.__init__ v l)))
      as (count & ->); [unfold len; lia|].
    cbn [mbind outcome_bind].
    by rewrite numeric_loop_raises by (done || unfold len; lia).
  - unfold DataEncoder._encode_byte, DataEncoder.byte_stream.
    by rewrite utf8_encode_raises.
Qed.

(** X9: the exact failures of the encoder on a string of code points. A
    text accepted by [isdigit] with a character that has no decimal value
    raises ValueError; a text rejected by [isdigit] with a surrogate code
    point raises UnicodeEncodeError; on every other text the encoder
    returns. *)
Theorem encode_outcome `{UnicodeData} (v : Z) (l : ErrorCorrectionLevel)
    (text : str) :
  Forall code_point text →
  if encodable text then
    ∃ bits, DataEncoder.encode (DataEncoder.__init__ v l) text = Ok bits
  else
    DataEncoder.encode (DataEncoder.__init__ v l) text
    = Raise (if isdigit text then ValueError else UnicodeEncodeError).
Proof.
  intros Htext. destruct (encodable text) eqn:Eenc.
  - destruct (encode_returns v l text Eenc) as (bits & E & _). by exists bits.
  - by apply encode_raises.
Qed.

Lemma encode_outcome_witness :
  Forall code_point [65; 55357] ∧
  if encodable [65; 55357] then
    ∃ bits, DataEncoder.encode (DataEncoder.__init__ 1 M) [65; 55357] = Ok bits
  else
    DataEncoder.encode (DataEncoder.__init__ 1 M) [65; 55357]
    = Raise (if isdigit [65; 55357] then ValueError else UnicodeEncodeError).
Proof.
  assert (Forall code_point [65; 55357]) as Hcp.
  { repeat constructor; unfold code_point; lia. }
  split; [exact Hcp|]. apply (encode_outcome 1 M [65; 55357] Hcp).
Defined.

(** ** Terminator and padding *)

Lemma stream_terminator `{UnicodeData} (self : DataEncoder.t) (text : str)
    (r : list Z) :
  stream self text = Ok r → ∃ body, r = body ++ [0; 0; 0; 0].
Proof.
  unfold stream, DataEncoder.numeric_stream, DataEncoder.byte_stream.
  destruct (isdigit text).
  - intros (count & _ & E)%bind_Ok_inv.
    apply bind_Ok_inv in E as ([i body] & _ & [= <-]). by exists body.
  - intros (encoded & _ & E)%bind_Ok_inv.
    apply bind_Ok_inv in E as (count & _ & E).
    apply bind_Ok_inv in E as (body & _ & [= <-]). by exists body.
Qed.

Lemma pads_lookup (k i : nat) :
  (i < 8 * k)%nat →
  concat (replicate k DataEncoder.pad_block) !! i
  = DataEncoder.pad_block !! (i `mod` 8)%nat.
Proof.
  revert i. induction k as [|k IH]; intros i Hi; [lia|].
  cbn [replicate concat]. destruct (decide (i < 8)%nat) as [Hlt|Hge].
  - rewrite lookup_app_l by (simpl; lia). by rewrite Nat.mod_small by done.
  - rewrite lookup_app_r by (simpl; lia).
    change (length DataEncoder.pad_block) with 8%nat.
    rewrite IH by lia. f_equal.
    replace i with ((i - 8) + 1 * 8)%nat at 2 by lia.
    by rewrite Nat.Div0.mod_add.
Qed.

(** X10: when the stream with its terminator does not exceed the
    capacity, the encoder returns the stream, which ends in the four zero
    bits of the terminator, followed by the block 1,1,1,0,1,1,0,0 repeated
    and cut at the capacity: the bit j places after the stream is bit
    j mod 8 of the block. *)
Theorem encode_pads_with_block `{UnicodeData} (v : Z) (l : ErrorCorrectionLevel)
    (text : str) (r : list Z) :
  stream (DataEncoder.__init__ v l) text = Ok r →
  len r ≤ DataEncoder._get_capacity v l →
  ∃ bits body,
    DataEncoder.encode (DataEncoder.__init__ v l) text = Ok bits ∧
    r = body ++ [0; 0; 0; 0] ∧
    take (length r) bits = r ∧
    ∀ j, 0 ≤ j → len r + j < DataEncoder._get_capacity v l →
      bits !! Z.to_nat (len r + j)
      = DataEncoder.pad_block !! Z.to_nat (j `mod` 8).
Proof.
  intros Er Hfit.
  destruct (stream_terminator _ _ _ Er) as (body & Hbody).
  pose proof (capacity_range v l) as Hcap.
  destruct (pad_and_cut_spec (DataEncoder.__init__ v l) r) as (k & E & Hk & _);
    [simpl; lia|].
  simpl in E, Hk.
  eexists _, body. split.
  { rewrite encode_stream, Er. cbn [mbind outcome_bind]. exact E. }
  split; [done|]. unfold len in *. split.
  - rewrite take_take, Nat.min_l by lia. by rewrite take_app_length.
  - intros j Hj Hlt. rewrite lookup_take_lt by lia.
    rewrite lookup_app_r by lia.
    replace (Z.to_nat (Z.of_nat (length r) + j) - length r)%nat
      with (Z.to_nat j) by lia.
    rewrite pads_lookup by lia. f_equal.
    rewrite (Z2Nat.inj_mod j 8) by lia. done.
Qed.

Lemma encode_pads_with_block_witness :
  ∃ bits body,
    DataEncoder.encode (DataEncoder.__init__ 1 L) text_1 = Ok bits ∧
    [0; 0; 0; 1; 0; 0; 0; 0; 0; 0; 0; 0; 0; 1; 0; 0; 0; 1; 0; 0; 0; 0]
    = body ++ [0; 0; 0; 0] ∧
    take (length [0; 0; 0; 1; 0; 0; 0; 0; 0; 0; 0; 0; 0; 1; 0; 0; 0; 1;
                  0; 0; 0; 0]) bits
    = [0; 0; 0; 1; 0; 0; 0; 0; 0; 0; 0; 0; 0; 1; 0; 0; 0; 1; 0; 0; 0; 0] ∧
    ∀ j, 0 ≤ j →
      len [0; 0; 0; 1; 0; 0; 0; 0; 0; 0; 0; 0; 0; 1; 0; 0; 0; 1; 0; 0; 0; 0] + j
      < DataEncoder._get_capacity 1 L →
      bits !! Z.to_nat
                (len [0; 0; 0; 1; 0; 0; 0; 0; 0; 0; 0; 0; 0; 1; 0; 0; 0; 1;
                      0; 0; 0; 0] + j)
      = DataEncoder.pad_block !! Z.to_nat (j `mod` 8).
Proof.
  apply (encode_pads_with_block 1 L text_1); [reflexivity|].
  vm_compute. discriminate.
Defined.

(** ** The function-pattern predicate *)

Lemma function_pattern_iff (self : MatrixConstructor.t) (x y : Z) :
  MatrixConstructor._is_function_pattern self x y = true ↔
  x = 6 ∨ y = 6 ∨ (x ≤ 8 ∧ y ≤ 8)
  ∨ (MatrixConstructor.size self - 8 ≤ x ∧ y ≤ 8)
  ∨ (x ≤ 8 ∧ MatrixConstructor.size self - 8 ≤ y).
Proof.
  unfold MatrixConstructor._is_function_pattern.
  zbool; split; (done || lia || tauto || (intros; lia)).
Qed.

Lemma not_function_pattern (self : MatrixConstructor.t) (x y : Z) :
  MatrixConstructor._is_function_pattern self x y = false →
  x ≠ 6 ∧ y ≠ 6 ∧ ¬ (x ≤ 8 ∧ y ≤ 8)
  ∧ ¬ (MatrixConstructor.size self - 8 ≤ x ∧ y ≤ 8)
  ∧ ¬ (x ≤ 8 ∧ MatrixConstructor.size self - 8 ≤ y).
Proof.
  intros E. pose proof (function_pattern_iff self x y) as Hiff.
  rewrite E in Hiff. destruct Hiff as [_ Hiff].
  repeat split; intros ?; by discriminate Hiff; tauto.
Qed.

(** X11: the function-pattern predicate holds exactly on row 6, column 6,
    the 9x9 square in the top-left corner, the 8 columns by 9 rows in the
    top-right corner and the 9 columns by 8 rows in the bottom-left corner
    (the test of the finder blocks adds nothing to these); it is symmetric
    under exchanging rows and columns. *)
Theorem function_pattern_region (self : MatrixConstructor.t) (x y : Z) :
  (MatrixConstructor._is_function_pattern self x y = true ↔
     x = 6 ∨ y = 6 ∨ (x ≤ 8 ∧ y ≤ 8)
     ∨ (MatrixConstructor.size self - 8 ≤ x ∧ y ≤ 8)
     ∨ (x ≤ 8 ∧ MatrixConstructor.size self - 8 ≤ y)) ∧
  MatrixConstructor._is_function_pattern self x y
  = MatrixConstructor._is_function_pattern self y x.
Proof.
  split; [apply function_pattern_iff|].
  unfold MatrixConstructor._is_function_pattern. zbool.
Qed.

(** ** The steps of build_matrix on any grid *)

Ltac unfold_stamps :=
  unfold format_step, dark_module_step, timing_step, alignment_step,
    alignment_origin, finder_step, stamp, in_block, format_cell.

Section Steps.
Import MatrixConstructor.
Variable self : MatrixConstructor.t.
Hypothesis version_pos : 1 ≤ version self.
Hypothesis size_eq : size self = (version self - 1) * 4 + 21.

(** Outside the function patterns the first five steps change a cell only
    through the alignment block. *)
Lemma patterns_unreserved (x y : Z) (b : bool) :
  0 ≤ x < size self → 0 ≤ y < size self →
  _is_function_pattern self x y = false →
  format_step x y
    (dark_module_step (version self) x y
       (timing_step (size self) x y
          (alignment_step (version self) (size self) x y
             (finder_step (size self) x y b))))
  = alignment_step (version self) (size self) x y b.
Proof.
  intros Hx Hy (? & ? & ? & ? & ?)%not_function_pattern.
  unfold_stamps.
  destruct (version self =? 1), (version self <=? 6);
    repeat (case_bool_decide; try lia); done.
Qed.

Lemma build_step_unreserved (data : list Z) (x y : Z) (b : bool) :
  0 ≤ x < size self → 0 ≤ y < size self →
  _is_function_pattern self x y = false →
  build_step self data x y b
  = xorb (if bit_index_of self x y <? len data
          then bool_of_int (default 0 (data !! Z.to_nat (bit_index_of self x y)))
          else alignment_step (version self) (size self) x y b)
         ((x + y) `mod` 3 =? 0).
Proof.
  intros Hx Hy Efp. unfold build_step, mask_step, data_step.
  rewrite Efp. cbn [negb andb]. rewrite patterns_unreserved by done.
  destruct ((x + y) `mod` 3 =? 0); [|by rewrite xorb_false_r].
  by rewrite xorb_true_r.
Qed.

Lemma build_step_timing_row (data : list Z) (x : Z) (b : bool) :
  9 ≤ x ≤ size self - 9 →
  build_step self data x 6 b = (x `mod` 2 =? 0).
Proof.
  intros Hx. unfold build_step, mask_step, data_step.
  rewrite (proj2 (function_pattern_iff self x 6)) by lia. cbn [negb andb].
  unfold_stamps.
  destruct (version self =? 1), (version self <=? 6);
    repeat (case_bool_decide; try lia); done.
Qed.

Lemma build_step_timing_column (data : list Z) (y : Z) (b : bool) :
  8 ≤ y ≤ size self - 9 →
  build_step self data 6 y b = (y `mod` 2 =? 0).
Proof.
  intros Hy. unfold build_step, mask_step, data_step.
  rewrite (proj2 (function_pattern_iff self 6 y)) by lia. cbn [negb andb].
  unfold_stamps.
  destruct (version self =? 1), (version self <=? 6);
    repeat (case_bool_decide; try lia); done.
Qed.

Lemma build_step_format (data : list Z) (x y : Z) (b : bool) :
  format_cell x y = true → build_step self data x y b = false.
Proof.
  intros Hf. unfold build_step, mask_step, data_step.
  assert (Hxy : y = 8 ∧ (0 ≤ x ≤ 5 ∨ x = 7) ∨ x = 8 ∧ 0 ≤ y ≤ 6).
  { unfold format_cell in Hf. by apply bool_decide_eq_true in Hf. }
  rewrite (proj2 (function_pattern_iff self x y)) by lia. cbn [negb andb].
  unfold format_step, stamp. by rewrite Hf.
Qed.

Lemma build_step_twice (data : list Z) (x y : Z) (b : bool) :
  0 ≤ x < size self → 0 ≤ y < size self →
  build_step self data x y (build_step self data x y b)
  = if drifts self data x y then negb (build_step self data x y b)
    else build_step self data x y b.
Proof.
  intros Hx Hy. unfold drifts.
  destruct (_is_function_pattern self x y) eqn:Efp.
  { cbn [negb andb]. apply build_step_idempotent. by left. }
  cbn [negb andb].
  destruct (Z.leb_spec (len data) (bit_index_of self x y)) as [Hge|Hlt].
  2:{ cbn [andb]. apply build_step_idempotent. by right. }
  cbn [andb]. rewrite !build_step_unreserved by done.
  rewrite (proj2 (Z.ltb_ge _ _)) by done.
  unfold alignment_step, stamp.
  destruct (Z.eqb_spec (version self) 1) as [E1|E1].
  - rewrite (proj2 (Z.leb_gt 2 _)) by lia. cbn [negb andb].
    by destruct ((x + y) `mod` 3 =? 0), b.
  - rewrite (proj2 (Z.leb_le 2 _)) by lia. cbn [andb].
    destruct (in_block _ _ _ _ _); cbn [negb andb]; [done|].
    by destruct ((x + y) `mod` 3 =? 0), b.
Qed.

Lemma build_step_thrice (data : list Z) (x y : Z) (b : bool) :
  0 ≤ x < size self → 0 ≤ y < size self →
  build_step self data x y
    (build_step self data x y (build_step self data x y b))
  = build_step self data x y b.
Proof.
  intros Hx Hy. rewrite (build_step_twice data x y (build_step _ _ _ _ b)) by done.
  rewrite build_step_twice by done.
  destruct (drifts self data x y); [apply negb_involutive|done].
Qed.

(** A reserved cell outside the finder blocks, the timing lines and the
    dark module is light after the seven steps when it was light before. *)
Lemma build_step_reserved_light (data : list Z) (x y : Z) :
  0 ≤ x < size self → 0 ≤ y < size self →
  _is_function_pattern self x y = true →
  ¬ (x < 7 ∧ y < 7) → ¬ (size self - 7 ≤ x ∧ y < 7) →
  ¬ (x < 7 ∧ size self - 7 ≤ y) →
  ¬ (y = 6 ∧ 9 ≤ x ≤ size self - 9) → ¬ (x = 6 ∧ 8 ≤ y ≤ size self - 9) →
  ¬ (x = 8 ∧ y = 4 * version self + 9) →
  build_step self data x y false = false.
Proof.
  intros Hx Hy Efp H1 H2 H3 H4 H5 H6.
  pose proof (proj1 (function_pattern_iff self x y) Efp) as Hfp.
  unfold build_step, mask_step, data_step. rewrite Efp. cbn [negb andb].
  unfold format_step, stamp at 1.
  destruct (format_cell x y) eqn:Ef; [done|].
  apply bool_decide_eq_false in Ef.
  unfold dark_module_step, timing_step, finder_step, stamp.
  rewrite (bool_decide_eq_false_2 (x = 8 ∧ _)) by done.
  rewrite (bool_decide_eq_false_2 (x = 6 ∧ _)) by (clear - H5; lia).
  rewrite (bool_decide_eq_false_2 (y = 6 ∧ _)) by (clear - H4 Ef Hx; lia).
  assert (F1 : in_block 0 (size self - 7) 7 x y = false)
    by (apply bool_decide_eq_false_2; clear - H3 Hx Hy; lia).
  assert (F2 : in_block (size self - 7) 0 7 x y = false)
    by (apply bool_decide_eq_false_2; clear - H2 Hx Hy; lia).
  assert (F3 : in_block 0 0 7 x y = false)
    by (apply bool_decide_eq_false_2; clear - H1 Hx Hy; lia).
  rewrite F1, F2, F3. unfold alignment_step, alignment_origin, stamp.
  destruct (Z.eqb_spec (version self) 1) as [E1|E1]; [done|].
  assert (Hs : 25 ≤ size self) by lia.
  destruct (version self <=? 6).
  - unfold in_block. rewrite bool_decide_eq_false_2; [done|].
    clear - Hfp Hs. lia.
  - unfold in_block. rewrite bool_decide_eq_false_2; [done|].
    clear - Hfp Hs. lia.
Qed.

End Steps.

(** X12: on every grid of a positive version the finder step returns, and
    running it again changes nothing; a cell outside the three 7x7 corner
    blocks keeps its value. *)
Theorem add_finder_patterns_idempotent (self : MatrixConstructor.t) (m : grid) :
  1 ≤ MatrixConstructor.version self →
  MatrixConstructor.size self = (MatrixConstructor.version self - 1) * 4 + 21 →
  grid_wf (MatrixConstructor.size self) m →
  ∃ m', MatrixConstructor._add_finder_patterns self m = Ok m' ∧
        MatrixConstructor._add_finder_patterns self m' = Ok m' ∧
        ∀ x y, 0 ≤ x < MatrixConstructor.size self →
               0 ≤ y < MatrixConstructor.size self →
          ¬ (x < 7 ∧ y < 7) →
          ¬ (MatrixConstructor.size self - 7 ≤ x ∧ y < 7) →
          ¬ (x < 7 ∧ MatrixConstructor.size self - 7 ≤ y) →
          matrix_get m' y x = matrix_get m y x.
Proof.
  intros Hv Hsize Hm.
  destruct (add_finder_patterns_acts self Hv Hsize m Hm) as (m1 & E1 & Hm1 & Hc1).
  destruct (add_finder_patterns_acts self Hv Hsize m1 Hm1) as (m2 & E2 & Hm2 & Hc2).
  exists m1. split; [done|]. split.
  - rewrite E2. f_equal. apply (grid_ext (MatrixConstructor.size self)); [done..|].
    intros x y Hx Hy. rewrite Hc2, Hc1 by done.
    unfold finder_step, stamp, in_block.
    repeat (case_bool_decide; try lia); done.
  - intros x y Hx Hy H1 H2 H3.
    rewrite !(matrix_get_in (MatrixConstructor.size self)) by done.
    rewrite Hc1 by done. unfold finder_step, stamp, in_block.
    repeat (case_bool_decide; try lia); done.
Qed.

Lemma add_finder_patterns_idempotent_witness :
  ∃ m', MatrixConstructor._add_finder_patterns v2_constructor
          (MatrixConstructor.blank 25) = Ok m' ∧
        MatrixConstructor._add_finder_patterns v2_constructor m' = Ok m' ∧
        ∀ x y, 0 ≤ x < MatrixConstructor.size v2_constructor →
               0 ≤ y < MatrixConstructor.size v2_constructor →
          ¬ (x < 7 ∧ y < 7) →
          ¬ (MatrixConstructor.size v2_constructor - 7 ≤ x ∧ y < 7) →
          ¬ (x < 7 ∧ MatrixConstructor.size v2_constructor - 7 ≤ y) →
          matrix_get m' y x = matrix_get (MatrixConstructor.blank 25) y x.
Proof.
  apply (add_finder_patterns_idempotent v2_constructor
           (MatrixConstructor.blank 25)); [simpl; lia|reflexivity|].
  apply (blank_wf 25).
Defined.

(** X13: the alignment step. At version 1 it returns the grid unchanged.
    At a version above 1 the table of positions holds one centre (c, c),
    with c = size - 7 up to version 6 and size - 9 above; the guard
    against the finder corners never fires, the 5x5 block around the
    centre receives the alignment pattern (dark ring, light inside, dark
    centre) and every other cell keeps its value. *)
Theorem add_alignment_patterns_block (self : MatrixConstructor.t) (m : grid) :
  1 ≤ MatrixConstructor.version self →
  MatrixConstructor.size self = (MatrixConstructor.version self - 1) * 4 + 21 →
  grid_wf (MatrixConstructor.size self) m →
  (MatrixConstructor.version self = 1 →
   MatrixConstructor._add_alignment_patterns self m = Ok m) ∧
  (2 ≤ MatrixConstructor.version self →
   let c := if MatrixConstructor.version self <=? 6
            then MatrixConstructor.size self - 7
            else MatrixConstructor.size self - 9 in
   MatrixConstructor._get_alignment_positions self = [(c, c)] ∧
   ∃ m', MatrixConstructor._add_alignment_patterns self m = Ok m' ∧
     (∀ i j, 0 ≤ i < 5 → 0 ≤ j < 5 →
        matrix_get m' (c + j - 2) (c + i - 2) = Ok (align_dark i j)) ∧
     (∀ x y, 0 ≤ x < MatrixConstructor.size self →
             0 ≤ y < MatrixConstructor.size self →
        ¬ (c - 2 ≤ x ≤ c + 2 ∧ c - 2 ≤ y ≤ c + 2) →
        matrix_get m' y x = matrix_get m y x)).
Proof.
  intros Hv Hsize Hm. split.
  - intros E. unfold MatrixConstructor._add_alignment_patterns.
    by rewrite E.
  - intros Hv2. cbv zeta. split.
    { unfold MatrixConstructor._get_alignment_positions.
      rewrite (proj2 (Z.leb_le 2 _)) by done. cbn [andb].
      by destruct (MatrixConstructor.version self <=? 6). }
    destruct (add_alignment_patterns_acts self Hv Hsize m Hm)
      as (m' & E & Hm' & Hc).
    exists m'. split; [done|].
    assert (Hne : (MatrixConstructor.version self =? 1) = false)
      by (apply Z.eqb_neq; lia).
    split.
    + intros i j Hi Hj.
      destruct (MatrixConstructor.version self <=? 6) eqn:E6.
      * rewrite (matrix_get_in (MatrixConstructor.size self)) by (done || lia).
        rewrite Hc by lia. unfold alignment_step, alignment_origin, stamp, in_block.
        rewrite Hne, E6. rewrite bool_decide_eq_true_2 by lia.
        do 2 f_equal; lia.
      * rewrite (matrix_get_in (MatrixConstructor.size self)) by (done || lia).
        rewrite Hc by lia. unfold alignment_step, alignment_origin, stamp, in_block.
        rewrite Hne, E6. rewrite bool_decide_eq_true_2 by lia.
        do 2 f_equal; lia.
    + intros x y Hx Hy Hout.
      rewrite !(matrix_get_in (MatrixConstructor.size self)) by done.
      rewrite Hc by done. unfold alignment_step, alignment_origin, stamp, in_block.
      rewrite Hne.
      destruct (MatrixConstructor.version self <=? 6);
        by rewrite bool_decide_eq_false_2 by lia.
Qed.

Lemma add_alignment_patterns_block_witness :
  (MatrixConstructor.version v2_constructor = 1 →
   MatrixConstructor._add_alignment_patterns v2_constructor
     (MatrixConstructor.blank 25) = Ok (MatrixConstructor.blank 25)) ∧
  (2 ≤ MatrixConstructor.version v2_constructor →
   MatrixConstructor._get_alignment_positions v2_constructor = [(18, 18)] ∧
   ∃ m', MatrixConstructor._add_alignment_patterns v2_constructor
           (MatrixConstructor.blank 25) = Ok m' ∧
     (∀ i j, 0 ≤ i < 5 → 0 ≤ j < 5 →
        matrix_get m' (18 + j - 2) (18 + i - 2) = Ok (align_dark i j)) ∧
     (∀ x y, 0 ≤ x < MatrixConstructor.size v2_constructor →
             0 ≤ y < MatrixConstructor.size v2_constructor →
        ¬ (18 - 2 ≤ x ≤ 18 + 2 ∧ 18 - 2 ≤ y ≤ 18 + 2) →
        matrix_get m' y x = matrix_get (MatrixConstructor.blank 25) y x)).
Proof.
  apply (add_alignment_patterns_block v2_constructor
           (MatrixConstructor.blank 25)); [simpl; lia|reflexivity|].
  apply (blank_wf 25).
Defined.

(** X14: the format step on any grid of a positive version: it returns,
    the fourteen cells at row 8, columns 0 to 5 and 7, and at column 8,
    rows 0 to 6, are light afterwards, and every other cell, row 8 of
    column 6 and row 8 of column 8 among them, keeps its value. *)
Theorem add_format_info_cells (self : MatrixConstructor.t) (m : grid) :
  1 ≤ MatrixConstructor.version self →
  MatrixConstructor.size self = (MatrixConstructor.version self - 1) * 4 + 21 →
  grid_wf (MatrixConstructor.size self) m →
  ∃ m', MatrixConstructor._add_format_info self m = Ok m' ∧
    ∀ x y, 0 ≤ x < MatrixConstructor.size self →
           0 ≤ y < MatrixConstructor.size self →
      if bool_decide (y = 8 ∧ (x ≤ 5 ∨ x = 7) ∨ x = 8 ∧ y ≤ 6)
      then matrix_get m' y x = Ok false
      else matrix_get m' y x = matrix_get m y x.
Proof.
  intros Hv Hsize Hm.
  destruct (add_format_info_acts self Hv Hsize m Hm) as (m' & E & Hm' & Hc).
  exists m'. split; [done|]. intros x y Hx Hy.
  rewrite !(matrix_get_in (MatrixConstructor.size self)) by done.
  rewrite Hc by done. unfold format_step, stamp, format_cell.
  repeat (case_bool_decide; try lia); done.
Qed.

Lemma add_format_info_cells_witness :
  ∃ m', MatrixConstructor._add_format_info v1_constructor grid_dark_at_8_8
        = Ok m' ∧
    ∀ x y, 0 ≤ x < MatrixConstructor.size v1_constructor →
           0 ≤ y < MatrixConstructor.size v1_constructor →
      if bool_decide (y = 8 ∧ (x ≤ 5 ∨ x = 7) ∨ x = 8 ∧ y ≤ 6)
      then matrix_get m' y x = Ok false
      else matrix_get m' y x = matrix_get grid_dark_at_8_8 y x.
Proof.
  apply (add_format_info_cells v1_constructor grid_dark_at_8_8);
    [simpl; lia|reflexivity|].
  split; [reflexivity|]. simpl. repeat constructor.
Defined.

(** X15: the mask step on any grid: it returns, and it inverts exactly the
    cells outside the function patterns whose column and row add up to a
    multiple of 3. *)
Theorem apply_mask_cells (self : MatrixConstructor.t) (m : grid) :
  grid_wf (MatrixConstructor.size self) m →
  ∃ m', MatrixConstructor._apply_mask self m = Ok m' ∧
    ∀ x y b, 0 ≤ x < MatrixConstructor.size self →
             0 ≤ y < MatrixConstructor.size self →
      matrix_get m y x = Ok b →
      matrix_get m' y x
      = Ok (if negb (MatrixConstructor._is_function_pattern self x y)
               && ((x + y) `mod` 3 =? 0)
            then negb b else b).
Proof.
  intros Hm. destruct (apply_mask_acts self m Hm) as (m' & E & Hm' & Hc).
  exists m'. split; [done|]. intros x y b Hx Hy.
  rewrite !(matrix_get_in (MatrixConstructor.size self)) by done.
  intros [= <-]. by rewrite Hc.
Qed.

Lemma apply_mask_cells_witness :
  ∃ m', MatrixConstructor._apply_mask v1_constructor
          (MatrixConstructor.blank 21) = Ok m' ∧
    ∀ x y b, 0 ≤ x < MatrixConstructor.size v1_constructor →
             0 ≤ y < MatrixConstructor.size v1_constructor →
      matrix_get (MatrixConstructor.blank 21) y x = Ok b →
      matrix_get m' y x
      = Ok (if negb (MatrixConstructor._is_function_pattern v1_constructor x y)
               && ((x + y) `mod` 3 =? 0)
            then negb b else b).
Proof.
  apply (apply_mask_cells v1_constructor (MatrixConstructor.blank 21)).
  apply (blank_wf 21).
Defined.

(** ** The grid generate returns *)

(** The grid [generate] leaves in the store, cell by cell. *)
Lemma generate_cells `{UnicodeData} (q : QRCode.t) (text : str)
    (σ : store) :
  instance_ok q σ → encodable text = true →
  let mc := QRCode.matrix_constructor q in
  ∃ bits m g,
    DataEncoder.encode (QRCode.encoder q) text = Ok bits ∧
    σ !! MatrixConstructor.matrix mc = Some m ∧
    grid_wf (MatrixConstructor.size mc) m ∧
    QRCode.generate q text σ
    = Ok (MatrixConstructor.matrix mc, <[MatrixConstructor.matrix mc := g]> σ) ∧
    grid_wf (MatrixConstructor.size mc) g ∧
    ∀ x y, 0 ≤ x < MatrixConstructor.size mc →
           0 ≤ y < MatrixConstructor.size mc →
      matrix_get m y x = Ok (cell m x y) ∧
      matrix_get g y x
      = Ok (build_step mc
              (ReedSolomon.encode (QRCode.error_corrector q) bits
                 (QRCode.version q) (QRCode.error_correction q))
              x y (cell m x y)).
Proof.
  intros Hq Htext mc.
  destruct (generate_spec q text σ Hq Htext)
    as (bits & m & g & Ebits & Hm & E & Hwf & _ & Hc).
  assert (Hwfm : grid_wf (MatrixConstructor.size mc) m).
  { destruct Hq as (_ & _ & _ & m0 & Hm0 & Hwf0). fold mc in Hm0, Hwf0.
    fold mc in Hm. by assert (m0 = m) as <- by congruence. }
  exists bits, m, g. repeat (split; [done|]). intros x y Hx Hy.
  rewrite !(matrix_get_in (MatrixConstructor.size mc)) by done.
  split; [done|]. f_equal. by apply Hc.
Qed.

(** X16: in the grid [generate] returns, whatever the grid held before the
    call, row 6 from column 9 and column 6 from row 8, up to index
    size - 9, alternate with the dark cells at the even indices; the cell
    of row 6 at column 8, where the timing row starts, is light, the
    format step having overwritten it. *)
Theorem generate_timing_patterns `{UnicodeData} (q : QRCode.t) (text : str)
    (σ : store) :
  instance_ok q σ → encodable text = true →
  let mc := QRCode.matrix_constructor q in
  ∃ r σ' g,
    QRCode.generate q text σ = Ok (r, σ') ∧ σ' !! r = Some g ∧
    (∀ x, 9 ≤ x ≤ MatrixConstructor.size mc - 9 →
       matrix_get g 6 x = Ok (x `mod` 2 =? 0)) ∧
    (∀ y, 8 ≤ y ≤ MatrixConstructor.size mc - 9 →
       matrix_get g y 6 = Ok (y `mod` 2 =? 0)) ∧
    matrix_get g 6 8 = Ok false.
Proof.
  intros Hq Htext mc.
  destruct (generate_cells q text σ Hq Htext)
    as (bits & m & g & _ & _ & _ & E & _ & Hc).
  destruct Hq as (_ & Hv & Hsize & _). fold mc in Hv, Hsize, E, Hc.
  eexists _, _, g. split; [exact E|]. split; [apply lookup_insert_eq|].
  split; [|split].
  - intros x Hx. destruct (Hc x 6) as [_ ->]; [lia..|].
    by rewrite build_step_timing_row.
  - intros y Hy. destruct (Hc 6 y) as [_ ->]; [lia..|].
    by rewrite build_step_timing_column.
  - destruct (Hc 8 6) as [_ ->]; [lia..|]. by rewrite build_step_format.
Qed.

Lemma generate_timing_patterns_witness :
  ∃ r σ' g,
    QRCode.generate demo_instance text_1 demo_store = Ok (r, σ') ∧
    σ' !! r = Some g ∧
    (∀ x, 9 ≤ x ≤ MatrixConstructor.size
                     (QRCode.matrix_constructor demo_instance) - 9 →
       matrix_get g 6 x = Ok (x `mod` 2 =? 0)) ∧
    (∀ y, 8 ≤ y ≤ MatrixConstructor.size
                     (QRCode.matrix_constructor demo_instance) - 9 →
       matrix_get g y 6 = Ok (y `mod` 2 =? 0)) ∧
    matrix_get g 6 8 = Ok false.
Proof.
  apply (generate_timing_patterns demo_instance text_1 demo_store);
    [|reflexivity].
  apply (instance_init_ok 1 M ∅). lia.
Defined.

(** X17: in the grid [generate] returns a cell outside the function
    patterns that receives a bit holds that bit of the output of the
    redundancy stage, inverted when column and row add up to a multiple of
    3: the mask step is the only step that touches the cell after the
    data step. *)
Theorem generate_data_cells `{UnicodeData} (q : QRCode.t) (text : str)
    (σ : store) :
  instance_ok q σ → encodable text = true →
  let mc := QRCode.matrix_constructor q in
  ∃ r σ' g bits,
    QRCode.generate q text σ = Ok (r, σ') ∧ σ' !! r = Some g ∧
    DataEncoder.encode (QRCode.encoder q) text = Ok bits ∧
    ∀ x y bit, 0 ≤ x < MatrixConstructor.size mc →
               0 ≤ y < MatrixConstructor.size mc →
      MatrixConstructor._is_function_pattern mc x y = false →
      getitem (ReedSolomon.encode (QRCode.error_corrector q) bits
                 (QRCode.version q) (QRCode.error_correction q))
              (bit_index_of mc x y) = Ok bit →
      matrix_get g y x = Ok (xorb (bool_of_int bit) ((x + y) `mod` 3 =? 0)).
Proof.
  intros Hq Htext mc.
  destruct (generate_cells q text σ Hq Htext)
    as (bits & m & g & Ebits & _ & _ & E & _ & Hc).
  destruct Hq as (_ & Hv & Hsize & _). fold mc in Hv, Hsize, E, Hc.
  eexists _, _, g, bits. split; [exact E|]. split; [apply lookup_insert_eq|].
  split; [done|]. intros x y bit Hx Hy Efp Hbit.
  rewrite (proj2 (Hc x y Hx Hy)), build_step_unreserved by done.
  apply getitem_nonneg_inv in Hbit as [Hlt Hbit];
    [|apply bits_before_nonneg].
  rewrite (proj2 (Z.ltb_lt _ _)) by done. by rewrite Hbit.
Qed.

Lemma generate_data_cells_witness :
  ∃ r σ' g bits,
    QRCode.generate demo_instance text_1 demo_store = Ok (r, σ') ∧
    σ' !! r = Some g ∧
    DataEncoder.encode (QRCode.encoder demo_instance) text_1 = Ok bits ∧
    ∀ x y bit,
      0 ≤ x < MatrixConstructor.size (QRCode.matrix_constructor demo_instance) →
      0 ≤ y < MatrixConstructor.size (QRCode.matrix_constructor demo_instance) →
      MatrixConstructor._is_function_pattern
        (QRCode.matrix_constructor demo_instance) x y = false →
      getitem (ReedSolomon.encode (QRCode.error_corrector demo_instance) bits
                 (QRCode.version demo_instance)
                 (QRCode.error_correction demo_instance))
              (bit_index_of (QRCode.matrix_constructor demo_instance) x y)
      = Ok bit →
      matrix_get g y x = Ok (xorb (bool_of_int bit) ((x + y) `mod` 3 =? 0)).
Proof.
  apply (generate_data_cells demo_instance text_1 demo_store); [|reflexivity].
  apply (instance_init_ok 1 M ∅). lia.
Defined.

(** ** The first grid of a fresh instance *)

Lemma cell_blank (size x y : Z) :
  0 ≤ x < size → 0 ≤ y < size → cell (MatrixConstructor.blank size) x y = false.
Proof.
  intros Hx Hy. pose proof (blank_wf size) as Hwf.
  destruct (grid_wf_row _ _ _ Hwf Hy) as (row & Hrow & Hlen).
  pose proof (cell_lookup _ _ _ _ _ Hwf Hx Hy Hrow) as Hcell.
  unfold MatrixConstructor.blank in Hrow.
  rewrite list_lookup_fmap in Hrow.
  destruct (range 0 size !! Z.to_nat y); [|done].
  injection Hrow as <-.
  by apply lookup_replicate in Hcell as [? _].
Qed.

Lemma generate_fresh_cells `{UnicodeData} (v : Z) (l : ErrorCorrectionLevel)
    (text : str) (σ : store) :
  1 ≤ v → encodable text = true →
  let q := (QRCode.__init__ v l σ).1 in
  let mc := QRCode.matrix_constructor q in
  MatrixConstructor.version mc = v ∧
  MatrixConstructor.size mc = 4 * v + 17 ∧
  QRCode.size q = 4 * v + 17 ∧
  ∃ bits r σ' g,
    DataEncoder.encode (DataEncoder.__init__ v l) text = Ok bits ∧
    QRCode.generate q text (QRCode.__init__ v l σ).2 = Ok (r, σ') ∧
    σ' !! r = Some g ∧
    grid_wf (4 * v + 17) g ∧
    ∀ x y, 0 ≤ x < 4 * v + 17 → 0 ≤ y < 4 * v + 17 →
      matrix_get g y x
      = Ok (build_step mc (ReedSolomon.encode ReedSolomon.new bits v l)
              x y false).
Proof.
  intros Hv Htext q mc.
  pose proof (instance_init_ok v l σ Hv) as Hq. fold q in Hq.
  assert (Hmc : MatrixConstructor.version mc = v
                ∧ MatrixConstructor.size mc = 4 * v + 17
                ∧ QRCode.size q = 4 * v + 17
                ∧ (QRCode.__init__ v l σ).2 !! MatrixConstructor.matrix mc
                  = Some (MatrixConstructor.blank (4 * v + 17))
                ∧ QRCode.encoder q = DataEncoder.__init__ v l
                ∧ QRCode.error_corrector q = ReedSolomon.new
                ∧ QRCode.version q = v ∧ QRCode.error_correction q = l).
  { unfold mc, q, QRCode.__init__, MatrixConstructor.__init__,
      QRCode._calculate_size. cbn.
    replace ((v - 1) * 4 + 21) with (4 * v + 17) by lia.
    repeat (split; [done || lia|]). split; [apply lookup_insert_eq|done]. }
  destruct Hmc as (Hver & Hsize & Hqsize & Hblank & Henc & Hrs & Hqv & Hql).
  repeat (split; [done|]).
  destruct (generate_cells q text _ Hq Htext)
    as (bits & m & g & Ebits & Hm & Hwfm & E & Hwf & Hc).
  fold mc in Hm, Hwfm, E, Hwf, Hc.
  assert (m = MatrixConstructor.blank (4 * v + 17)) as -> by congruence.
  rewrite Henc in Ebits. rewrite Hrs, Hqv, Hql in Hc. rewrite Hsize in Hwf, Hc.
  eexists bits, (MatrixConstructor.matrix mc), _, g.
  split; [done|]. split; [exact E|]. split; [apply lookup_insert_eq|].
  split; [done|]. intros x y Hx Hy.
  destruct (Hc x y Hx Hy) as [_ ->]. by rewrite cell_blank.
Qed.

(** X18: on a text the encoder accepts, [generate] on a freshly
    constructed instance of a positive version returns a square grid whose
    number of rows, and of cells in every row, is the [size] attribute of
    the instance, 4 * version + 17. *)
Theorem generate_grid_shape `{UnicodeData} (v : Z) (l : ErrorCorrectionLevel)
    (text : str) (σ : store) :
  1 ≤ v → encodable text = true →
  let q := (QRCode.__init__ v l σ).1 in
  ∃ r σ' g,
    QRCode.generate q text (QRCode.__init__ v l σ).2 = Ok (r, σ') ∧
    σ' !! r = Some g ∧
    QRCode.size q = 4 * v + 17 ∧
    len g = QRCode.size q ∧
    Forall (fun row => len row = QRCode.size q) g.
Proof.
  intros Hv Htext q.
  destruct (generate_fresh_cells v l text σ Hv Htext)
    as (_ & _ & Hqsize & bits & r & σ' & g & _ & E & Hg & [Hlen Hrows] & _).
  fold q in Hqsize, E. exists r, σ', g. repeat (split; [done|]).
  rewrite Hqsize. unfold len. split; [lia|].
  eapply Forall_impl; [exact Hrows|]. simpl. lia.
Qed.

Lemma generate_grid_shape_witness :
  ∃ r σ' g,
    QRCode.generate (QRCode.__init__ 2 Q ∅).1 text_HELLO
      (QRCode.__init__ 2 Q ∅).2 = Ok (r, σ') ∧
    σ' !! r = Some g ∧
    QRCode.size (QRCode.__init__ 2 Q ∅).1 = 4 * 2 + 17 ∧
    len g = QRCode.size (QRCode.__init__ 2 Q ∅).1 ∧
    Forall (fun row => len row = QRCode.size (QRCode.__init__ 2 Q ∅).1) g.
Proof.
  apply (generate_grid_shape 2 Q text_HELLO ∅); [lia|reflexivity].
Defined.

(** X19: in the first grid of a fresh instance every reserved cell outside
    the three finder blocks, the two timing lines and the dark module is
    light: the separators around the finder blocks and the whole format
    area, row 8 of column 8 included, which no step writes, and the cells
    the format step sets. *)
Theorem generate_fresh_reserved_light `{UnicodeData} (v : Z)
    (l : ErrorCorrectionLevel) (text : str) (σ : store) :
  1 ≤ v → encodable text = true →
  let q := (QRCode.__init__ v l σ).1 in
  let mc := QRCode.matrix_constructor q in
  let size := 4 * v + 17 in
  ∃ r σ' g,
    QRCode.generate q text (QRCode.__init__ v l σ).2 = Ok (r, σ') ∧
    σ' !! r = Some g ∧
    ∀ x y, 0 ≤ x < size → 0 ≤ y < size →
      MatrixConstructor._is_function_pattern mc x y = true →
      ¬ (x < 7 ∧ y < 7) → ¬ (size - 7 ≤ x ∧ y < 7) → ¬ (x < 7 ∧ size - 7 ≤ y) →
      ¬ (y = 6 ∧ 9 ≤ x ≤ size - 9) → ¬ (x = 6 ∧ 8 ≤ y ≤ size - 9) →
      ¬ (x = 8 ∧ y = 4 * v + 9) →
      matrix_get g y x = Ok false.
Proof.
  intros Hv Htext q mc size.
  destruct (generate_fresh_cells v l text σ Hv Htext)
    as (Hver & Hsize & _ & bits & r & σ' & g & _ & E & Hg & _ & Hc).
  fold q mc in Hver, Hsize, E, Hc. exists r, σ', g. repeat (split; [done|]).
  intros x y Hx Hy Efp H1 H2 H3 H4 H5 H6. rewrite Hc by done. f_equal.
  apply build_step_reserved_light; rewrite ?Hver, ?Hsize; (done || lia).
Qed.

Lemma generate_fresh_reserved_light_witness :
  ∃ r σ' g,
    QRCode.generate (QRCode.__init__ 1 M ∅).1 text_1
      (QRCode.__init__ 1 M ∅).2 = Ok (r, σ') ∧
    σ' !! r = Some g ∧
    ∀ x y, 0 ≤ x < 4 * 1 + 17 → 0 ≤ y < 4 * 1 + 17 →
      MatrixConstructor._is_function_pattern
        (QRCode.matrix_constructor (QRCode.__init__ 1 M ∅).1) x y = true →
      ¬ (x < 7 ∧ y < 7) → ¬ (4 * 1 + 17 - 7 ≤ x ∧ y < 7) →
      ¬ (x < 7 ∧ 4 * 1 + 17 - 7 ≤ y) →
      ¬ (y = 6 ∧ 9 ≤ x ≤ 4 * 1 + 17 - 9) → ¬ (x = 6 ∧ 8 ≤ y ≤ 4 * 1 + 17 - 9) →
      ¬ (x = 8 ∧ y = 4 * 1 + 9) →
      matrix_get g y x = Ok false.
Proof.
  apply (generate_fresh_reserved_light 1 M text_1 ∅); [lia|reflexivity].
Defined.

(** X20: in the first grid of a fresh instance a cell outside the function
    patterns that receives no bit shows the mask alone, dark exactly when
    column and row add up to a multiple of 3, unless it lies in the
    alignment block of a version above 1, where it shows the alignment
    pattern under the mask. *)
Theorem generate_fresh_unassigned_cells `{UnicodeData} (v : Z)
    (l : ErrorCorrectionLevel) (text : str) (σ : store) :
  1 ≤ v → encodable text = true →
  let q := (QRCode.__init__ v l σ).1 in
  let mc := QRCode.matrix_constructor q in
  let size := 4 * v + 17 in
  let o := if v <=? 6 then size - 9 else size - 11 in
  ∃ r σ' g bits,
    QRCode.generate q text (QRCode.__init__ v l σ).2 = Ok (r, σ') ∧
    σ' !! r = Some g ∧
    DataEncoder.encode (DataEncoder.__init__ v l) text = Ok bits ∧
    ∀ x y, 0 ≤ x < size → 0 ≤ y < size →
      MatrixConstructor._is_function_pattern mc x y = false →
      len (ReedSolomon.encode ReedSolomon.new bits v l) ≤ bit_index_of mc x y →
      matrix_get g y x
      = Ok (xorb (bool_decide (2 ≤ v ∧ o ≤ x < o + 5 ∧ o ≤ y < o + 5)
                  && align_dark (x - o) (y - o))
                 ((x + y) `mod` 3 =? 0)).
Proof.
  intros Hv Htext q mc size o.
  destruct (generate_fresh_cells v l text σ Hv Htext)
    as (Hver & Hsize & _ & bits & r & σ' & g & Ebits & E & Hg & _ & Hc).
  fold q mc in Hver, Hsize, E, Hc. exists r, σ', g, bits.
  repeat (split; [done|]).
  intros x y Hx Hy Efp Hidx. rewrite Hc by done. f_equal.
  rewrite build_step_unreserved by (rewrite ?Hver, ?Hsize; (done || lia)).
  rewrite (proj2 (Z.ltb_ge _ _)) by done. f_equal.
  rewrite Hver, Hsize. unfold alignment_step, alignment_origin, stamp, in_block.
  fold size. fold o.
  destruct (Z.eqb_spec v 1) as [->|Hne].
  - by rewrite bool_decide_eq_false_2 by lia.
  - case_bool_decide.
    + by rewrite bool_decide_eq_true_2 by lia.
    + by rewrite bool_decide_eq_false_2 by lia.
Qed.

Lemma generate_fresh_unassigned_cells_witness :
  ∃ r σ' g bits,
    QRCode.generate (QRCode.__init__ 2 M ∅).1 text_1
      (QRCode.__init__ 2 M ∅).2 = Ok (r, σ') ∧
    σ' !! r = Some g ∧
    DataEncoder.encode (DataEncoder.__init__ 2 M) text_1 = Ok bits ∧
    ∀ x y, 0 ≤ x < 4 * 2 + 17 → 0 ≤ y < 4 * 2 + 17 →
      MatrixConstructor._is_function_pattern
        (QRCode.matrix_constructor (QRCode.__init__ 2 M ∅).1) x y = false →
      len (ReedSolomon.encode ReedSolomon.new bits 2 M)
      ≤ bit_index_of (QRCode.matrix_constructor (QRCode.__init__ 2 M ∅).1) x y →
      matrix_get g y x
      = Ok (xorb (bool_decide (2 ≤ 2 ∧ 4 * 2 + 17 - 9 ≤ x < 4 * 2 + 17 - 9 + 5
                               ∧ 4 * 2 + 17 - 9 ≤ y < 4 * 2 + 17 - 9 + 5)
                  && align_dark (x - (4 * 2 + 17 - 9)) (y - (4 * 2 + 17 - 9)))
                 ((x + y) `mod` 3 =? 0)).
Proof.
  apply (generate_fresh_unassigned_cells 2 M text_1 ∅); [lia|reflexivity].
Defined.

(** ** Counting the cells of the scan *)

Lemma filter_none {A : Type} (P : A → Prop) `{∀ x, Decision (P x)}
    (l : list A) :
  (∀ x, x ∈ l → ¬ P x) → filter P l = [].
Proof.
  induction l as [|a l IH]; intros Hl; [done|].
  rewrite filter_cons_False by (apply Hl; by left).
  apply IH. intros x Hx. apply Hl. by right.
Qed.

Lemma filter_all {A : Type} (P : A → Prop) `{∀ x, Decision (P x)}
    (l : list A) :
  (∀ x, x ∈ l → P x) → filter P l = l.
Proof.
  induction l as [|a l IH]; intros Hl; [done|].
  rewrite filter_cons_True by (apply Hl; by left).
  f_equal. apply IH. intros x Hx. apply Hl. by right.
Qed.

Lemma range_split (lo mid hi : Z) :
  lo ≤ mid ≤ hi → range lo hi = range lo mid ++ range mid hi.
Proof.
  intros Hmid. unfold range.
  replace (hi - lo) with ((mid - lo) + (hi - mid)) by lia.
  rewrite seqZ_app by lia. do 2 f_equal. lia.
Qed.

Lemma length_range (lo hi : Z) : length (range lo hi) = Z.to_nat (hi - lo).
Proof. unfold range. apply length_seqZ. Qed.

(** The number of members of a range that satisfy a predicate which
    holds on one interval of it. *)
Lemma count_interval (P : Z → Prop) `{∀ x, Decision (P x)} (lo a b hi : Z) :
  lo ≤ a → a ≤ b → b ≤ hi →
  (∀ x, lo ≤ x < hi → P x ↔ a ≤ x < b) →
  length (filter P (range lo hi)) = Z.to_nat (b - a).
Proof.
  intros Ha Hab Hb HP.
  rewrite (range_split lo a hi), (range_split a b hi) by lia.
  rewrite !filter_app.
  rewrite (filter_none P (range lo a)), (filter_all P (range a b)),
    (filter_none P (range b hi)).
  - rewrite app_nil_r. apply length_range.
  - intros x Hx%elem_of_range. rewrite HP by lia. lia.
  - intros x Hx%elem_of_range. rewrite HP by lia. lia.
  - intros x Hx%elem_of_range. rewrite HP by lia. lia.
Qed.

Lemma pairs_app {A B : Type} (l1 l2 : list A) (k : list B) :
  pairs (l1 ++ l2) k = pairs l1 k ++ pairs l2 k.
Proof.
  induction l1 as [|a l1 IH]; simpl; [done|]. by rewrite IH, app_assoc.
Qed.

Lemma length_filter_row (P : Z * Z → Prop) `{∀ p, Decision (P p)}
    (y : Z) (C : list Z) :
  length (filter P ((y,.) <$> C)) = length (filter (fun x => P (y, x)) C).
Proof.
  induction C as [|x C IH]; [done|].
  rewrite fmap_cons, !filter_cons.
  destruct (decide (P (y, x))); simpl; by rewrite IH.
Qed.

Lemma length_filter_pairs (P : Z * Z → Prop) `{∀ p, Decision (P p)}
    (R C : list Z) (N : nat) :
  (∀ y, y ∈ R → length (filter (fun x => P (y, x)) C) = N) →
  length (filter P (pairs R C)) = (length R * N)%nat.
Proof.
  induction R as [|y R IH]; intros HN; [done|].
  simpl. rewrite filter_app, length_app, length_filter_row.
  rewrite HN by (by left). f_equal. apply IH. intros y' Hy'. apply HN.
  by right.
Qed.

(** A cell is met at position [k] of the cells that are not reserved
    exactly when [k] unreserved cells come before it. *)
Lemma filter_lookup_bits_before (r : Z * Z → bool) (l : list (Z * Z))
    (k : nat) (c : Z * Z) :
  NoDup l →
  filter (fun p => r p = false) l !! k = Some c
  ↔ c ∈ l ∧ r c = false ∧ bits_before r l c = Z.of_nat k.
Proof.
  intros Hl. revert k. induction Hl as [|c' l Hc' Hl IH]; intros k.
  { simpl. split; [done|]. by intros [?%elem_of_nil _]. }
  cbn [bits_before]. rewrite filter_cons.
  destruct (decide (c' = c)) as [->|Hne].
  - destruct (decide (r c = false)) as [Hr|Hr].
    + destruct k as [|k]; simpl.
      * split; [intros _|done]. split; [by left|done].
      * split.
        -- intros Hk. exfalso. apply Hc'.
           apply list_elem_of_lookup_2 in Hk.
           by apply list_elem_of_filter in Hk as [_ ?].
        -- intros (_ & _ & ?). lia.
    + split.
      * intros Hk. exfalso. apply Hc'.
        apply list_elem_of_lookup_2 in Hk.
        by apply list_elem_of_filter in Hk as [_ ?].
      * by intros (_ & ? & _).
  - destruct (decide (r c' = false)) as [Hr|Hr].
    + rewrite Hr. destruct k as [|k]; simpl.
      * split; [by intros [= ?]|].
        intros (_ & _ & Hb).
        pose proof (bits_before_nonneg r l c). lia.
      * rewrite IH. rewrite elem_of_cons. split.
        -- intros (? & ? & ?). split; [by right|]. split; [done|lia].
        -- intros ([?|?] & ? & ?); [congruence|].
           split; [done|]. split; [done|lia].
    + apply not_false_is_true in Hr. rewrite Hr.
      rewrite IH, elem_of_cons. split.
      * intros (? & ? & ?). split; [by right|]. split; [done|lia].
      * intros ([?|?] & ? & ?); [congruence|]. split; [done|]. split; [done|lia].
Qed.

Lemma data_cells_lookup (self : MatrixConstructor.t) (k : nat) (x y : Z) :
  data_cells self !! k = Some (y, x)
  ↔ 0 ≤ x < MatrixConstructor.size self ∧ 0 ≤ y < MatrixConstructor.size self
    ∧ MatrixConstructor._is_function_pattern self x y = false
    ∧ bit_index_of self x y = Z.of_nat k.
Proof.
  unfold data_cells, bit_index_of.
  rewrite filter_lookup_bits_before by apply NoDup_scan_order.
  rewrite elem_of_scan_order. unfold reserved. simpl. tauto.
Qed.

Lemma length_data_cells (self : MatrixConstructor.t) :
  21 ≤ MatrixConstructor.size self →
  len (data_cells self)
  = MatrixConstructor.size self * MatrixConstructor.size self
    - 2 * MatrixConstructor.size self - 191.
Proof.
  intros Hs. set (s := MatrixConstructor.size self) in *.
  assert (Hrows : range 0 s
                  = range 0 6 ++ range 6 7 ++ range 7 9 ++ range 9 (s - 8)
                    ++ range (s - 8) s).
  { rewrite (range_split 0 6 s), (range_split 6 7 s), (range_split 7 9 s),
      (range_split 9 (s - 8) s) by lia. done. }
  assert (Hfp : ∀ x y, reserved self (y, x) = false ↔
            ¬ (x = 6 ∨ y = 6 ∨ (x ≤ 8 ∧ y ≤ 8) ∨ (s - 8 ≤ x ∧ y ≤ 8)
               ∨ (x ≤ 8 ∧ s - 8 ≤ y))).
  { intros x y. unfold reserved. simpl.
    pose proof (function_pattern_iff self x y) as Hiff. fold s in Hiff.
    rewrite <- Hiff. symmetry. apply not_true_iff_false. }
  unfold len, data_cells, scan_order. fold s. rewrite Hrows at 1.
  rewrite !pairs_app, !filter_app, !length_app.
  rewrite (length_filter_pairs _ (range 0 6) _ (Z.to_nat (s - 17))).
  2:{ intros y Hy%elem_of_range. rewrite (count_interval _ 0 9 (s - 8) s); [f_equal; lia|lia..|].
      intros x Hx. rewrite Hfp. lia. }
  rewrite (length_filter_pairs _ (range 6 7) _ 0%nat).
  2:{ intros y Hy%elem_of_range. rewrite (count_interval _ 0 0 0 s); [done|lia..|].
      intros x Hx. rewrite Hfp. lia. }
  rewrite (length_filter_pairs _ (range 7 9) _ (Z.to_nat (s - 17))).
  2:{ intros y Hy%elem_of_range. rewrite (count_interval _ 0 9 (s - 8) s); [f_equal; lia|lia..|].
      intros x Hx. rewrite Hfp. lia. }
  rewrite (length_filter_pairs _ (range 9 (s - 8)) _ (Z.to_nat (s - 1))).
  2:{ intros y Hy%elem_of_range. rewrite (range_split 0 7 s) by lia.
      rewrite filter_app, length_app.
      rewrite (count_interval _ 0 0 6 7);
        [|lia|lia|lia|intros x Hx; rewrite Hfp; lia].
      rewrite (count_interval _ 7 7 s s);
        [|lia|lia|lia|intros x Hx; rewrite Hfp; lia].
      lia. }
  rewrite (length_filter_pairs _ (range (s - 8) s) _ (Z.to_nat (s - 9))).
  2:{ intros y Hy%elem_of_range. rewrite (count_interval _ 0 9 s s); [f_equal; lia|lia..|].
      intros x Hx. rewrite Hfp. lia. }
  rewrite !length_range. nia.
Qed.


(** X22: a grid of version v has 16 v^2 + 128 v + 64 cells outside the
    function patterns (208 at version 1), whatever the alignment block
    covers. *)
Theorem data_cells_count (self : MatrixConstructor.t) :
  1 ≤ MatrixConstructor.version self →
  MatrixConstructor.size self = (MatrixConstructor.version self - 1) * 4 + 21 →
  len (data_cells self)
  = 16 * MatrixConstructor.version self * MatrixConstructor.version self
    + 128 * MatrixConstructor.version self + 64.
Proof.
  intros Hv Hsize. rewrite length_data_cells by lia. rewrite Hsize. lia.
Qed.

Lemma data_cells_count_witness :
  len (data_cells v2_constructor)
  = 16 * MatrixConstructor.version v2_constructor
       * MatrixConstructor.version v2_constructor
    + 128 * MatrixConstructor.version v2_constructor + 64.
Proof. apply (data_cells_count v2_constructor); [simpl; lia|reflexivity]. Defined.

Lemma len_reed_solomon_encode (self : ReedSolomon.t) (bits : list Z) (v : Z)
    (l : ErrorCorrectionLevel) :
  10 ≤ len bits → len (ReedSolomon.encode self bits v l) = len bits + 10.
Proof.
  intros Hlen. unfold ReedSolomon.encode. rewrite slice_prefix by lia.
  unfold len in *. rewrite length_app, length_take. lia.
Qed.

(** X23: no bit is dropped. In the grid [generate] returns, every bit of
    the output of the redundancy stage, capacity + 10 of them, sits in a
    cell of its own outside the function patterns, the cell whose bit index
    is the position of the bit, inverted where the mask applies. *)
Theorem generate_places_every_bit `{UnicodeData} (q : QRCode.t) (text : str)
    (σ : store) :
  instance_ok q σ → encodable text = true →
  let mc := QRCode.matrix_constructor q in
  ∃ r σ' g bits,
    QRCode.generate q text σ = Ok (r, σ') ∧ σ' !! r = Some g ∧
    DataEncoder.encode (QRCode.encoder q) text = Ok bits ∧
    let data := ReedSolomon.encode (QRCode.error_corrector q) bits
                  (QRCode.version q) (QRCode.error_correction q) in
    len data = DataEncoder.capacity (QRCode.encoder q) + 10 ∧
    ∀ k, 0 ≤ k < len data →
      ∃ x y bit,
        0 ≤ x < MatrixConstructor.size mc ∧ 0 ≤ y < MatrixConstructor.size mc ∧
        MatrixConstructor._is_function_pattern mc x y = false ∧
        bit_index_of mc x y = k ∧
        getitem data k = Ok bit ∧
        matrix_get g y x = Ok (xorb (bool_of_int bit) ((x + y) `mod` 3 =? 0)).
Proof.
  intros Hq Htext mc.
  destruct (generate_cells q text σ Hq Htext)
    as (bits & m & g & Ebits & _ & _ & E & _ & Hc).
  destruct Hq as (Henc & Hv & Hsize & _). fold mc in Hv, Hsize, E, Hc.
  eexists _, _, g, bits. split; [exact E|]. split; [apply lookup_insert_eq|].
  split; [done|]. cbv zeta.
  set (data := ReedSolomon.encode _ _ _ _) in *.
  assert (Hlen : len data = DataEncoder.capacity (QRCode.encoder q) + 10).
  { rewrite Henc in Ebits |- *.
    apply encode_inv in Ebits as (_ & _ & _ & _ & _ & _ & Hbits).
    pose proof (capacity_range (QRCode.version q) (QRCode.error_correction q)).
    unfold data. rewrite len_reed_solomon_encode by lia. by rewrite Hbits. }
  split; [done|]. intros k Hk.
  assert (Hcap : len data ≤ 110).
  { rewrite Hlen, Henc. simpl.
    pose proof (capacity_range (QRCode.version q) (QRCode.error_correction q)).
    lia. }
  pose proof (length_data_cells mc) as Hcount.
  destruct (lookup_lt_is_Some_2 (data_cells mc) (Z.to_nat k)) as [[y x] Hyx].
  { unfold len in Hcount. nia. }
  apply data_cells_lookup in Hyx as (Hx & Hy & Efp & Hidx).
  rewrite Z2Nat.id in Hidx by lia.
  destruct (lookup_lt_is_Some_2 data (Z.to_nat k)) as [bit Hbit].
  { unfold len in Hk. lia. }
  exists x, y, bit. repeat (split; [done || lia|]).
  split; [apply getitem_in; [lia|done]|].
  destruct (Hc x y Hx Hy) as [_ ->]. f_equal.
  rewrite build_step_unreserved by done.
  rewrite (proj2 (Z.ltb_lt _ _)) by lia.
  by rewrite Hidx, Hbit.
Qed.

Lemma generate_places_every_bit_witness :
  ∃ r σ' g bits,
    QRCode.generate demo_instance text_HELLO demo_store = Ok (r, σ') ∧
    σ' !! r = Some g ∧
    DataEncoder.encode (QRCode.encoder demo_instance) text_HELLO = Ok bits ∧
    let data := ReedSolomon.encode (QRCode.error_corrector demo_instance) bits
                  (QRCode.version demo_instance)
                  (QRCode.error_correction demo_instance) in
    len data = DataEncoder.capacity (QRCode.encoder demo_instance) + 10 ∧
    ∀ k, 0 ≤ k < len data →
      ∃ x y bit,
        0 ≤ x < MatrixConstructor.size (QRCode.matrix_constructor demo_instance) ∧
        0 ≤ y < MatrixConstructor.size (QRCode.matrix_constructor demo_instance) ∧
        MatrixConstructor._is_function_pattern
          (QRCode.matrix_constructor demo_instance) x y = false ∧
        bit_index_of (QRCode.matrix_constructor demo_instance) x y = k ∧
        getitem data k = Ok bit ∧
        matrix_get g y x = Ok (xorb (bool_of_int bit) ((x + y) `mod` 3 =? 0)).
Proof.
  apply (generate_places_every_bit demo_instance text_HELLO demo_store);
    [|reflexivity].
  apply (instance_init_ok 1 M ∅). lia.
Defined.

(** ** Calling generate again *)

(** X24: three successive calls of [generate] on one instance, with one
    text. All three return the same reference. Between the first and the
    second call the grid changes exactly at the cells that are outside the
    function patterns, receive no bit, lie outside the alignment block and
    are selected by the mask, and there it is inverted; the third call
    restores the grid of the first. *)
Theorem generate_alternates `{UnicodeData} (q : QRCode.t) (text : str)
    (σ : store) :
  instance_ok q σ → encodable text = true →
  let mc := QRCode.matrix_constructor q in
  ∃ r σ1 σ2 σ3 g1 g2 bits,
    QRCode.generate q text σ = Ok (r, σ1) ∧
    QRCode.generate q text σ1 = Ok (r, σ2) ∧
    QRCode.generate q text σ2 = Ok (r, σ3) ∧
    σ1 !! r = Some g1 ∧ σ2 !! r = Some g2 ∧ σ3 !! r = Some g1 ∧
    DataEncoder.encode (QRCode.encoder q) text = Ok bits ∧
    ∀ x y b, 0 ≤ x < MatrixConstructor.size mc →
             0 ≤ y < MatrixConstructor.size mc →
      matrix_get g1 y x = Ok b →
      matrix_get g2 y x
      = Ok (if drifts mc (ReedSolomon.encode (QRCode.error_corrector q) bits
                            (QRCode.version q) (QRCode.error_correction q)) x y
            then negb b else b).
Proof.
  intros Hq Htext mc.
  destruct (generate_cells q text σ Hq Htext)
    as (bits & m & g1 & Ebits & Hm & Hwfm & E1 & Hwf1 & Hc1).
  fold mc in Hm, Hwfm, E1, Hwf1, Hc1.
  pose proof (generate_keeps_ok q text σ _ _ Hq Htext E1) as Hq1.
  destruct (generate_cells q text _ Hq1 Htext)
    as (bits2 & m1 & g2 & Ebits2 & Hm1 & _ & E2 & Hwf2 & Hc2).
  fold mc in Hm1, E2, Hwf2, Hc2.
  rewrite lookup_insert_eq in Hm1. injection Hm1 as <-.
  assert (bits2 = bits) as -> by congruence.
  pose proof (generate_keeps_ok q text _ _ _ Hq1 Htext E2) as Hq2.
  destruct (generate_cells q text _ Hq2 Htext)
    as (bits3 & m2 & g3 & Ebits3 & Hm2 & _ & E3 & Hwf3 & Hc3).
  fold mc in Hm2, E3, Hwf3, Hc3.
  rewrite lookup_insert_eq in Hm2. injection Hm2 as <-.
  assert (bits3 = bits) as -> by congruence.
  destruct Hq as (_ & Hv & Hsize & _). fold mc in Hv, Hsize.
  set (data := ReedSolomon.encode _ _ _ _) in *.
  assert (H1 : ∀ x y, 0 ≤ x < MatrixConstructor.size mc →
                      0 ≤ y < MatrixConstructor.size mc →
             cell g1 x y = build_step mc data x y (cell m x y)).
  { intros x y Hx Hy. destruct (Hc1 x y Hx Hy) as [_ Hg].
    destruct (Hc2 x y Hx Hy) as [Hg' _]. congruence. }
  assert (H2 : ∀ x y, 0 ≤ x < MatrixConstructor.size mc →
                      0 ≤ y < MatrixConstructor.size mc →
             cell g2 x y = build_step mc data x y (cell g1 x y)).
  { intros x y Hx Hy. destruct (Hc2 x y Hx Hy) as [_ Hg].
    destruct (Hc3 x y Hx Hy) as [Hg' _]. congruence. }
  assert (g3 = g1) as ->.
  { apply (grid_ext (MatrixConstructor.size mc)); [done..|].
    intros x y Hx Hy.
    assert (Hg3 : Ok (cell g3 x y)
                  = Ok (build_step mc data x y (cell g2 x y)) :> outcome bool).
    { destruct (Hc3 x y Hx Hy) as [_ <-].
      symmetry. by apply (matrix_get_in (MatrixConstructor.size mc)). }
    injection Hg3 as ->. rewrite H2, H1 by done.
    by apply build_step_thrice. }
  eexists _, _, _, _, g1, g2, bits.
  split; [exact E1|]. split; [exact E2|]. split; [exact E3|].
  split; [apply lookup_insert_eq|]. split; [apply lookup_insert_eq|].
  split; [apply lookup_insert_eq|]. split; [done|].
  intros x y b Hx Hy Hb.
  destruct (Hc2 x y Hx Hy) as [Hg1 ->]. f_equal.
  assert (b = cell g1 x y) as -> by congruence.
  rewrite H1 by done. by apply build_step_twice.
Qed.

Lemma generate_alternates_witness :
  ∃ r σ1 σ2 σ3 g1 g2 bits,
    QRCode.generate demo_instance text_1 demo_store = Ok (r, σ1) ∧
    QRCode.generate demo_instance text_1 σ1 = Ok (r, σ2) ∧
    QRCode.generate demo_instance text_1 σ2 = Ok (r, σ3) ∧
    σ1 !! r = Some g1 ∧ σ2 !! r = Some g2 ∧ σ3 !! r = Some g1 ∧
    DataEncoder.encode (QRCode.encoder demo_instance) text_1 = Ok bits ∧
    ∀ x y b,
      0 ≤ x < MatrixConstructor.size (QRCode.matrix_constructor demo_instance) →
      0 ≤ y < MatrixConstructor.size (QRCode.matrix_constructor demo_instance) →
      matrix_get g1 y x = Ok b →
      matrix_get g2 y x
      = Ok (if drifts (QRCode.matrix_constructor demo_instance)
                 (ReedSolomon.encode (QRCode.error_corrector demo_instance) bits
                    (QRCode.version demo_instance)
                    (QRCode.error_correction demo_instance)) x y
            then negb b else b).
Proof.
  apply (generate_alternates demo_instance text_1 demo_store); [|reflexivity].
  apply (instance_init_ok 1 M ∅). lia.
Defined.

(** X25: a call with another text overwrites the result of an earlier
    call. After [generate] on a first and then on a second text, both
    calls have returned the one reference to the grid of the instance, the
    cells that receive bits hold the bits of the second text, and every
    other location of the store is as it was before the first call. *)
Theorem generate_overwrites_earlier_result `{UnicodeData} (q : QRCode.t)
    (text1 text2 : str) (σ : store) :
  instance_ok q σ → encodable text1 = true → encodable text2 = true →
  let mc := QRCode.matrix_constructor q in
  ∃ r σ1 σ2 g2 bits2,
    QRCode.generate q text1 σ = Ok (r, σ1) ∧
    QRCode.generate q text2 σ1 = Ok (r, σ2) ∧
    r = MatrixConstructor.matrix mc ∧
    σ2 !! r = Some g2 ∧
    (∀ r', r' ≠ r → σ2 !! r' = σ !! r') ∧
    DataEncoder.encode (QRCode.encoder q) text2 = Ok bits2 ∧
    ∀ x y bit, 0 ≤ x < MatrixConstructor.size mc →
               0 ≤ y < MatrixConstructor.size mc →
      MatrixConstructor._is_function_pattern mc x y = false →
      getitem (ReedSolomon.encode (QRCode.error_corrector q) bits2
                 (QRCode.version q) (QRCode.error_correction q))
              (bit_index_of mc x y) = Ok bit →
      matrix_get g2 y x = Ok (xorb (bool_of_int bit) ((x + y) `mod` 3 =? 0)).
Proof.
  intros Hq Htext1 Htext2 mc.
  destruct (generate_cells q text1 σ Hq Htext1)
    as (bits1 & m & g1 & _ & _ & _ & E1 & _ & _).
  fold mc in E1.
  pose proof (generate_keeps_ok q text1 σ _ _ Hq Htext1 E1) as Hq1.
  destruct (generate_cells q text2 _ Hq1 Htext2)
    as (bits2 & m1 & g2 & Ebits2 & _ & _ & E2 & _ & Hc2).
  fold mc in E2, Hc2.
  destruct Hq as (_ & Hv & Hsize & _). fold mc in Hv, Hsize.
  eexists _, _, _, g2, bits2.
  split; [exact E1|]. split; [exact E2|]. split; [done|].
  split; [apply lookup_insert_eq|]. split.
  { intros r' Hr'. by rewrite !lookup_insert_ne by done. }
  split; [done|]. intros x y bit Hx Hy Efp Hbit.
  destruct (Hc2 x y Hx Hy) as [_ ->]. f_equal.
  rewrite build_step_unreserved by done.
  apply getitem_nonneg_inv in Hbit as [Hlt Hbit];
    [|apply bits_before_nonneg].
  rewrite (proj2 (Z.ltb_lt _ _)) by done. by rewrite Hbit.
Qed.

Lemma generate_overwrites_earlier_result_witness :
  ∃ r σ1 σ2 g2 bits2,
    QRCode.generate demo_instance text_1 demo_store = Ok (r, σ1) ∧
    QRCode.generate demo_instance text_HELLO σ1 = Ok (r, σ2) ∧
    r = MatrixConstructor.matrix (QRCode.matrix_constructor demo_instance) ∧
    σ2 !! r = Some g2 ∧
    (∀ r', r' ≠ r → σ2 !! r' = demo_store !! r') ∧
    DataEncoder.encode (QRCode.encoder demo_instance) text_HELLO = Ok bits2 ∧
    ∀ x y bit,
      0 ≤ x < MatrixConstructor.size (QRCode.matrix_constructor demo_instance) →
      0 ≤ y < MatrixConstructor.size (QRCode.matrix_constructor demo_instance) →
      MatrixConstructor._is_function_pattern
        (QRCode.matrix_constructor demo_instance) x y = false →
      getitem (ReedSolomon.encode (QRCode.error_corrector demo_instance) bits2
                 (QRCode.version demo_instance)
                 (QRCode.error_correction demo_instance))
              (bit_index_of (QRCode.matrix_constructor demo_instance) x y)
      = Ok bit →
      matrix_get g2 y x = Ok (xorb (bool_of_int bit) ((x + y) `mod` 3 =? 0)).
Proof.
  apply (generate_overwrites_earlier_result demo_instance text_1 text_HELLO
           demo_store); [|reflexivity|reflexivity].
  apply (instance_init_ok 1 M ∅). lia.
Defined.

(** ** Rendering *)

(** A loop that appends to its accumulator. *)
Lemma for_collect {A B : Type} (l : list A) (body : A → list B → outcome (list B))
    (h : A → list B) (acc : list B) :
  (∀ a acc, a ∈ l → body a acc = Ok (acc ++ h a)) →
  for_ l body acc = Ok (acc ++ concat (h <$> l)).
Proof.
  revert acc. induction l as [|a l IH]; intros acc Hbody; simpl.
  - by rewrite app_nil_r.
  - rewrite Hbody by (by left). cbn [mbind outcome_bind].
    rewrite IH by (intros; apply Hbody; by right). by rewrite app_assoc.
Qed.

Lemma concat_singletons {A B : Type} (f : A → B) (l : list A) :
  concat ((fun a => [f a]) <$> l) = f <$> l.
Proof.
  induction l as [|a l IH]; [done|].
  rewrite !fmap_cons. cbn [concat app]. by rewrite IH.
Qed.

Lemma lookup_concat_twice {A B : Type} (f : A → B) (l : list A) (i : nat) :
  concat ((fun a => [f a; f a]) <$> l) !! (2 * i)%nat = f <$> l !! i ∧
  concat ((fun a => [f a; f a]) <$> l) !! (2 * i + 1)%nat = f <$> l !! i.
Proof.
  revert i. induction l as [|a l IH]; intros i; [done|].
  destruct i as [|i]; [done|].
  replace (2 * S i)%nat with (S (S (2 * i))) by lia.
  replace (S (S (2 * i)) + 1)%nat with (S (S (2 * i + 1))) by lia.
  rewrite !fmap_cons. cbn [concat app lookup list_lookup]. apply IH.
Qed.

Lemma length_concat_twice {A B : Type} (f : A → B) (l : list A) :
  length (concat ((fun a => [f a; f a]) <$> l)) = (2 * length l)%nat.
Proof.
  induction l as [|a l IH]; [done|].
  rewrite fmap_cons. cbn [concat app length]. rewrite IH. lia.
Qed.

Lemma lookup_range (lo hi i : Z) :
  lo ≤ i < hi → range lo hi !! Z.to_nat (i - lo) = Some i.
Proof.
  intros Hi. unfold range. rewrite lookup_seqZ. split; lia.
Qed.

(** X26: [print_ascii] runs [generate], with its effect on the grid of the
    instance, and prints one line per row of the grid; a line has two
    characters per cell, twice the full block for a dark cell and twice
    the space for a light one, in column order. *)
Theorem print_ascii_renders `{UnicodeData} (q : QRCode.t) (text : str)
    (σ : store) :
  instance_ok q σ → encodable text = true →
  let size := MatrixConstructor.size (QRCode.matrix_constructor q) in
  ∃ r σ' g lines,
    QRCode.generate q text σ = Ok (r, σ') ∧ σ' !! r = Some g ∧
    QRCode.print_ascii q text σ = Ok (lines, σ') ∧
    len lines = size ∧
    ∀ x y b, 0 ≤ x < size → 0 ≤ y < size →
      matrix_get g y x = Ok b →
      ∃ line, lines !! Z.to_nat y = Some line ∧
              len line = 2 * size ∧
              line !! Z.to_nat (2 * x) = Some (if b then 9608 else 32) ∧
              line !! Z.to_nat (2 * x + 1) = Some (if b then 9608 else 32).
Proof.
  intros Hq Htext size.
  destruct (generate_cells q text σ Hq Htext)
    as (bits & m & g & _ & _ & _ & E & Hwf & _).
  fold size in E, Hwf.
  assert (Hpos : 21 ≤ size).
  { destruct Hq as (_ & Hv & Hsize & _). fold size in Hsize. lia. }
  set (glyph := fun b : bool => if b then 9608 else 32).
  set (line_of := fun y : Z =>
         concat ((fun x => [glyph (cell g x y); glyph (cell g x y)])
                   <$> range 0 size)).
  assert (Hlen : len g = size).
  { destruct Hwf as [Hl _]. unfold len. rewrite Hl. lia. }
  eexists _, _, g, (line_of <$> range 0 size).
  split; [exact E|]. split; [apply lookup_insert_eq|]. split.
  { unfold QRCode.print_ascii. rewrite E. cbn [mbind outcome_bind].
    rewrite lookup_insert_eq. rewrite Hlen.
    rewrite (for_collect _ _ (fun y => [line_of y])).
    - cbn [mbind outcome_bind app]. by rewrite concat_singletons.
    - intros y acc Hy%elem_of_range.
      rewrite (for_collect _ _
                 (fun x => [glyph (cell g x y); glyph (cell g x y)])).
      + done.
      + intros x line Hx%elem_of_range.
        rewrite (matrix_get_in size) by done. cbn [mbind outcome_bind].
        by destruct (cell g x y). }
  split.
  { unfold len. rewrite length_fmap, length_range. lia. }
  intros x y b Hx Hy Hb.
  rewrite (matrix_get_in size) in Hb by done. injection Hb as <-.
  exists (line_of y). split.
  { rewrite list_lookup_fmap.
    replace (Z.to_nat y) with (Z.to_nat (y - 0)) by lia.
    by rewrite lookup_range. }
  split.
  { unfold len, line_of. rewrite length_concat_twice, length_range. lia. }
  pose proof (lookup_concat_twice (fun x => glyph (cell g x y))
                (range 0 size) (Z.to_nat x)) as [Hl0 Hl1].
  replace (Z.to_nat (2 * x)) with (2 * Z.to_nat x)%nat by lia.
  replace (Z.to_nat (2 * x + 1)) with (2 * Z.to_nat x + 1)%nat by lia.
  unfold line_of. rewrite Hl0, Hl1.
  replace (Z.to_nat x) with (Z.to_nat (x - 0)) by lia.
  by rewrite lookup_range.
Qed.

Lemma print_ascii_renders_witness :
  ∃ r σ' g lines,
    QRCode.generate demo_instance text_HELLO demo_store = Ok (r, σ') ∧
    σ' !! r = Some g ∧
    QRCode.print_ascii demo_instance text_HELLO demo_store = Ok (lines, σ') ∧
    len lines
    = MatrixConstructor.size (QRCode.matrix_constructor demo_instance) ∧
    ∀ x y b,
      0 ≤ x < MatrixConstructor.size (QRCode.matrix_constructor demo_instance) →
      0 ≤ y < MatrixConstructor.size (QRCode.matrix_constructor demo_instance) →
      matrix_get g y x = Ok b →
      ∃ line, lines !! Z.to_nat y = Some line ∧
              len line
              = 2 * MatrixConstructor.size
                      (QRCode.matrix_constructor demo_instance) ∧
              line !! Z.to_nat (2 * x) = Some (if b then 9608 else 32) ∧
              line !! Z.to_nat (2 * x + 1) = Some (if b then 9608 else 32).
Proof.
  apply (print_ascii_renders demo_instance text_HELLO demo_store);
    [|reflexivity].
  apply (instance_init_ok 1 M ∅). lia.
Defined.

(** ** The image of save_as_image *)












(** ** Where generate raises *)

(** X28: the exact outcomes of [generate] on a string of code points: it
    raises what the encoder raises, ValueError on a text that [isdigit]
    accepts with a character without decimal value and
    UnicodeEncodeError on any other text with a surrogate code point, and
    it returns on every other text: the matrix stage raises nothing. *)
Theorem generate_outcome `{UnicodeData} (q : QRCode.t) (text : str)
    (σ : store) :
  instance_ok q σ → Forall code_point text →
  if encodable text then
    ∃ r σ' g, QRCode.generate q text σ = Ok (r, σ') ∧ σ' !! r = Some g
  else
    QRCode.generate q text σ
    = Raise (if isdigit text then ValueError else UnicodeEncodeError).
Proof.
  intros Hq Htext. destruct (encodable text) eqn:Eenc.
  - destruct (generate_cells q text σ Hq Eenc)
      as (bits & m & g & _ & _ & _ & E & _ & _).
    eexists _, _, g. split; [exact E|apply lookup_insert_eq].
  - destruct Hq as [Henc _]. unfold QRCode.generate.
    by rewrite Henc, encode_raises.
Qed.

Lemma generate_outcome_witness :
  if encodable [50; 178] then
    ∃ r σ' g, QRCode.generate demo_instance [50; 178] demo_store = Ok (r, σ')
              ∧ σ' !! r = Some g
  else
    QRCode.generate demo_instance [50; 178] demo_store
    = Raise (if isdigit [50; 178] then ValueError else UnicodeEncodeError).
Proof.
  apply (generate_outcome demo_instance [50; 178] demo_store).
  - apply (instance_init_ok 1 M ∅). lia.
  - repeat constructor; unfold code_point; lia.
Defined.

(** ** More bits than cells *)

Lemma build_step_take (mc : MatrixConstructor.t) (data : list Z) (x y : Z)
    (b : bool) :
  0 ≤ x < MatrixConstructor.size mc → 0 ≤ y < MatrixConstructor.size mc →
  len (data_cells mc) ≤ len data →
  build_step mc (take (length (data_cells mc)) data) x y b
  = build_step mc data x y b.
Proof.
  intros Hx Hy Hlen. unfold build_step, mask_step, data_step.
  destruct (MatrixConstructor._is_function_pattern mc x y) eqn:Efp; [done|].
  cbn [negb andb].
  pose proof (bits_before_nonneg (reserved mc)
    (scan_order (MatrixConstructor.size mc)) (y, x)) as Hk.
  fold (bit_index_of mc x y) in Hk.
  assert (Hidx : (Z.to_nat (bit_index_of mc x y) < length (data_cells mc))%nat).
  { apply (lookup_lt_Some _ _ (y, x)). apply data_cells_lookup.
    repeat (split; [done|]). lia. }
  unfold len in *. rewrite length_take.
  rewrite !(proj2 (Z.ltb_lt _ _)) by lia.
  by rewrite lookup_take_lt by done.
Qed.

(** X29: [build_matrix] returns on every list of bits, and when the list
    is longer than the number of cells outside the function patterns it
    ignores the excess without a sign: the call with the whole list and
    the call with the list cut to that number give the same grid. *)
Theorem build_matrix_drops_excess_bits (mc : MatrixConstructor.t)
    (data : list Z) (σ : store) :
  constructor_ok mc σ →
  len (data_cells mc) ≤ len data →
  ∃ r σ',
    MatrixConstructor.build_matrix mc data σ = Ok (r, σ') ∧
    MatrixConstructor.build_matrix mc (take (length (data_cells mc)) data) σ
    = Ok (r, σ').
Proof.
  intros Hmc Hlen.
  destruct (build_matrix_spec mc data σ Hmc)
    as (m & m1 & Hm & _ & E1 & Hwf & Hwf1 & Hc1).
  destruct (build_matrix_spec mc (take (length (data_cells mc)) data) σ Hmc)
    as (m' & m2 & Hm' & _ & E2 & _ & Hwf2 & Hc2).
  assert (m' = m) as -> by congruence.
  assert (m2 = m1) as ->.
  { apply (grid_ext (MatrixConstructor.size mc)); [done..|].
    intros x y Hx Hy. rewrite Hc1, Hc2 by done. by apply build_step_take. }
  eauto.
Qed.

Lemma build_matrix_drops_excess_bits_witness :
  ∃ r σ',
    MatrixConstructor.build_matrix v1_constructor (replicate 300 1)
      (<[1%positive := MatrixConstructor.blank 21]> ∅) = Ok (r, σ') ∧
    MatrixConstructor.build_matrix v1_constructor
      (take (length (data_cells v1_constructor)) (replicate 300 1))
      (<[1%positive := MatrixConstructor.blank 21]> ∅) = Ok (r, σ').
Proof.
  apply (build_matrix_drops_excess_bits v1_constructor (replicate 300 1)
           (<[1%positive := MatrixConstructor.blank 21]> ∅)).
  - split; [simpl; lia|]. split; [reflexivity|].
    exists (MatrixConstructor.blank 21).
    split; [apply lookup_insert_eq|apply (blank_wf 21)].
  - rewrite (length_data_cells v1_constructor) by (simpl; lia).
    unfold len. rewrite length_replicate. simpl. lia.
Defined.
